(** * sql-spw-bot: the data-to-query engine and the offline translator

    A shallow embedding of [modules/sql_engine.py] and of the offline half
    of [modules/ai_agent.py], together with the properties the
    specification states about them.

    Conventions of the embedding.
    - A Python [str] is a [string]; a character is a code point below 256
      (the Latin-1 range), and the character tables below ([isspace],
      [lower], the [re] classes) are CPython's tables restricted to that
      range.
    - A Python function that may raise returns a [result].
    - The [sqlite3] connection is not code of the repository: it is modelled
      by [Sqlite.exec], a partial model that answers exactly on the
      statement texts the engine and the translator can produce and says
      [Unmodelled] elsewhere. *)

From Stdlib Require Import Bool Arith ZArith NArith List Ascii String Lia.
From Stdlib Require Import DecimalString.
From Stdlib Require DecimalZ DecimalPos.
Import ListNotations.

Local Open Scope string_scope.
Local Open Scope bool_scope.

Set Implicit Arguments.

(* ===================================================================== *)
(** * Results of Python calls *)

(** The exceptions the modelled code can raise.  [ValueError] carries its
    message; the two [ValueError]s the engine raises itself are the spec's
    [EmptyInputError] and [UnsafeQueryError].  [OperationalError] is
    [sqlite3.OperationalError], raised by the storage. *)
Inductive exn : Type :=
| ValueError (msg : string)
| AttributeError (msg : string)
| KeyError (key : string)
| TypeError (msg : string)
| OverflowError (msg : string)
| OperationalError (msg : string).

(** [Unmodelled] is not a Python outcome: it marks a statement text on which
    the storage model gives no answer. *)
Inductive result (A : Type) : Type :=
| Ok (a : A)
| Raise (e : exn)
| Unmodelled.

Arguments Ok {A} a.
Arguments Raise {A} e.
Arguments Unmodelled {A}.

Definition EmptyInputError : exn := ValueError "No rows to load".
Definition UnsafeQueryError : exn :=
  ValueError "Only SELECT/WITH queries are allowed in demo mode.".

Definition rbind {A B : Type} (r : result A) (f : A -> result B) : result B :=
  match r with
  | Ok a => f a
  | Raise e => Raise e
  | Unmodelled => Unmodelled
  end.

(* ===================================================================== *)
(** * Python strings *)

Module PyStr.

Definition code (c : ascii) : nat := nat_of_ascii c.

Definition between (lo hi : nat) (c : ascii) : bool :=
  (lo <=? code c)%nat && (code c <=? hi)%nat.

(** [str.isspace] on one character, as used by [str.strip()] and by [\s]:
    TAB..CR, FS..US, SPACE, NEL (U+0085) and NBSP (U+00A0). *)
Definition is_space (c : ascii) : bool :=
  between 9 13 c || between 28 32 c || (code c =? 133)%nat || (code c =? 160)%nat.

(** [\d] on a [str] pattern: the decimal digits; below 256 these are 0-9. *)
Definition is_digit (c : ascii) : bool := between 48 57 c.

Definition is_upper_az (c : ascii) : bool := between 65 90 c.
Definition is_lower_az (c : ascii) : bool := between 97 122 c.

(** [\w] on a [str] pattern: [str.isalnum] or underscore.  Below 256 the
    alphanumerics are the ASCII letters and digits, the letters of
    Latin-1 (with U+00AA, U+00B5, U+00BA), the superscript digits and the
    vulgar fractions. *)
Definition is_word (c : ascii) : bool :=
  is_digit c || is_upper_az c || is_lower_az c || (code c =? 95)%nat
  || (code c =? 170)%nat || (code c =? 181)%nat || (code c =? 186)%nat
  || (code c =? 178)%nat || (code c =? 179)%nat || (code c =? 185)%nat
  || between 188 190 c
  || between 192 214 c || between 216 246 c || between 248 255 c.

(** [str.lower] on one character: A-Z and the upper-case letters of Latin-1
    (U+00C0..U+00DE without the multiplication sign) move up by 32. *)
Definition lower_char (c : ascii) : ascii :=
  if is_upper_az c || (between 192 222 c && negb (code c =? 215)%nat)
  then ascii_of_nat (code c + 32) else c.

Fixpoint lower (s : string) : string :=
  match s with
  | EmptyString => EmptyString
  | String c s' => String (lower_char c) (lower s')
  end.

(** SQLite folds case on ASCII letters only. *)
Definition ascii_lower_char (c : ascii) : ascii :=
  if is_upper_az c then ascii_of_nat (code c + 32) else c.

Fixpoint ascii_lower (s : string) : string :=
  match s with
  | EmptyString => EmptyString
  | String c s' => String (ascii_lower_char c) (ascii_lower s')
  end.

(** [s.startswith(p)] *)
Fixpoint startswith (p s : string) : bool :=
  match p with
  | EmptyString => true
  | String a p' =>
      match s with
      | EmptyString => false
      | String b s' => Ascii.eqb a b && startswith p' s'
      end
  end.

(** [p in s] *)
Fixpoint contains (p s : string) : bool :=
  startswith p s ||
  match s with
  | EmptyString => false
  | String _ s' => contains p s'
  end.

Fixpoint forall_chars (p : ascii -> bool) (s : string) : bool :=
  match s with
  | EmptyString => true
  | String c s' => p c && forall_chars p s'
  end.

Fixpoint count_char (a : ascii) (s : string) : nat :=
  match s with
  | EmptyString => 0
  | String c s' => (if Ascii.eqb a c then 1 else 0) + count_char a s'
  end.

(** [s.endswith(a)] for a single character [a] *)
Fixpoint endswith_char (a : ascii) (s : string) : bool :=
  match s with
  | EmptyString => false
  | String c EmptyString => Ascii.eqb a c
  | String _ s' => endswith_char a s'
  end.

(** [s.lstrip(chars)], [s.rstrip(chars)], [s.strip(chars)] with the set of
    stripped characters given as a predicate. *)
Fixpoint lstrip_chars (p : ascii -> bool) (s : string) : string :=
  match s with
  | EmptyString => EmptyString
  | String c s' => if p c then lstrip_chars p s' else s
  end.

Fixpoint rstrip_chars (p : ascii -> bool) (s : string) : string :=
  match s with
  | EmptyString => EmptyString
  | String c s' =>
      match rstrip_chars p s' with
      | EmptyString => if p c then EmptyString else String c EmptyString
      | r => String c r
      end
  end.

Definition strip_chars (p : ascii -> bool) (s : string) : string :=
  rstrip_chars p (lstrip_chars p s).

(** [s.strip()] *)
Definition strip (s : string) : string := strip_chars is_space s.

(** [sep.join(parts)] *)
Fixpoint join (sep : string) (parts : list string) : string :=
  match parts with
  | [] => EmptyString
  | [x] => x
  | x :: rest => x ++ sep ++ join sep rest
  end.

(** The double quote and the apostrophe, as one-character strings. *)
Definition dquote_char : ascii := "034"%char.
Definition squote_char : ascii := "039"%char.
Definition dq : string := String dquote_char EmptyString.
Definition nl : string := String "010"%char EmptyString.

(** The characters removed by the second [strip] of a filter value: the
    double quote and the apostrophe. *)
Definition is_quote (c : ascii) : bool :=
  Ascii.eqb c dquote_char || Ascii.eqb c squote_char.

(** ** Integers and their decimal text *)

(** CPython refuses to convert between [int] and decimal text beyond
    [sys.get_int_max_str_digits()] digits and raises [ValueError]; the
    default, which the program does not change, is 4300. *)
Definition int_max_str_digits : nat := 4300.

Definition digit_value (c : ascii) : Z := Z.of_nat (code c - 48).

Fixpoint digits_value (acc : Z) (s : string) : Z :=
  match s with
  | EmptyString => acc
  | String c s' => digits_value (10 * acc + digit_value c)%Z s'
  end.

Definition decimal (z : Z) : string := NilZero.string_of_int (Z.to_int z).

(** [int(s)] for a text [s] of decimal digits, the only form the translator
    passes (a [\d+] capture).  Other texts are answered with the
    [ValueError] of a malformed literal; [int] accepts a sign, blanks and
    underscores as well, which no call site produces. *)
Definition int_of_str (s : string) : result Z :=
  if (int_max_str_digits <? length s)%nat then
    Raise (ValueError
             ("Exceeds the limit (4300 digits) for integer string conversion: "
              ++ "value has " ++ decimal (Z.of_nat (length s))
              ++ " digits; use sys.set_int_max_str_digits() to increase the limit"))
  else if forall_chars is_digit s && negb (s =? "") then
    Ok (digits_value 0 s)
  else Raise (ValueError "invalid literal for int() with base 10").

(** The least magnitude whose decimal text has more than
    [int_max_str_digits] digits. *)
Definition int_str_bound : Z := (10 ^ Z.of_nat int_max_str_digits)%Z.

(** [str(z)] for an [int] of any size. *)
Definition str_of_int (z : Z) : result string :=
  if (int_str_bound <=? Z.abs z)%Z then
    Raise (ValueError
             ("Exceeds the limit (4300 digits) for integer string conversion; "
              ++ "use sys.set_int_max_str_digits() to increase the limit"))
  else Ok (decimal z).

(** ** Splitting *)

(** The pieces of [s] between the occurrences of a separator that is not
    empty, found from the left without overlap.  The result is the piece
    under way and the pieces after it; [skip] counts the characters of a
    separator still to pass. *)
Fixpoint split_go (sep : string) (skip : nat) (s : string)
  : string * list string :=
  match s with
  | EmptyString => (EmptyString, [])
  | String c s' =>
      match skip with
      | S k => split_go sep k s'
      | O =>
          if startswith sep s then
            let (p, ps) := split_go sep (length sep - 1) s' in
            (EmptyString, p :: ps)
          else
            let (p, ps) := split_go sep 0 s' in (String c p, ps)
      end
  end.

Definition split_on (sep s : string) : list string :=
  let (p, ps) := split_go sep 0 s in p :: ps.

(** [s.split(sep)] *)
Definition split (sep s : string) : result (list string) :=
  if sep =? "" then Raise (ValueError "empty separator")
  else Ok (split_on sep s).

End PyStr.

(* ===================================================================== *)
(** * The fragment of [re] the program uses *)

Module Re.
Import PyStr.

(** Patterns.  Repetition is only ever applied to a single character
    class in the program's patterns, so [Star] and [Plus] take a class.
    [Group] is the capturing group whose text the program reads with
    [group(1)]; parentheses that only group are plain nesting. *)
Inductive regex : Type :=
| Lit (s : string)
| Class (p : ascii -> bool)
| Star (p : ascii -> bool)
| Plus (p : ascii -> bool)
| Opt (r : regex)
| Alt (r1 r2 : regex)
| Seq (r1 r2 : regex)
| WordB
| Group (r : regex).

(** A position of the matcher in the subject: the character before it, the
    text from it on, its index, and the text of group 1 if it has closed. *)
Record mstate : Type := MState {
  prev : option ascii;
  rest : string;
  pos : nat;
  grp : option string
}.

Definition set_grp (g : string) (st : mstate) : mstate :=
  MState (prev st) (rest st) (pos st) (Some g).

Definition next_char (st : mstate) : option ascii :=
  match rest st with
  | EmptyString => None
  | String c _ => Some c
  end.

Definition wordish (o : option ascii) : bool :=
  match o with
  | Some c => is_word c
  | None => false
  end.

(** [\b]: exactly one side of the position is a word character. *)
Definition at_boundary (st : mstate) : bool :=
  xorb (wordish (prev st)) (wordish (next_char st)).

Fixpoint eat_lit (l : string) (pv : option ascii) (s : string) (i : nat)
  (g : option string) : option mstate :=
  match l with
  | EmptyString => Some (MState pv s i g)
  | String a l' =>
      match s with
      | EmptyString => None
      | String c s' =>
          if Ascii.eqb a c then eat_lit l' (Some c) s' (S i) g else None
      end
  end.

(** Greedy repetition of a class with backtracking: the longest run first,
    then one character less at a time. *)
Fixpoint star (p : ascii -> bool) (k : mstate -> option mstate)
  (pv : option ascii) (s : string) (i : nat) (g : option string)
  : option mstate :=
  match s with
  | EmptyString => k (MState pv s i g)
  | String c s' =>
      if p c then
        match star p k (Some c) s' (S i) g with
        | Some x => Some x
        | None => k (MState pv s i g)
        end
      else k (MState pv s i g)
  end.

(** The backtracking matcher in continuation-passing style: alternatives
    are tried in the order [re] tries them, and the first complete success
    is the match. *)
Fixpoint run (r : regex) (st : mstate) (k : mstate -> option mstate)
  : option mstate :=
  match r with
  | Lit l =>
      match eat_lit l (prev st) (rest st) (pos st) (grp st) with
      | Some st' => k st'
      | None => None
      end
  | Class p =>
      match rest st with
      | String c s' =>
          if p c then k (MState (Some c) s' (S (pos st)) (grp st)) else None
      | EmptyString => None
      end
  | Star p => star p k (prev st) (rest st) (pos st) (grp st)
  | Plus p =>
      match rest st with
      | String c s' =>
          if p c then star p k (Some c) s' (S (pos st)) (grp st) else None
      | EmptyString => None
      end
  | Opt r1 =>
      match run r1 st k with
      | Some x => Some x
      | None => k st
      end
  | Alt r1 r2 =>
      match run r1 st k with
      | Some x => Some x
      | None => run r2 st k
      end
  | Seq r1 r2 => run r1 st (fun st' => run r2 st' k)
  | WordB => if at_boundary st then k st else None
  | Group r1 =>
      run r1 st
        (fun st' => k (set_grp (substring 0 (pos st' - pos st) (rest st)) st'))
  end.

Definition at_end (st : mstate) : option mstate :=
  match rest st with
  | EmptyString => Some st
  | String _ _ => None
  end.

(** [re.fullmatch(r, s) is not None] *)
Definition fullmatch (r : regex) (s : string) : bool :=
  match run r (MState None s 0 None) at_end with
  | Some _ => true
  | None => false
  end.

Fixpoint search_from (r : regex) (pv : option ascii) (s : string) (i : nat)
  : option mstate :=
  match run r (MState pv s i None) (@Some mstate) with
  | Some st => Some st
  | None =>
      match s with
      | EmptyString => None
      | String c s' => search_from r (Some c) s' (S i)
      end
  end.

(** [re.search(r, s)]: the match at the leftmost position that has one. *)
Definition search (r : regex) (s : string) : option mstate :=
  search_from r None s 0.

(** [m.group(1)]; [None] in Python when the group took no part. *)
Definition group1 (m : mstate) : option string := grp m.

(** ** All matches *)

(** The search of [findall]: as [search_from], but when the previous match
    was empty ([adv]) a match that ends where the search began, at
    [start], is refused and the matcher backtracks. *)
Fixpoint search_adv (r : regex) (start : nat) (adv : bool)
  (pv : option ascii) (s : string) (i : nat) : option mstate :=
  match run r (MState pv s i None)
            (fun m => if adv && (pos m =? start)%nat then None else Some m) with
  | Some m => Some m
  | None =>
      match s with
      | EmptyString => None
      | String c s' => search_adv r start adv (Some c) s' (S i)
      end
  end.

(** The text of a match of [Group r], which is the text [r] matched. *)
Definition match_text (m : mstate) : string :=
  match grp m with
  | Some g => g
  | None => EmptyString
  end.

(** The loop of [findall]: each search starts where the last match ended. *)
Fixpoint findall_loop (fuel : nat) (r : regex) (adv : bool)
  (pv : option ascii) (s : string) (i : nat) : list string :=
  match fuel with
  | O => []
  | S fuel' =>
      match search_adv (Group r) i adv pv s i with
      | Some m =>
          match_text m
          :: findall_loop fuel' r (match_text m =? "") (prev m) (rest m) (pos m)
      | None => []
      end
  end.

(** [re.findall(r, s)] for a pattern [r] without a capturing group: the
    texts of the matches from left to right.  Two rounds for each position
    and two for the end are all the loop can take. *)
Definition findall (r : regex) (s : string) : list string :=
  findall_loop (2 * length s + 2) r false None s 0.

End Re.

(* ===================================================================== *)
(** * Cell values *)

(** Python floats are kept abstract: the type [F] of floats and the text
    [str] gives them are parameters wherever they occur. *)

(** A cell of an input record, as the file readers produce it: absent,
    text, an integer of any size, or a float. *)
Inductive pyvalue (F : Type) : Type :=
| PNone
| PStr (s : string)
| PInt (z : Z)
| PFloat (f : F).

Arguments PNone {F}.
Arguments PStr {F} s.
Arguments PInt {F} z.
Arguments PFloat {F} f.

(** A value the storage hands back: NULL, a 64-bit INTEGER, a REAL, TEXT or
    a BLOB. *)
Inductive sqlvalue (F : Type) : Type :=
| SNull
| SInt (z : Z)
| SReal (f : F)
| SText (s : string)
| SBlob (b : string).

Arguments SNull {F}.
Arguments SInt {F} z.
Arguments SReal {F} f.
Arguments SText {F} s.
Arguments SBlob {F} b.

(** A Python [dict] with text keys, in insertion order. *)
Definition dict (V : Type) : Type := list (string * V).

(** [k in d] *)
Definition dict_mem {V : Type} (k : string) (d : dict V) : bool :=
  existsb (fun kv => fst kv =? k) d.

(** [d.get(k)] *)
Fixpoint dict_get {V : Type} (d : dict V) (k : string) : option V :=
  match d with
  | [] => None
  | (k', v) :: d' => if k' =? k then Some v else dict_get d' k
  end.

(** [d[k]] *)
Definition dict_item {V : Type} (d : dict V) (k : string) : result V :=
  match dict_get d k with
  | Some v => Ok v
  | None => Raise (KeyError k)
  end.

(** [list(d.keys())] *)
Definition dict_keys {V : Type} (d : dict V) : list string := map fst d.

(** A Python [set] of texts is kept as a list without repetitions; the
    program reads its size and whether it is empty, never its order. *)
Definition set_mem (x : string) (l : list string) : bool :=
  existsb (String.eqb x) l.

(** [set(l)] *)
Fixpoint set_of (l : list string) : list string :=
  match l with
  | [] => []
  | x :: l' => if set_mem x (set_of l') then set_of l' else x :: set_of l'
  end.

(** [a & b] and [a | b] *)
Definition set_inter (a b : list string) : list string :=
  filter (fun x => set_mem x b) a.

Definition set_union (a b : list string) : list string :=
  a ++ filter (fun x => negb (set_mem x a)) b.

(** [not a] for a list or a set *)
Definition is_empty {A : Type} (l : list A) : bool :=
  match l with
  | [] => true
  | _ :: _ => false
  end.

(* ===================================================================== *)
(** * modules/ai_agent.py: the offline translator and summarizer *)

Module AiAgent.
Import PyStr Re.

Notation "r1 >> r2" := (Seq r1 r2) (at level 61, right associativity).

(** The class [[A-Za-z0-9_ -]] of a filter value. *)
Definition value_char (c : ascii) : bool :=
  is_upper_az c || is_lower_az c || is_digit c
  || Ascii.eqb c "_"%char || Ascii.eqb c " "%char || Ascii.eqb c "-"%char.

(** [\bitem\b\s*(?:=|is)\s*([A-Za-z0-9_ -]+)] *)
Definition re_count_item : regex :=
  WordB >> Lit "item" >> WordB >> Star is_space >>
  Alt (Lit "=") (Lit "is") >> Star is_space >> Group (Plus value_char).

(** [top\s+(\d+)] *)
Definition re_top : regex :=
  Lit "top" >> Plus is_space >> Group (Plus is_digit).

(** [customer\s+(?:=|is|named)\s*([A-Za-z0-9_ -]+)] *)
Definition re_customer : regex :=
  Lit "customer" >> Plus is_space >>
  Alt (Lit "=") (Alt (Lit "is") (Lit "named")) >> Star is_space >>
  Group (Plus value_char).

(** [item\s+(?:=|is|named)\s*([A-Za-z0-9_ -]+)] *)
Definition re_item : regex :=
  Lit "item" >> Plus is_space >>
  Alt (Lit "=") (Alt (Lit "is") (Lit "named")) >> Star is_space >>
  Group (Plus value_char).

(** [m.group(1).strip()] followed by the [strip] of quote characters. *)
Definition filter_value (m : mstate) : result string :=
  match group1 m with
  | Some g => Ok (strip_chars is_quote (strip g))
  | None => Raise (AttributeError "'NoneType' object has no attribute 'strip'")
  end.

(** [offline_sql(user_query, table_name)] *)
Definition offline_sql (user_query table_name : string) : result string :=
  let q := lower user_query in
  (* Count rows *)
  if contains "how many" q || contains "count" q then
    match search re_count_item q with
    | Some m =>
        rbind (filter_value m) (fun val =>
        Ok ("SELECT COUNT(*) AS count FROM " ++ table_name
            ++ " WHERE item = " ++ dq ++ val ++ dq ++ ";"))
    | None => Ok ("SELECT COUNT(*) AS count FROM " ++ table_name ++ ";")
    end
  (* Sum revenue *)
  else if contains "revenue" q || contains "total sales" q || contains "sum" q then
    if contains "by item" q || contains "per item" q then
      Ok ("SELECT item, SUM(quantity*price) AS revenue FROM " ++ table_name
          ++ " GROUP BY item ORDER BY revenue DESC LIMIT 10;")
    else if contains "by date" q || contains "per day" q || contains "daily" q then
      Ok ("SELECT date, SUM(quantity*price) AS revenue FROM " ++ table_name
          ++ " GROUP BY date ORDER BY date;")
    else Ok ("SELECT SUM(quantity*price) AS revenue FROM " ++ table_name ++ ";")
  else
    (* Top-k items *)
    let mtop := search re_top q in
    match (match mtop with
           | Some m => if contains "item" q || contains "product" q
                       then Some m else None
           | None => None
           end) with
    | Some m =>
        match group1 m with
        | Some g =>
            rbind (int_of_str g) (fun k =>
            rbind (str_of_int k) (fun ks =>
            Ok ("SELECT item, SUM(quantity*price) AS revenue FROM " ++ table_name
                ++ " GROUP BY item ORDER BY revenue DESC LIMIT " ++ ks ++ ";")))
        | None => Raise (TypeError "int() argument must be a string, a bytes-like object or a real number, not 'NoneType'")
        end
    | None =>
        (* Filter by customer or item if present *)
        match search re_customer q with
        | Some m =>
            rbind (filter_value m) (fun val =>
            Ok ("SELECT * FROM " ++ table_name ++ " WHERE customer = "
                ++ dq ++ val ++ dq ++ " LIMIT 50;"))
        | None =>
            match search re_item q with
            | Some m =>
                rbind (filter_value m) (fun val =>
                Ok ("SELECT * FROM " ++ table_name ++ " WHERE item = "
                    ++ dq ++ val ++ dq ++ " LIMIT 50;"))
            | None => Ok ("SELECT * FROM " ++ table_name ++ " LIMIT 20;")
            end
        end
    end.

(** ** The summarizer *)

Section Summarizer.

Variable F : Type.
(** [str] of a float and of a [bytes] object. *)
Variable str_float : F -> string.
Variable str_bytes : string -> string.

(** [str(v)] for a value read from the storage; its integers are 64-bit,
    far below the conversion limit. *)
Definition str_sql (v : sqlvalue F) : string :=
  match v with
  | SNull => "None"
  | SInt z => decimal z
  | SReal f => str_float f
  | SText s => s
  | SBlob b => str_bytes b
  end.

(** The dash of the literal [Top results], U+2014, in UTF-8. *)
Definition em_dash : string :=
  String "226"%char (String "128"%char (String "148"%char EmptyString)).

(** The loop that collects [parts] over [preview[:3]]. *)
Fixpoint top_parts (rs : list (dict (sqlvalue F))) : result (list string) :=
  match rs with
  | [] => Ok []
  | r :: rs' =>
      if dict_mem "item" r && dict_mem "revenue" r then
        rbind (dict_item r "item") (fun i =>
        rbind (dict_item r "revenue") (fun v =>
        rbind (top_parts rs') (fun ps =>
        Ok ((str_sql i ++ ": " ++ str_sql v) :: ps))))
      else top_parts rs'
  end.

Definition generic_summary (n : nat) : string :=
  "Returned " ++ decimal (Z.of_nat n) ++ " rows. Showing first "
  ++ decimal (Z.of_nat (Nat.min 5 n)) ++ " above.".

Definition no_rows_message : string :=
  "I ran your query but found no matching rows.".

(** [offline_answer(user_query, sql, columns, rows)] *)
Definition offline_answer (user_query sql : string) (columns : list string)
  (rows : list (dict (sqlvalue F))) : result string :=
  let n := List.length rows in
  if (n =? 0)%nat then Ok no_rows_message
  else
    let preview := firstn 5 rows in
    if existsb (fun c => contains "revenue" (lower c)) columns && (n <=? 10)%nat
    then
      rbind (top_parts (firstn 3 preview)) (fun parts =>
      match parts with
      | [] => Ok (generic_summary n)
      | _ => Ok ("Top results " ++ em_dash ++ " " ++ join "; " parts)
      end)
    else Ok (generic_summary n).

End Summarizer.

(** ** The ranking of the snippets *)

(** [[a-zA-Z0-9]+] *)
Definition alnum_char (c : ascii) : bool :=
  is_lower_az c || is_upper_az c || is_digit c.

Definition re_token : regex := Plus alnum_char.

(** [set(re.findall(r, a.lower()))] with the pattern above *)
Definition tokens (a : string) : list string :=
  set_of (findall re_token (lower a)).

(** [s.get(k, default)] on a [dict] of texts *)
Definition dict_get_or (s : dict string) (k default : string) : string :=
  match dict_get s k with
  | Some v => v
  | None => default
  end.

Section Ranking.

(** The floats of the similarities are kept abstract: their type, the
    float [0.0], the quotient [n / m] of two lengths and the test
    [x > y]. *)
Variable float : Type.
Variable zero : float.
Variable truediv : nat -> nat -> float.
Variable gt : float -> float -> bool.

(** [naive_similarity(a, b)] *)
Definition naive_similarity (a b : string) : float :=
  let a_t := tokens a in
  let b_t := tokens b in
  if is_empty a_t || is_empty b_t then zero
  else truediv (List.length (set_inter a_t b_t)) (List.length (set_union a_t b_t)).

(** [max(l, key=key)] after its first item: the scan keeps an item until a
    later one has a key that is greater. *)
Fixpoint max_scan {A : Type} (key : A -> float) (best : A) (best_key : float)
  (l : list A) : A :=
  match l with
  | [] => best
  | x :: l' =>
      if gt (key x) best_key then max_scan key x (key x) l'
      else max_scan key best best_key l'
  end.

(** [pick_most_related(user_query, snippets)] *)
Definition pick_most_related (user_query : string)
  (snippets : list (dict string)) : string :=
  match snippets with
  | [] => ""
  | s0 :: others =>
      let key := fun s => naive_similarity user_query (dict_get_or s "sql" "") in
      let best := max_scan key s0 (key s0) others in
      dict_get_or best "sql" ""
  end.

End Ranking.

(** ** The model behind the translator and the summarizer *)

Definition is_backtick (c : ascii) : bool := Ascii.eqb c "`"%char.

(** The lines of [synthesize_sql] after the call of the chain: the answer
    without its code fences, cut after its first statement. *)
Definition sanitize (sql : string) : result string :=
  let sql := strip_chars is_backtick (strip sql) in
  rbind (if contains "```" sql then
           rbind (split "```" sql) (fun parts =>
           if (2 <=? List.length parts)%nat
           then Ok (nth (List.length parts - 2) parts "")
           else Ok sql)
         else Ok sql) (fun sql =>
  (* Ensure it's a single statement *)
  rbind (split ";" sql) (fun parts =>
  Ok (strip (hd "" parts) ++ ";"))).

Section Online.

Variable F : Type.
Variable str_float : F -> string.
Variable str_bytes : string -> string.

(** [cfg["ai"]], with the keys the callers fill in. *)
Record ai_cfg : Type := AiCfg {
  provider : string;
  model : string;
  temperature : F;
  offline_demo_mode : bool;
  system_prompt : string;
  sql_synth_prompt : string
}.

(** A chat model of [langchain_openai], and what the process offers to
    build one: the class [ChatOpenAI] when the import succeeds, with its
    constructor giving nothing when it raises, and the environment
    variables. *)
Variable llm : Type.

Record process : Type := Process {
  ChatOpenAI : option (string -> F -> option llm);
  getenv : string -> option string
}.

(** A value handed to a prompt. *)
Inductive prompt_value : Type :=
| VText (s : string)
| VColumns (l : list string)
| VRows (l : list (dict (sqlvalue F))).

(** [(prompt | llm | StrOutputParser()).invoke(values)] for the prompt made
    of the given messages: the answer of the model, or what the chain
    raises. *)
Variable invoke :
  llm -> list (string * string) -> list (string * prompt_value) -> result string.

(** [_maybe_llm(model, temperature)] *)
Definition _maybe_llm (env : process) (model : string) (temperature : F)
  : option llm :=
  match ChatOpenAI env with
  | Some new_llm =>
      let key := match getenv env "OPENAI_API_KEY" with
                 | Some k => k
                 | None => ""
                 end in
      if key =? "" then None
      else new_llm model temperature
  | None => None
  end.

Definition sql_human_template : string :=
  "User question:" ++ nl ++ "{user_query}" ++ nl ++ nl
  ++ "DB schema:" ++ nl ++ "{schema}" ++ nl ++ nl
  ++ "Additional details:" ++ nl ++ "{details}" ++ nl ++ nl
  ++ "Most-related SQL (as a hint):" ++ nl ++ "{candidate_sql}" ++ nl ++ nl
  ++ "Return ONLY a valid SQLite SQL query using the table named {table_name}.".

(** [synthesize_sql(cfg, user_query, schema, details, candidate_sql,
    table_name)] *)
Definition synthesize_sql (env : process) (cfg : ai_cfg)
  (user_query schema details candidate_sql table_name : string)
  : result string :=
  if offline_demo_mode cfg then offline_sql user_query table_name
  else
    match _maybe_llm env (model cfg) (temperature cfg) with
    | None =>
        (* fallback silently *)
        offline_sql user_query table_name
    | Some l =>
        rbind (invoke l
                 [("system", sql_synth_prompt cfg); ("human", sql_human_template)]
                 [("user_query", VText user_query);
                  ("schema", VText schema);
                  ("details", VText details);
                  ("candidate_sql",
                   VText (if candidate_sql =? "" then "(none)" else candidate_sql));
                  ("table_name", VText table_name)])
              sanitize
    end.

Definition answer_human_template : string :=
  "User question: {user_query}" ++ nl ++ nl
  ++ "SQL used: {sql}" ++ nl ++ nl
  ++ "Columns: {columns}" ++ nl ++ nl
  ++ "Rows (JSON-like):" ++ nl ++ "{rows}" ++ nl ++ nl
  ++ "Answer succinctly and include a 1-line takeaway.".

(** [answer_with_data(cfg, user_query, sql, columns, rows)] *)
Definition answer_with_data (env : process) (cfg : ai_cfg)
  (user_query sql : string) (columns : list string)
  (rows : list (dict (sqlvalue F))) : result string :=
  if offline_demo_mode cfg
  then offline_answer str_float str_bytes user_query sql columns rows
  else
    match _maybe_llm env (model cfg) (temperature cfg) with
    | None => offline_answer str_float str_bytes user_query sql columns rows
    | Some l =>
        (* Limit rows rendered into prompt to avoid context blow-up *)
        let head := firstn 50 rows in
        invoke l
          [("system", system_prompt cfg); ("human", answer_human_template)]
          [("user_query", VText user_query);
           ("sql", VText sql);
           ("columns", VColumns columns);
           ("rows", VRows head)]
    end.

End Online.

End AiAgent.

(* ===================================================================== *)
(** * The storage: a model of the [sqlite3] connection

    The model answers on the statement texts below, which are the texts
    [SimpleSQLite] builds and the unfiltered count of the translator, for
    names it can vouch for; every other text is [Unmodelled].

    - [DROP TABLE IF EXISTS <quoted>]
    - [CREATE TABLE <quoted> (<quoted> <type>, ...)]
    - [INSERT INTO <quoted> (<quoted>, ...) VALUES (?, ...)]
    - [PRAGMA table_info(<quoted>)]
    - [SELECT * FROM <quoted> LIMIT <integer>]
    - the count of all rows [... AS count FROM <bare>;]

    The state is what the single connection of the engine sees; the
    implicit transaction opened by the first INSERT and closed by
    [commit] does not change what that connection reads. *)

Module Sqlite.
Import PyStr.

(** ** Statement texts *)

Fixpoint strip_prefix (p s : string) : option string :=
  match p with
  | EmptyString => Some s
  | String a p' =>
      match s with
      | EmptyString => None
      | String b s' => if Ascii.eqb a b then strip_prefix p' s' else None
      end
  end.

(** The text up to the next double quote, and the text after that quote. *)
Fixpoint until_dquote (s : string) : option (string * string) :=
  match s with
  | EmptyString => None
  | String c s' =>
      if Ascii.eqb c dquote_char then Some (EmptyString, s')
      else
        match until_dquote s' with
        | Some (n, r) => Some (String c n, r)
        | None => None
        end
  end.

Definition not_nul (c : ascii) : bool := negb (code c =? 0)%nat.

(** A quoted identifier.  The model reads a name that is not empty and
    holds no NUL; a doubled quote, SQLite's escape for a quote inside the
    name, is left out. *)
Definition read_quoted (s : string) : option (string * string) :=
  match s with
  | String c s' =>
      if Ascii.eqb c dquote_char then
        match until_dquote s' with
        | Some (n, r) =>
            if (n =? "") || negb (forall_chars not_nul n) || startswith dq r
            then None else Some (n, r)
        | None => None
        end
      else None
  | EmptyString => None
  end.

(** The declared types the engine writes. *)
Definition read_type (s : string) : option (string * string) :=
  match strip_prefix "INTEGER" s with
  | Some r => Some ("INTEGER", r)
  | None =>
      match strip_prefix "REAL" s with
      | Some r => Some ("REAL", r)
      | None =>
          match strip_prefix "TEXT" s with
          | Some r => Some ("TEXT", r)
          | None => None
          end
      end
  end.

(** Column definitions up to the closing parenthesis, which ends the text. *)
Fixpoint parse_coldefs (fuel : nat) (s : string)
  : option (list (string * string)) :=
  match fuel with
  | O => None
  | S fuel' =>
      match read_quoted s with
      | Some (c, r) =>
          match strip_prefix " " r with
          | Some r1 =>
              match read_type r1 with
              | Some (t, r2) =>
                  match strip_prefix ", " r2 with
                  | Some r3 =>
                      match parse_coldefs fuel' r3 with
                      | Some l => Some ((c, t) :: l)
                      | None => None
                      end
                  | None => if r2 =? ")" then Some [(c, t)] else None
                  end
              | None => None
              end
          | None => None
          end
      | None => None
      end
  end.

(** Quoted names up to a closing parenthesis, and the text after it. *)
Fixpoint parse_names (fuel : nat) (s : string)
  : option (list string * string) :=
  match fuel with
  | O => None
  | S fuel' =>
      match read_quoted s with
      | Some (c, r) =>
          match strip_prefix ", " r with
          | Some r1 =>
              match parse_names fuel' r1 with
              | Some (l, r2) => Some (c :: l, r2)
              | None => None
              end
          | None =>
              match strip_prefix ")" r with
              | Some r2 => Some ([c], r2)
              | None => None
              end
          end
      | None => None
      end
  end.

(** Question marks up to the closing parenthesis, which ends the text. *)
Fixpoint parse_marks (fuel : nat) (s : string) : option nat :=
  match fuel with
  | O => None
  | S fuel' =>
      match strip_prefix "?" s with
      | Some r =>
          match strip_prefix ", " r with
          | Some r1 =>
              match parse_marks fuel' r1 with
              | Some k => Some (S k)
              | None => None
              end
          | None => if r =? ")" then Some 1 else None
          end
      | None => None
      end
  end.

(** A decimal integer, with an optional minus sign. *)
Definition parse_int (s : string) : option Z :=
  option_map Z.of_int (NilZero.int_of_string s).

Definition ident_char (c : ascii) : bool :=
  is_upper_az c || is_lower_az c || is_digit c || Ascii.eqb c "_"%char.

Definition ident_start (c : ascii) : bool :=
  is_upper_az c || is_lower_az c || Ascii.eqb c "_"%char.

(** SQLite's keywords; the model reads no keyword as a bare name. *)
Definition keywords : list string :=
  [ "abort"; "action"; "add"; "after"; "all"; "alter"; "always"; "analyze";
    "and"; "as"; "asc"; "attach"; "autoincrement"; "before"; "begin";
    "between"; "by"; "cascade"; "case"; "cast"; "check"; "collate"; "column";
    "commit"; "conflict"; "constraint"; "create"; "cross"; "current";
    "current_date"; "current_time"; "current_timestamp"; "database";
    "default"; "deferrable"; "deferred"; "delete"; "desc"; "detach";
    "distinct"; "do"; "drop"; "each"; "else"; "end"; "escape"; "except";
    "exclude"; "exclusive"; "exists"; "explain"; "fail"; "filter"; "first";
    "following"; "for"; "foreign"; "from"; "full"; "generated"; "glob";
    "group"; "groups"; "having"; "if"; "ignore"; "immediate"; "in"; "index";
    "indexed"; "initially"; "inner"; "insert"; "instead"; "intersect";
    "into"; "is"; "isnull"; "join"; "key"; "last"; "left"; "like"; "limit";
    "match"; "materialized"; "natural"; "no"; "not"; "nothing"; "notnull";
    "null"; "nulls"; "of"; "offset"; "on"; "or"; "order"; "others"; "outer";
    "over"; "partition"; "plan"; "pragma"; "preceding"; "primary"; "query";
    "raise"; "range"; "recursive"; "references"; "regexp"; "reindex";
    "release"; "rename"; "replace"; "restrict"; "returning"; "right";
    "rollback"; "row"; "rows"; "savepoint"; "select"; "set"; "table"; "temp";
    "temporary"; "then"; "ties"; "to"; "transaction"; "trigger"; "unbounded";
    "union"; "unique"; "update"; "using"; "vacuum"; "values"; "view";
    "virtual"; "when"; "where"; "window"; "with"; "within"; "without" ].

Definition mem_string (x : string) (l : list string) : bool :=
  existsb (String.eqb x) l.

(** A bare table name followed by the semicolon that ends the text. *)
Definition read_bare (s : string) : option string :=
  match s with
  | String c _ =>
      if ident_start c then
        let n := substring 0 (length s - 1) s in
        if forall_chars ident_char n
           && (substring (length s - 1) 1 s =? ";")
           && negb (mem_string (ascii_lower n) keywords)
        then Some n else None
      else None
  | EmptyString => None
  end.

Inductive stmt : Type :=
| DropTableIfExists (name : string)
| CreateTable (name : string) (cols : list (string * string))
| InsertValues (name : string) (cols : list string) (marks : nat)
| PragmaTableInfo (name : string)
| SelectStarLimit (name : string) (limit : Z)
| SelectCount (name : string).

Definition parse_drop (s : string) : option stmt :=
  match strip_prefix "DROP TABLE IF EXISTS " s with
  | Some r =>
      match read_quoted r with
      | Some (n, EmptyString) => Some (DropTableIfExists n)
      | _ => None
      end
  | None => None
  end.

Definition parse_create (s : string) : option stmt :=
  match strip_prefix "CREATE TABLE " s with
  | Some r =>
      match read_quoted r with
      | Some (n, r1) =>
          match strip_prefix " (" r1 with
          | Some r2 =>
              if r2 =? ")" then Some (CreateTable n [])
              else
                match parse_coldefs (length r2) r2 with
                | Some cols => Some (CreateTable n cols)
                | None => None
                end
          | None => None
          end
      | None => None
      end
  | None => None
  end.

Definition parse_insert (s : string) : option stmt :=
  match strip_prefix "INSERT INTO " s with
  | Some r =>
      match read_quoted r with
      | Some (n, r1) =>
          match strip_prefix " (" r1 with
          | Some r2 =>
              match parse_names (length r2) r2 with
              | Some (cols, r3) =>
                  match strip_prefix " VALUES (" r3 with
                  | Some r4 =>
                      match parse_marks (length r4) r4 with
                      | Some k => Some (InsertValues n cols k)
                      | None => None
                      end
                  | None => None
                  end
              | None => None
              end
          | None => None
          end
      | None => None
      end
  | None => None
  end.

Definition parse_pragma (s : string) : option stmt :=
  match strip_prefix "PRAGMA table_info(" s with
  | Some r =>
      match read_quoted r with
      | Some (n, r1) => if r1 =? ")" then Some (PragmaTableInfo n) else None
      | None => None
      end
  | None => None
  end.

Definition parse_select_star (s : string) : option stmt :=
  match strip_prefix "SELECT * FROM " s with
  | Some r =>
      match read_quoted r with
      | Some (n, r1) =>
          match strip_prefix " LIMIT " r1 with
          | Some r2 =>
              match parse_int r2 with
              | Some z => Some (SelectStarLimit n z)
              | None => None
              end
          | None => None
          end
      | None => None
      end
  | None => None
  end.

Definition parse_count (s : string) : option stmt :=
  match strip_prefix "SELECT COUNT(*) AS count FROM " s with
  | Some r =>
      match read_bare r with
      | Some n => Some (SelectCount n)
      | None => None
      end
  | None => None
  end.

Definition or_else {A : Type} (a b : option A) : option A :=
  match a with
  | Some _ => a
  | None => b
  end.

Definition parse (s : string) : option stmt :=
  or_else (parse_drop s)
  (or_else (parse_create s)
  (or_else (parse_insert s)
  (or_else (parse_pragma s)
  (or_else (parse_select_star s) (parse_count s))))).

Definition stmt_table (st : stmt) : string :=
  match st with
  | DropTableIfExists n | CreateTable n _ | InsertValues n _ _
  | PragmaTableInfo n | SelectStarLimit n _ | SelectCount n => n
  end.

(** Names that denote, or may denote, objects SQLite provides itself: the
    schema tables and the table-valued functions of a default build. *)
Definition builtin_names : list string :=
  [ "json_each"; "json_tree"; "dbstat"; "bytecode"; "tables_used";
    "generate_series"; "carray"; "completion"; "fsdir"; "zipfile";
    "fts3tokenize"; "fts5vocab"; "rtree_i32" ].

Definition reserved_name (n : string) : bool :=
  let l := ascii_lower n in
  startswith "sqlite_" l || startswith "pragma_" l || mem_string l builtin_names.

(** ** The database *)

Section Storage.

Variable F : Type.

(** The value SQLite keeps when a bound Python value is written to a column
    of the given declared type: the binding followed by the conversion of
    the column's affinity. *)
Variable stored_as : string -> pyvalue F -> sqlvalue F.

Record table : Type := Table {
  tname : string;
  tcols : list (string * string);     (* name, declared type *)
  trows : list (list (sqlvalue F))
}.

Definition db : Type := list table.

(** What a cursor holds after [execute]: [description] and [fetchall()]. *)
Record cursor : Type := Cursor {
  description : list string;
  fetched : list (list (sqlvalue F))
}.

Definition no_rows : cursor := Cursor [] [].

(** Names of tables and columns compare without regard to ASCII case. *)
Definition name_eqb (a b : string) : bool := ascii_lower a =? ascii_lower b.

Definition find_table (n : string) (d : db) : option table :=
  find (fun t => name_eqb n (tname t)) d.

Definition drop_table (n : string) (d : db) : db :=
  filter (fun t => negb (name_eqb n (tname t))) d.

Definition update_table (n : string) (f : table -> table) (d : db) : db :=
  map (fun t => if name_eqb n (tname t) then f t else t) d.

Definition add_row (r : list (sqlvalue F)) (t : table) : table :=
  Table (tname t) (tcols t) (trows t ++ [r]).

(** The first name of [l] that repeats, up to ASCII case, an earlier name
    or one of [seen]. *)
Fixpoint first_dup (seen l : list string) : option string :=
  match l with
  | [] => None
  | x :: l' =>
      if mem_string (ascii_lower x) seen then Some x
      else first_dup (ascii_lower x :: seen) l'
  end.

Fixpoint list_eqb (a b : list string) : bool :=
  match a, b with
  | [], [] => true
  | x :: a', y :: b' => (x =? y) && list_eqb a' b'
  | _, _ => false
  end.

Definition in_int64 (z : Z) : bool :=
  (- 2 ^ 63 <=? z)%Z && (z <? 2 ^ 63)%Z.

(** A Python value the connection can bind: an [int] must fit 64 bits. *)
Definition bindable (v : pyvalue F) : bool :=
  match v with
  | PInt z => in_int64 z
  | _ => true
  end.

Fixpoint store_row (decls : list string) (vs : list (pyvalue F))
  : list (sqlvalue F) :=
  match decls, vs with
  | d :: decls', v :: vs' => stored_as d v :: store_row decls' vs'
  | _, _ => []
  end.

Fixpoint table_info_rows (cid : nat) (cols : list (string * string))
  : list (list (sqlvalue F)) :=
  match cols with
  | [] => []
  | (c, t) :: cols' =>
      [SInt (Z.of_nat cid); SText c; SText t; SInt 0; SNull; SInt 0]
      :: table_info_rows (S cid) cols'
  end.

Definition syntax_error (near : string) : exn :=
  OperationalError ("near " ++ dq ++ near ++ dq ++ ": syntax error").

Definition no_such_table (n : string) : exn :=
  OperationalError ("no such table: " ++ n).

(** The largest number of columns the model answers for; SQLite's own
    limits on columns and on bound parameters depend on the build and are
    not below it. *)
Definition max_columns : nat := 999.

Definition exec_stmt (st : stmt) (params : list (pyvalue F)) (d : db)
  : result cursor * db :=
  match st with
  | DropTableIfExists n => (Ok no_rows, drop_table n d)
  | CreateTable n cols =>
      match cols with
      | [] => (Raise (syntax_error ")"), d)
      | _ :: _ =>
          if (max_columns <? List.length cols)%nat then (Unmodelled, d)
          else
            match find_table n d with
            | Some _ =>
                (Raise (OperationalError
                          ("table " ++ dq ++ n ++ dq ++ " already exists")), d)
            | None =>
                match first_dup [] (map fst cols) with
                | Some c =>
                    (Raise (OperationalError ("duplicate column name: " ++ c)), d)
                | None => (Ok no_rows, (d ++ [Table n cols []])%list)
                end
            end
      end
  | InsertValues n cols k =>
      match find_table n d with
      | None => (Raise (no_such_table n), d)
      | Some t =>
          if list_eqb (map ascii_lower cols)
                      (map (fun ct => ascii_lower (fst ct)) (tcols t))
             && (k =? List.length cols)%nat
             && (List.length params =? k)%nat
          then
            if forallb bindable params then
              (Ok no_rows,
               update_table n (add_row (store_row (map snd (tcols t)) params)) d)
            else
              (Raise (OverflowError
                        "Python int too large to convert to SQLite INTEGER"), d)
          else (Unmodelled, d)
      end
  | PragmaTableInfo n =>
      match find_table n d with
      | None =>
          (Ok (Cursor ["cid"; "name"; "type"; "notnull"; "dflt_value"; "pk"] []), d)
      | Some t =>
          (Ok (Cursor ["cid"; "name"; "type"; "notnull"; "dflt_value"; "pk"]
                      (table_info_rows 0 (tcols t))), d)
      end
  | SelectStarLimit n lim =>
      match find_table n d with
      | None => (Raise (no_such_table n), d)
      | Some t =>
          if in_int64 lim then
            (Ok (Cursor (map fst (tcols t))
                        (if (lim <? 0)%Z then trows t
                         else firstn (Z.to_nat lim) (trows t))), d)
          else (Unmodelled, d)
      end
  | SelectCount n =>
      match find_table n d with
      | None => (Raise (no_such_table n), d)
      | Some t =>
          (Ok (Cursor ["count"] [[SInt (Z.of_nat (List.length (trows t)))]]), d)
      end
  end.

(** [conn.execute(sql, params)] on the tables [d]. *)
Definition exec (sql : string) (params : list (pyvalue F)) (d : db)
  : result cursor * db :=
  match parse sql with
  | None => (Unmodelled, d)
  | Some st =>
      if reserved_name (stmt_table st) then (Unmodelled, d)
      else
        match st, params with
        | InsertValues _ _ _, _ | _, [] => exec_stmt st params d
        | _, _ :: _ => (Unmodelled, d)
        end
  end.

End Storage.

End Sqlite.

(* ===================================================================== *)
(** * modules/sql_engine.py: [SimpleSQLite] *)

Module SqlEngine.
Import PyStr Re Sqlite.

Notation "r1 >> r2" := (Seq r1 r2) (at level 61, right associativity).

Definition is_sign (c : ascii) : bool := Ascii.eqb c "+"%char || Ascii.eqb c "-"%char.
Definition is_e (c : ascii) : bool := Ascii.eqb c "e"%char || Ascii.eqb c "E"%char.

(** [[+-]?\d+] *)
Definition re_int : regex := Opt (Class is_sign) >> Plus is_digit.

(** The float pattern, written with blanks between its parts:
    [[+-]? ( \d* \. \d+ | \d+ \. \d* ) ( [eE] [+-]? \d+ )?] *)
Definition re_real : regex :=
  Opt (Class is_sign) >>
  Alt (Star is_digit >> Lit "." >> Plus is_digit)
      (Plus is_digit >> Lit "." >> Star is_digit) >>
  Opt (Class is_e >> Opt (Class is_sign) >> Plus is_digit).

(** [\d{4}-\d{2}-\d{2}] *)
Definition re_iso_date : regex :=
  Class is_digit >> Class is_digit >> Class is_digit >> Class is_digit >>
  Lit "-" >> Class is_digit >> Class is_digit >>
  Lit "-" >> Class is_digit >> Class is_digit.

Section Engine.

Variable F : Type.
Variable str_float : F -> string.
Variable str_bytes : string -> string.
Variable stored_as : string -> pyvalue F -> sqlvalue F.
(** [str] of the [dict] built from a sample row. *)
Variable str_dict : dict (sqlvalue F) -> string.

(** An input record. *)
Definition record : Type := dict (pyvalue F).

(** The connection: the tables it holds and, in order, the statement texts
    that were handed to it. *)
Record connection : Type := Connection {
  tables : db F;
  calls : list string
}.

Record SimpleSQLite : Type := Engine {
  table_name : string;
  conn : connection
}.

(** [SimpleSQLite(table_name)]: a fresh in-memory database. *)
Definition new_engine (name : string) : SimpleSQLite :=
  Engine name (Connection [] []).

(** Code that uses the connection and may raise. *)
Definition M (A : Type) : Type := connection -> result A * connection.

Definition ret {A : Type} (a : A) : M A := fun c => (Ok a, c).

Definition raise {A : Type} (e : exn) : M A := fun c => (Raise e, c).

Definition bind {A B : Type} (m : M A) (f : A -> M B) : M B :=
  fun c =>
    match m c with
    | (Ok a, c') => f a c'
    | (Raise e, c') => (Raise e, c')
    | (Unmodelled, c') => (Unmodelled, c')
    end.

Definition lift {A : Type} (r : result A) : M A := fun c => (r, c).

Notation "x <- m ;; k" := (bind m (fun x => k))
  (at level 62, m at next level, right associativity).
Notation "m ;;; k" := (bind m (fun _ => k))
  (at level 62, right associativity).

(** [self.conn.execute(sql, params)] *)
Definition execute (sql : string) (params : list (pyvalue F))
  : M (cursor F) :=
  fun c =>
    let (r, d) := exec stored_as sql params (tables c) in
    (r, Connection d (calls c ++ [sql])).

(** [self.conn.commit()] *)
Definition commit : M unit := ret tt.

Fixpoint for_each {A : Type} (l : list A) (body : A -> M unit) : M unit :=
  match l with
  | [] => ret tt
  | x :: l' => body x ;;; for_each l' body
  end.

(** Runs code on the connection of [self]. *)
Definition on_conn {A : Type} (self : SimpleSQLite) (m : M A)
  : result A * SimpleSQLite :=
  let (r, c) := m (conn self) in (r, Engine (table_name self) c).

(** [str(s)] for a cell. *)
Definition str_cell (v : pyvalue F) : result string :=
  match v with
  | PNone => Ok "None"
  | PStr s => Ok s
  | PInt z => str_of_int z
  | PFloat f => Ok (str_float f)
  end.

(** [_infer_type(self, s)] *)
Definition _infer_type (s : pyvalue F) : result string :=
  match s with
  | PNone => Ok "TEXT"
  | _ =>
      rbind (str_cell s) (fun s =>
      (* int? *)
      if fullmatch re_int s then Ok "INTEGER"
      (* float? *)
      else if fullmatch re_real s then Ok "REAL"
      (* iso date? *)
      else if fullmatch re_iso_date s then Ok "TEXT"
      else Ok "TEXT")
  end.

(** [r.get(c)] *)
Definition cell (r : record) (c : string) : pyvalue F :=
  match dict_get r c with
  | Some v => v
  | None => PNone
  end.

(** [v in (None, "")] *)
Definition is_blank (v : pyvalue F) : bool :=
  match v with
  | PNone => true
  | PStr s => s =? ""
  | _ => false
  end.

(** [next((r.get(c) for r in rows if r.get(c) not in (None, "")), None)] *)
Fixpoint first_sample (c : string) (rows : list record) : pyvalue F :=
  match rows with
  | [] => PNone
  | r :: rows' => if is_blank (cell r c) then first_sample c rows' else cell r c
  end.

(** The loop that fills [types]. *)
Fixpoint infer_types (cols : list string) (rows : list record)
  : result (list string) :=
  match cols with
  | [] => Ok []
  | c :: cols' =>
      let v := first_sample c rows in
      rbind (match v with PNone => Ok "TEXT" | _ => _infer_type v end) (fun t =>
      rbind (infer_types cols' rows) (fun ts => Ok (t :: ts)))
  end.

Definition col_def (ct : string * string) : string :=
  dq ++ fst ct ++ dq ++ " " ++ snd ct.

Definition quoted (c : string) : string := dq ++ c ++ dq.

Definition drop_sql (name : string) : string :=
  "DROP TABLE IF EXISTS " ++ dq ++ name ++ dq.

Definition create_sql (name col_defs : string) : string :=
  "CREATE TABLE " ++ dq ++ name ++ dq ++ " (" ++ col_defs ++ ")".

Definition insert_sql (name : string) (cols : list string) : string :=
  "INSERT INTO " ++ dq ++ name ++ dq ++ " (" ++ join ", " (map quoted cols)
  ++ ") VALUES (" ++ join ", " (map (fun _ => "?") cols) ++ ")".

(** The part of [load_rows] under the lock. *)
Definition load_body (name : string) (cols types : list string)
  (rows : list record) : M unit :=
  let col_defs := join ", " (map col_def (combine cols types)) in
  execute (drop_sql name) [] ;;;
  execute (create_sql name col_defs) [] ;;;
  for_each rows (fun r => execute (insert_sql name cols) (map (cell r) cols) ;;; ret tt) ;;;
  commit.

(** [load_rows(self, rows)] *)
Definition load_rows (self : SimpleSQLite) (rows : list record)
  : result unit * SimpleSQLite :=
  match rows with
  | [] => (Raise EmptyInputError, self)
  | r0 :: _ =>
      (* infer types from first non-empty row *)
      let cols := dict_keys r0 in
      match infer_types cols rows with
      | Ok types => on_conn self (load_body (table_name self) cols types rows)
      | Raise e => (Raise e, self)
      | Unmodelled => (Unmodelled, self)
      end
  end.

(** The test of [execute_safe_select] on the statement text. *)
Definition select_or_with (sql : string) : bool :=
  let s := lower (strip sql) in
  startswith "select" s || startswith "with" s.

(** [execute_safe_select(self, sql)] *)
Definition execute_safe_select (self : SimpleSQLite) (sql : string)
  : result (list string * list (dict (sqlvalue F))) * SimpleSQLite :=
  if negb (select_or_with sql) then (Raise UnsafeQueryError, self)
  else
    on_conn self (
      cur <- execute sql [] ;;
      let col_names := description cur in
      let data := map (fun row => combine (description cur) row) (fetched cur) in
      ret (col_names, data)).

(** [row[i]] for a fetched row. *)
Definition row_item (row : list (sqlvalue F)) (i : nat) : sqlvalue F :=
  nth i row SNull.

Definition is_comma (c : ascii) : bool := Ascii.eqb c ","%char.

(** [lines[-1] = lines[-1].rstrip(",")] *)
Fixpoint rstrip_last (lines : list string) : list string :=
  match lines with
  | [] => []
  | [l] => [rstrip_chars is_comma l]
  | l :: ls => l :: rstrip_last ls
  end.

Definition schema_lines (name : string) (cols : list (sqlvalue F * sqlvalue F))
  (keys : list string) (sample : list (list (sqlvalue F))) : list string :=
  let lines :=
    ("CREATE TABLE " ++ dq ++ name ++ dq ++ " (")
    :: map (fun nt => "  " ++ dq ++ AiAgent.str_sql str_float str_bytes (fst nt)
                      ++ dq ++ " " ++ AiAgent.str_sql str_float str_bytes (snd nt)
                      ++ ",") cols in
  let lines := (rstrip_last lines ++ [");"])%list in
  match sample with
  | [] => lines
  | _ :: _ =>
      (lines ++ [(nl ++ "-- Sample rows:")%string]
       ++ map (fun r => str_dict (combine keys r)) sample)%list
  end.

(** [schema_text(self, sample_rows)] *)
Definition schema_text (self : SimpleSQLite) (sample_rows : Z)
  : result string * SimpleSQLite :=
  on_conn self (
    info <- execute ("PRAGMA table_info(" ++ dq ++ table_name self ++ dq ++ ")") [] ;;
    let cols := map (fun row => (row_item row 1, row_item row 2)) (fetched info) in
    limit <- lift (str_of_int sample_rows) ;;
    sample <- execute ("SELECT * FROM " ++ dq ++ table_name self ++ dq
                       ++ " LIMIT " ++ limit) [] ;;
    ret (join nl (schema_lines (table_name self) cols
                               (description sample) (fetched sample)))).

End Engine.

End SqlEngine.

(* ===================================================================== *)
(** * What a pattern can match: the relation behind the matcher *)

Module ReSem.
Import PyStr Re.

(** The character before the position reached after reading [u]. *)
Fixpoint last_of (u : string) (pv : option ascii) : option ascii :=
  match u with
  | EmptyString => pv
  | String c u' => last_of u' (Some c)
  end.

(** The position reached from [st] by reading [u], with [v] left. *)
Definition after (u v : string) (st : mstate) : mstate :=
  MState (last_of u (prev st)) v (pos st + length u) (grp st).

(** [steps r st st']: the pattern [r] can take the matcher from [st] to
    [st']. *)
Inductive steps : regex -> mstate -> mstate -> Prop :=
| S_Lit l st v :
    rest st = l ++ v -> steps (Lit l) st (after l v st)
| S_Class (p : ascii -> bool) st c v :
    rest st = String c v -> p c = true ->
    steps (Class p) st (after (String c EmptyString) v st)
| S_Star (p : ascii -> bool) st u v :
    rest st = u ++ v -> forall_chars p u = true ->
    steps (Star p) st (after u v st)
| S_Plus (p : ascii -> bool) st u v :
    rest st = u ++ v -> forall_chars p u = true -> u <> EmptyString ->
    steps (Plus p) st (after u v st)
| S_OptSome r st st' : steps r st st' -> steps (Opt r) st st'
| S_OptNone r st : steps (Opt r) st st
| S_AltL r1 r2 st st' : steps r1 st st' -> steps (Alt r1 r2) st st'
| S_AltR r1 r2 st st' : steps r2 st st' -> steps (Alt r1 r2) st st'
| S_Seq r1 r2 st st1 st2 :
    steps r1 st st1 -> steps r2 st1 st2 -> steps (Seq r1 r2) st st2
| S_WordB st : at_boundary st = true -> steps WordB st st
| S_Group r st st' :
    steps r st st' ->
    steps (Group r) st
          (set_grp (substring 0 (pos st' - pos st) (rest st)) st').

(** Patterns without [\b] and without a capturing group: what they match
    does not depend on the surrounding text. *)
Fixpoint plain (r : regex) : bool :=
  match r with
  | Lit _ | Class _ | Star _ | Plus _ => true
  | Opt r1 => plain r1
  | Alt r1 r2 | Seq r1 r2 => plain r1 && plain r2
  | WordB | Group _ => false
  end.

(** The set of texts a plain pattern stands for. *)
Fixpoint denotes (r : regex) (u : string) : Prop :=
  match r with
  | Lit l => u = l
  | Class p => exists c, u = String c EmptyString /\ p c = true
  | Star p => forall_chars p u = true
  | Plus p => forall_chars p u = true /\ u <> EmptyString
  | Opt r1 => u = EmptyString \/ denotes r1 u
  | Alt r1 r2 => denotes r1 u \/ denotes r2 u
  | Seq r1 r2 => exists u1 u2, u = u1 ++ u2 /\ denotes r1 u1 /\ denotes r2 u2
  | WordB => u = EmptyString
  | Group r1 => denotes r1 u
  end.

End ReSem.

(* ===================================================================== *)
(** * The statements of the specification *)

Module Spec.
Import PyStr Re AiAgent.

(** ** The type inferencer (4.1): the two patterns, read as sets of texts *)

Definition digits (s : string) : Prop := forall_chars is_digit s = true.

Definition opt_sign (s : string) : Prop := s = "" \/ s = "+" \/ s = "-".

(** A text of the form sign, digits: an optional sign, then one digit or
    more, nothing else. *)
Definition matches_int (s : string) : Prop :=
  exists sg ds, s = sg ++ ds /\ opt_sign sg /\ digits ds /\ ds <> "".

(** digits, point, digits with a digit on one side at least *)
Definition mantissa (m : string) : Prop :=
  exists a b, m = a ++ "." ++ b /\ digits a /\ digits b /\
              (b <> "" \/ a <> "").

(** nothing, or e or E, an optional sign and one digit or more *)
Definition exponent (e : string) : Prop :=
  e = "" \/
  exists c sg ds, e = String c (sg ++ ds) /\ (c = "e"%char \/ c = "E"%char) /\
                  opt_sign sg /\ digits ds /\ ds <> "".

Definition matches_real (s : string) : Prop :=
  exists sg m e, s = sg ++ m ++ e /\ opt_sign sg /\ mantissa m /\ exponent e.

(** An ISO date: four digits, two digits, two digits, with dashes. *)
Definition iso_date (s : string) : Prop :=
  exists y m d, s = y ++ "-" ++ m ++ "-" ++ d /\
                digits y /\ digits m /\ digits d /\
                length y = 4 /\ length m = 2 /\ length d = 2.

(** ** The safe-select guard (4.3) *)

(** The first keyword of a statement: after the leading blanks, the longest
    run of letters, digits and underscores. *)
Fixpoint word_prefix (s : string) : string :=
  match s with
  | EmptyString => EmptyString
  | String c s' =>
      if Sqlite.ident_char c then String c (word_prefix s') else EmptyString
  end.

Definition first_keyword (sql : string) : string :=
  word_prefix (lstrip_chars is_space sql).

(** The claim's test: the first keyword is SELECT or WITH, in any case. *)
Definition first_keyword_select_or_with (sql : string) : bool :=
  (ascii_lower (first_keyword sql) =? "select")
  || (ascii_lower (first_keyword sql) =? "with").

(** The text, after its leading blanks, begins with the letters of [kw] in
    any case. *)
Definition begins_with (kw sql : string) : Prop :=
  exists ws w tail,
    sql = ws ++ w ++ tail /\ forall_chars is_space ws = true /\ lower w = kw.

(** ** The translator (4.4) *)

(** The characters of a filter value once the question is lower-cased. *)
Definition lower_value_char (c : ascii) : bool :=
  is_lower_az c || is_digit c
  || Ascii.eqb c "_"%char || Ascii.eqb c " "%char || Ascii.eqb c "-"%char.

(** The statements of 4.4 for a table name: the eight templates, with a
    filter value of lower-case value characters and a limit that is a
    natural number in decimal. *)
Inductive emitted (t : string) : string -> Prop :=
| E_count_item val :
    forall_chars lower_value_char val = true ->
    emitted t ("SELECT COUNT(*) AS count FROM " ++ t
               ++ " WHERE item = " ++ dq ++ val ++ dq ++ ";")
| E_count :
    emitted t ("SELECT COUNT(*) AS count FROM " ++ t ++ ";")
| E_revenue_by_item :
    emitted t ("SELECT item, SUM(quantity*price) AS revenue FROM " ++ t
               ++ " GROUP BY item ORDER BY revenue DESC LIMIT 10;")
| E_revenue_by_date :
    emitted t ("SELECT date, SUM(quantity*price) AS revenue FROM " ++ t
               ++ " GROUP BY date ORDER BY date;")
| E_revenue :
    emitted t ("SELECT SUM(quantity*price) AS revenue FROM " ++ t ++ ";")
| E_top k :
    (0 <= k)%Z ->
    emitted t ("SELECT item, SUM(quantity*price) AS revenue FROM " ++ t
               ++ " GROUP BY item ORDER BY revenue DESC LIMIT "
               ++ decimal k ++ ";")
| E_customer val :
    forall_chars lower_value_char val = true ->
    emitted t ("SELECT * FROM " ++ t ++ " WHERE customer = "
               ++ dq ++ val ++ dq ++ " LIMIT 50;")
| E_item val :
    forall_chars lower_value_char val = true ->
    emitted t ("SELECT * FROM " ++ t ++ " WHERE item = "
               ++ dq ++ val ++ dq ++ " LIMIT 50;")
| E_default :
    emitted t ("SELECT * FROM " ++ t ++ " LIMIT 20;").

(** One statement, closed by its only semicolon. *)
Definition single_statement (s : string) : bool :=
  endswith_char ";"%char s && (count_char ";"%char s =? 1)%nat.

(** The number of digits after [top] in a question, when the pattern of
    rule 3 finds some. *)
Definition top_digits (user_query : string) : nat :=
  match search re_top (lower user_query) with
  | Some m =>
      match group1 m with
      | Some g => length g
      | None => 0
      end
  | None => 0
  end.

(** No rule of 4.4 before the default applies to the question. *)
Definition no_rule_matches (user_query : string) : bool :=
  let q := lower user_query in
  negb (contains "how many" q || contains "count" q)
  && negb (contains "revenue" q || contains "total sales" q || contains "sum" q)
  && negb (match search re_top q with
           | Some _ => contains "item" q || contains "product" q
           | None => false
           end)
  && negb (match search re_customer q with Some _ => true | None => false end)
  && negb (match search re_item q with Some _ => true | None => false end).

(** A text of [n] copies of a character. *)
Fixpoint repeat_char (c : ascii) (n : nat) : string :=
  match n with
  | O => EmptyString
  | S n' => String c (repeat_char c n')
  end.

(** ** The loader (4.2): inputs the storage model answers for *)

(** A name that can stand between double quotes as it is. *)
Definition quotable (n : string) : bool :=
  negb (n =? "")
  && forall_chars (fun c => Sqlite.not_nul c && negb (Ascii.eqb c dquote_char)) n.

(** A table name that reads the same quoted and bare: letters, digits and
    underscores, not starting with a digit, no keyword and no name SQLite
    keeps for itself. *)
Definition good_table_name (n : string) : bool :=
  match n with
  | String c _ => Sqlite.ident_start c
  | EmptyString => false
  end
  && forall_chars Sqlite.ident_char n
  && negb (Sqlite.mem_string (ascii_lower n) Sqlite.keywords)
  && negb (Sqlite.reserved_name n).

(** Column names CREATE TABLE takes: at least one, at most
    [Sqlite.max_columns], each quotable, no two equal up to ASCII case. *)
Definition good_header (cols : list string) : bool :=
  (1 <=? List.length cols)%nat && (List.length cols <=? Sqlite.max_columns)%nat
  && forallb quotable cols
  && match Sqlite.first_dup [] cols with
     | None => true
     | Some _ => false
     end.

(** Every cell the loader binds can be bound. *)
Definition storable {F : Type} (cols : list string)
  (rows : list (SqlEngine.record F)) : bool :=
  forallb (fun r => forallb (fun c => Sqlite.bindable (SqlEngine.cell r c)) cols)
          rows.

Definition loadable {F : Type} (name : string)
  (rows : list (SqlEngine.record F)) : bool :=
  good_table_name name &&
  match rows with
  | r0 :: _ => good_header (dict_keys r0) && storable (dict_keys r0) rows
  | [] => false
  end.

(** The declared types the loader writes. *)
Definition type_word (t : string) : Prop :=
  t = "INTEGER" \/ t = "REAL" \/ t = "TEXT".

Definition good_coldef (ct : string * string) : Prop :=
  quotable (fst ct) = true /\ type_word (snd ct).

(** The row the storage keeps for a record. *)
Definition stored_row {F : Type} (stored_as : string -> pyvalue F -> sqlvalue F)
  (cols types : list string) (r : SqlEngine.record F) : list (sqlvalue F) :=
  Sqlite.store_row stored_as types (map (SqlEngine.cell r) cols).


(** ** The error policy (7): what a failed load leaves behind *)

(** The table of the engine's name is what it was before the load. *)
Definition prior_intact {F : Type} (before after : SqlEngine.SimpleSQLite F)
  : Prop :=
  Sqlite.find_table (SqlEngine.table_name before)
                    (SqlEngine.tables (SqlEngine.conn after))
  = Sqlite.find_table (SqlEngine.table_name before)
                      (SqlEngine.tables (SqlEngine.conn before)).

(** The table of the engine's name holds one row per record of the load. *)
Definition fully_replaced {F : Type} (after : SqlEngine.SimpleSQLite F)
  (rows : list (SqlEngine.record F)) : Prop :=
  exists t,
    Sqlite.find_table (SqlEngine.table_name after)
                      (SqlEngine.tables (SqlEngine.conn after)) = Some t
    /\ List.length (Sqlite.trows t) = List.length rows.

(** The engine has no table of its name. *)
Definition no_table {F : Type} (after : SqlEngine.SimpleSQLite F) : Prop :=
  Sqlite.find_table (SqlEngine.table_name after)
                    (SqlEngine.tables (SqlEngine.conn after)) = None.

(** The table of the engine's name holds fewer rows than the load had
    records. *)
Definition partly_filled {F : Type} (after : SqlEngine.SimpleSQLite F)
  (rows : list (SqlEngine.record F)) : Prop :=
  exists t,
    Sqlite.find_table (SqlEngine.table_name after)
                      (SqlEngine.tables (SqlEngine.conn after)) = Some t
    /\ List.length (Sqlite.trows t) < List.length rows.

(** The schema and the row count of the engine's table, when it has one. *)
Definition schema_of {F : Type} (self : SqlEngine.SimpleSQLite F)
  : option (list (string * string)) :=
  option_map (@Sqlite.tcols F)
    (Sqlite.find_table (SqlEngine.table_name self)
                       (SqlEngine.tables (SqlEngine.conn self))).

Definition row_count {F : Type} (self : SqlEngine.SimpleSQLite F) : option nat :=
  option_map (fun t => List.length (Sqlite.trows t))
    (Sqlite.find_table (SqlEngine.table_name self)
                       (SqlEngine.tables (SqlEngine.conn self))).

(** ** Parts of [load_rows], named for the proofs *)

Definition is_ok {A : Type} (r : result A) : bool :=
  match r with
  | Ok _ => true
  | _ => false
  end.

(** An insert statement of the loader. *)
Definition insert_one {F : Type} (stored_as : string -> pyvalue F -> sqlvalue F)
  (n : string) (cols : list string) (r : SqlEngine.record F)
  : SqlEngine.M F unit :=
  SqlEngine.bind
    (SqlEngine.execute stored_as (SqlEngine.insert_sql n cols)
                       (map (SqlEngine.cell r) cols))
    (fun _ => SqlEngine.ret tt).

(** What [load_rows] runs after DROP TABLE. *)
Definition load_tail {F : Type} (stored_as : string -> pyvalue F -> sqlvalue F)
  (n : string) (cols types : list string) (rows : list (SqlEngine.record F))
  : SqlEngine.M F unit :=
  SqlEngine.bind
    (SqlEngine.execute stored_as
       (SqlEngine.create_sql n
          (join ", " (map SqlEngine.col_def (combine cols types)))) [])
    (fun _ =>
       SqlEngine.bind (SqlEngine.for_each rows (insert_one stored_as n cols))
                      (fun _ => SqlEngine.commit (F:=F))).

(** Code on the connection that reads the tables only: its result and the
    tables it leaves depend on the tables it starts from, not on the
    journal of earlier statements. *)
Definition blind {F A : Type} (m : SqlEngine.M F A) : Prop :=
  forall c1 c2, SqlEngine.tables c1 = SqlEngine.tables c2 ->
    fst (m c1) = fst (m c2)
    /\ SqlEngine.tables (snd (m c1)) = SqlEngine.tables (snd (m c2)).

(** Helpers of the proofs on texts. *)
Definition is_lowered (c : ascii) : bool := Ascii.eqb (lower_char c) c.
Definition non_space (c : ascii) : bool := negb (is_space c).

End Spec.

(* ===================================================================== *)
(** * Notions used by the further properties *)

Module Props.
Import PyStr Re AiAgent.

(** The call of the chain in [synthesize_sql]. *)
Definition sql_chain {F llm : Type}
  (invoke : llm -> list (string * string)
            -> list (string * prompt_value F) -> result string)
  (l : llm) (cfg : ai_cfg F)
  (user_query schema details candidate_sql table_name : string)
  : result string :=
  invoke l
    [("system", sql_synth_prompt cfg); ("human", sql_human_template)]
    [("user_query", VText F user_query);
     ("schema", VText F schema);
     ("details", VText F details);
     ("candidate_sql",
      VText F (if candidate_sql =? "" then "(none)" else candidate_sql));
     ("table_name", VText F table_name)].

(** The two texts use the same words. *)
Definition same_tokens (a b : string) : Prop :=
  forall x, set_mem x (tokens a) = set_mem x (tokens b).

(** The number of words the two texts share, and of the words of either. *)
Definition shared_words (a b : string) : nat :=
  List.length (set_inter (tokens a) (tokens b)).

Definition all_words (a b : string) : nat :=
  List.length (set_union (tokens a) (tokens b)).

(** A text without any ASCII letter or digit. *)
Definition wordless (a : string) : bool :=
  forall_chars (fun c => negb (alnum_char c)) a.

(** Any character but [a]. *)
Definition is_not (a : ascii) (c : ascii) : bool := negb (Ascii.eqb a c).

(** The last step of [sanitize] on the text [x] left by the steps on the
    code fences. *)
Definition first_statement (x : string) : string :=
  strip (hd "" (split_on ";" x)) ++ ";".

End Props.

(* ===================================================================== *)
(** * Sample parameters

    The floats, the conversion of the column affinity and the texts Python
    gives floats, bytes and dicts are parameters of the model.  The
    examples below run it with these stand-ins: no floats, values stored
    as they are bound, and a plain rendering of a row. *)

Module Sample.

Definition float : Type := Empty_set.

Definition str_float (f : float) : string := match f with end.

Definition str_bytes (b : string) : string := b.

Definition stored_as (decl : string) (v : pyvalue float) : sqlvalue float :=
  match v with
  | PNone => SNull
  | PStr s => SText s
  | PInt z => SInt z
  | PFloat f => SReal f
  end.

Definition str_dict (d : dict (sqlvalue float)) : string :=
  PyStr.join ", "
    (map (fun kv => fst kv ++ ": " ++ AiAgent.str_sql str_float str_bytes (snd kv)) d).

(** The engine of the default configuration: the table is named sales. *)
Definition sales : SqlEngine.SimpleSQLite float := SqlEngine.new_engine float "sales".

Definition load (self : SqlEngine.SimpleSQLite float)
  (rows : list (SqlEngine.record float)) :=
  SqlEngine.load_rows str_float stored_as self rows.

Definition one_row : list (SqlEngine.record float) :=
  [[("item", PStr "apple"); ("quantity", PStr "3"); ("price", PStr "1.5")]].

Definition two_rows : list (SqlEngine.record float) :=
  [[("item", PStr "apple"); ("quantity", PStr "3"); ("price", PStr "1.5")];
   [("item", PStr "pear"); ("quantity", PStr "2"); ("price", PStr "0.75")]].

(** One record whose two column names differ only in case. *)
Definition case_clash : list (SqlEngine.record float) :=
  [[("A", PStr "1"); ("a", PStr "2")]].

(** One record without any column. *)
Definition no_columns : list (SqlEngine.record float) := [[]].

(** Two records, the second with an integer beyond 64 bits. *)
Definition big_int : list (SqlEngine.record float) :=
  [[("n", PInt 1)]; [("n", PInt (2 ^ 63))]].

(** The engine after a first load of one record. *)
Definition loaded_sales : SqlEngine.SimpleSQLite float := snd (load sales one_row).

Definition select (self : SqlEngine.SimpleSQLite float) (sql : string) :=
  SqlEngine.execute_safe_select stored_as self sql.

Definition schema (self : SqlEngine.SimpleSQLite float) (k : Z) :=
  SqlEngine.schema_text str_float str_bytes stored_as str_dict self k.

(** ** Stand-ins for the floats and for the chat model

    The examples of the ranking and of the online mode run with exact
    quotients for floats, compared by cross-multiplication, and with a
    chat model that is the text it answers. *)

Definition ratio : Type := (nat * nat)%type.

Definition ratio_zero : ratio := (0, 1).

Definition ratio_div (n m : nat) : ratio := (n, m).

Definition ratio_gt (x y : ratio) : bool := (fst y * snd x <? fst x * snd y)%nat.

Definition canned : Type := string.

Definition invoke (l : canned) (messages : list (string * string))
  (values : list (string * AiAgent.prompt_value ratio)) : result string :=
  Ok l.

(** A process with the package installed and a key set, whose model gives
    the answer [l]. *)
Definition online (l : canned) : AiAgent.process ratio canned :=
  AiAgent.Process (Some (fun _ _ => Some l))
    (fun k => if k =? "OPENAI_API_KEY" then Some "key" else None).

(** The default settings with the offline mode switched off. *)
Definition online_cfg : AiAgent.ai_cfg ratio :=
  AiAgent.AiCfg "openai" "gpt-4o-mini" ratio_zero false
    "You are a precise data assistant." "You are an expert SQL generator.".

Definition snippets : list (dict string) :=
  [[("name", "all"); ("sql", "SELECT * FROM sales")];
   [("name", "revenue"); ("sql", "SELECT SUM(quantity*price) AS revenue FROM sales")];
   [("name", "broken")]].

End Sample.

(* ===================================================================== *)
(** * Properties *)

Unset Implicit Arguments.

Import PyStr Re ReSem AiAgent Spec Sqlite SqlEngine Props.

(** ** Texts *)

Lemma append_assoc (a b c : string) : (a ++ b) ++ c = a ++ b ++ c.
Proof. induction a as [|x a IH]; simpl; [reflexivity | now rewrite IH]. Qed.

Lemma append_empty_r (a : string) : a ++ "" = a.
Proof. induction a as [|x a IH]; simpl; [reflexivity | now rewrite IH]. Qed.

Lemma length_append (a b : string) : length (a ++ b) = length a + length b.
Proof. induction a as [|x a IH]; simpl; [reflexivity | now rewrite IH]. Qed.

Lemma count_char_app (c : ascii) (a b : string) :
  count_char c (a ++ b) = count_char c a + count_char c b.
Proof. induction a as [|x a IH]; simpl; [reflexivity | rewrite IH; lia]. Qed.

Lemma forall_chars_app (p : ascii -> bool) (a b : string) :
  forall_chars p (a ++ b) = forall_chars p a && forall_chars p b.
Proof.
  induction a as [|x a IH]; simpl; [reflexivity |].
  now rewrite IH, andb_assoc.
Qed.

Lemma forall_chars_impl (p q : ascii -> bool) (s : string) :
  (forall c, p c = true -> q c = true) ->
  forall_chars p s = true -> forall_chars q s = true.
Proof.
  intros Hpq. induction s as [|x s IH]; simpl; [reflexivity |].
  intros H. apply andb_true_iff in H as [Hx Hs].
  now rewrite (Hpq _ Hx), (IH Hs).
Qed.

Lemma forall_chars_count (p : ascii -> bool) (c : ascii) (s : string) :
  p c = false -> forall_chars p s = true -> count_char c s = 0.
Proof.
  intros Hc. induction s as [|x s IH]; simpl; [reflexivity |].
  intros H. apply andb_true_iff in H as [Hx Hs].
  destruct (Ascii.eqb_spec c x) as [->|_]; [congruence |].
  now rewrite (IH Hs).
Qed.

Lemma forall_chars_lstrip (p q : ascii -> bool) (s : string) :
  forall_chars p s = true -> forall_chars p (lstrip_chars q s) = true.
Proof.
  induction s as [|x s IH]; simpl; [reflexivity |].
  intros H. destruct (q x); [| exact H].
  apply andb_true_iff in H as [_ Hs]. now apply IH.
Qed.

Lemma forall_chars_rstrip (p q : ascii -> bool) (s : string) :
  forall_chars p s = true -> forall_chars p (rstrip_chars q s) = true.
Proof.
  induction s as [|x s IH]; simpl; [reflexivity |].
  intros H. apply andb_true_iff in H as [Hx Hs]. specialize (IH Hs).
  destruct (rstrip_chars q s) as [|y r].
  - destruct (q x); simpl; [reflexivity | now rewrite Hx].
  - simpl in *. now rewrite Hx, IH.
Qed.

Lemma forall_chars_strip (p q : ascii -> bool) (s : string) :
  forall_chars p s = true -> forall_chars p (strip_chars q s) = true.
Proof.
  intros H. unfold strip_chars.
  now apply forall_chars_rstrip, forall_chars_lstrip.
Qed.

Lemma substring_0_app (u v : string) : substring 0 (length u) (u ++ v) = u.
Proof.
  induction u as [|x u IH]; simpl.
  - now destruct v.
  - now rewrite IH.
Qed.

(** Every character is one of the 256 code points. *)
Ltac each_char c :=
  destruct c as [[] [] [] [] [] [] [] []]; vm_compute; try reflexivity; try discriminate.

Lemma lower_char_idem (c : ascii) : lower_char (lower_char c) = lower_char c.
Proof. each_char c. Qed.

Lemma lower_idem (s : string) : lower (lower s) = lower s.
Proof.
  induction s as [|x s IH]; simpl; [reflexivity |].
  now rewrite lower_char_idem, IH.
Qed.

Lemma endswith_char_app_r (c : ascii) (a b : string) :
  b <> "" -> endswith_char c (a ++ b) = endswith_char c b.
Proof.
  intros Hb. induction a as [|y a IH]; [reflexivity |].
  simpl. rewrite IH. destruct (a ++ b) eqn:E; [| reflexivity].
  destruct a; [simpl in E; contradiction | discriminate].
Qed.

(** ** The matcher and the relation [steps] *)

Lemma eat_lit_sound l : forall pv s i g st',
  eat_lit l pv s i g = Some st' ->
  exists v, s = l ++ v /\ st' = MState (last_of l pv) v (i + length l) g.
Proof.
  induction l as [|a l IH]; simpl; intros pv s i g st' H.
  - inversion H; subst. exists s. now rewrite Nat.add_0_r.
  - destruct s as [|c s]; [discriminate |].
    destruct (Ascii.eqb_spec a c) as [->|]; [| discriminate].
    apply IH in H as (v & -> & ->). exists v. split; [reflexivity |].
    f_equal. lia.
Qed.

Lemma eat_lit_complete l : forall pv v i g,
  eat_lit l pv (l ++ v) i g = Some (MState (last_of l pv) v (i + length l) g).
Proof.
  induction l as [|a l IH]; simpl; intros pv v i g.
  - now rewrite Nat.add_0_r.
  - rewrite Ascii.eqb_refl, IH. do 2 f_equal. lia.
Qed.

Lemma star_sound p k : forall s pv i g x,
  star p k pv s i g = Some x ->
  exists u v, s = u ++ v /\ forall_chars p u = true /\
              k (MState (last_of u pv) v (i + length u) g) = Some x.
Proof.
  induction s as [|c s IH]; simpl; intros pv i g x H.
  - exists "", "". simpl. now rewrite Nat.add_0_r.
  - destruct (p c) eqn:Hc.
    + destruct (star p k (Some c) s (S i) g) eqn:Hs.
      * inversion H; subst. apply IH in Hs as (u & v & -> & Hu & Hk).
        exists (String c u), v. simpl. rewrite Hc, Hu.
        repeat split. now replace (i + S (length u)) with (S i + length u) by lia.
      * exists "", (String c s). simpl. now rewrite Nat.add_0_r.
    + exists "", (String c s). simpl. now rewrite Nat.add_0_r.
Qed.

Lemma star_complete p k : forall u v pv i g x,
  forall_chars p u = true ->
  k (MState (last_of u pv) v (i + length u) g) = Some x ->
  exists y, star p k pv (u ++ v) i g = Some y.
Proof.
  induction u as [|c u IH]; simpl; intros v pv i g x Hu Hk.
  - rewrite Nat.add_0_r in Hk.
    destruct v as [|c v]; simpl; [eauto |].
    destruct (p c); [| eauto].
    destruct (star p k (Some c) v (S i) g); eauto.
  - apply andb_true_iff in Hu as [Hc Hu]. rewrite Hc.
    replace (i + S (length u)) with (S i + length u) in Hk by lia.
    destruct (IH v (Some c) (S i) g x Hu Hk) as [y ->]. eauto.
Qed.

Lemma run_sound r : forall st k x,
  run r st k = Some x -> exists st', steps r st st' /\ k st' = Some x.
Proof.
  induction r as [l | p | p | p | r IH | r1 IH1 r2 IH2 | r1 IH1 r2 IH2 | | r IH];
    simpl; intros st k x H.
  - destruct (eat_lit l (prev st) (rest st) (pos st) (grp st)) as [st'|] eqn:He;
      [| discriminate].
    apply eat_lit_sound in He as (v & Hv & ->).
    exists (after l v st). split; [now constructor | exact H].
  - destruct (rest st) as [|c v] eqn:Hr; [discriminate |].
    destruct (p c) eqn:Hc; [| discriminate].
    exists (after (String c "") v st). split; [now constructor |].
    unfold after. simpl. now rewrite Nat.add_1_r.
  - apply star_sound in H as (u & v & Hs & Hu & Hk).
    exists (after u v st). split; [now constructor | exact Hk].
  - destruct (rest st) as [|c s] eqn:Hr; [discriminate |].
    destruct (p c) eqn:Hc; [| discriminate].
    apply star_sound in H as (u & v & -> & Hu & Hk).
    exists (after (String c u) v st). split.
    + constructor; simpl; [exact Hr | now rewrite Hc, Hu | discriminate].
    + unfold after. simpl.
      now replace (pos st + S (length u)) with (S (pos st) + length u) by lia.
  - destruct (run r st k) eqn:Hr.
    + inversion H; subst. apply IH in Hr as (st' & Hs & Hk).
      exists st'. split; [now constructor | exact Hk].
    + exists st. split; [apply S_OptNone | exact H].
  - destruct (run r1 st k) eqn:Hr.
    + inversion H; subst. apply IH1 in Hr as (st' & Hs & Hk).
      exists st'. split; [now apply S_AltL | exact Hk].
    + apply IH2 in H as (st' & Hs & Hk).
      exists st'. split; [now apply S_AltR | exact Hk].
  - apply IH1 in H as (st1 & Hs1 & H). apply IH2 in H as (st2 & Hs2 & Hk).
    exists st2. split; [now apply S_Seq with st1 | exact Hk].
  - destruct (at_boundary st) eqn:Hb; [| discriminate].
    exists st. split; [now constructor | exact H].
  - apply IH in H as (st' & Hs & Hk).
    eexists. split; [apply S_Group; exact Hs | exact Hk].
Qed.

Lemma run_complete r : forall st st',
  steps r st st' -> forall k x, k st' = Some x -> exists y, run r st k = Some y.
Proof.
  induction 1; simpl; intros k x Hk.
  - destruct st as [pv s i g]; simpl in *; subst.
    unfold after in Hk; simpl in Hk. rewrite eat_lit_complete. eauto.
  - rewrite H, H0. unfold after in Hk. simpl in Hk.
    rewrite Nat.add_1_r in Hk. eauto.
  - rewrite H. eapply star_complete; eauto.
  - destruct u as [|c u]; [congruence |]. simpl in H. rewrite H.
    simpl in H0. apply andb_true_iff in H0 as [Hc Hu]. rewrite Hc.
    eapply star_complete; [exact Hu |].
    unfold after in Hk. simpl in Hk.
    replace (S (pos st) + length u) with (pos st + S (length u)) by lia.
    exact Hk.
  - destruct (IHsteps k x Hk) as [y ->]. eauto.
  - destruct (run r st k); eauto.
  - destruct (IHsteps k x Hk) as [y ->]. eauto.
  - destruct (run r1 st k); eauto.
  - destruct (IHsteps2 k x Hk) as [y Hy].
    exact (IHsteps1 (fun st' => run r2 st' k) y Hy).
  - rewrite H. eauto.
  - exact (IHsteps _ x Hk).
Qed.

Lemma fullmatch_iff r s :
  fullmatch r s = true <->
  exists st', steps r (MState None s 0 None) st' /\ rest st' = "".
Proof.
  unfold fullmatch. split.
  - destruct (run r (MState None s 0 None) at_end) eqn:H; [| discriminate].
    intros _. apply run_sound in H as (st' & Hs & He).
    exists st'. split; [exact Hs |].
    unfold at_end in He. now destruct (rest st').
  - intros (st' & Hs & He).
    assert (Hk : at_end st' = Some st') by (unfold at_end; now rewrite He).
    destruct (run_complete _ _ _ Hs at_end _ Hk) as [y ->]. reflexivity.
Qed.

Lemma search_from_sound r : forall s pv i m,
  search_from r pv s i = Some m ->
  exists st, grp st = None /\ steps r st m.
Proof.
  induction s as [|c s IH]; simpl; intros pv i m H.
  - destruct (run r (MState pv "" i None) (@Some mstate)) eqn:Hr; [| discriminate].
    inversion H; subst. apply run_sound in Hr as (st' & Hs & Hk).
    inversion Hk; subst. eexists. split; [| exact Hs]. reflexivity.
  - destruct (run r (MState pv (String c s) i None) (@Some mstate)) eqn:Hr.
    + inversion H; subst. apply run_sound in Hr as (st' & Hs & Hk).
      inversion Hk; subst. eexists. split; [| exact Hs]. reflexivity.
    + eapply IH; eauto.
Qed.

Lemma search_sound r s m :
  search r s = Some m -> exists st, grp st = None /\ steps r st m.
Proof. apply search_from_sound. Qed.

Lemma forall_chars_substring (p : ascii -> bool) : forall s n m,
  forall_chars p s = true -> forall_chars p (substring n m s) = true.
Proof.
  induction s as [|c s IH]; intros n m H.
  - now destruct n, m.
  - simpl in H. apply andb_true_iff in H as [Hc Hs].
    destruct n as [|n]; simpl.
    + destruct m as [|m]; simpl; [reflexivity |]. now rewrite Hc, IH.
    + now apply IH.
Qed.

(** The text of a group is cut from the subject: what holds of every
    character of the subject holds of every character of the group. *)
Lemma steps_chars (P : ascii -> bool) r st st' :
  steps r st st' ->
  forall_chars P (rest st) = true ->
  (forall g, grp st = Some g -> forall_chars P g = true) ->
  forall_chars P (rest st') = true /\
  (forall g, grp st' = Some g -> forall_chars P g = true).
Proof.
  induction 1; simpl; intros Hr Hg;
    try (rewrite H in Hr; rewrite forall_chars_app in Hr;
         apply andb_true_iff in Hr as [_ Hr]; now split);
    auto.
  - rewrite H in Hr. simpl in Hr. apply andb_true_iff in Hr as [_ Hr]. now split.
  - destruct (IHsteps1 Hr Hg) as [Hr1 Hg1]. now apply IHsteps2.
  - destruct (IHsteps Hr Hg) as [Hr1 _]. split; [exact Hr1 |].
    intros g E. inversion E; subst. now apply forall_chars_substring.
Qed.

Lemma steps_group_plus p st st' :
  steps (Group (Plus p)) st st' ->
  exists u, grp st' = Some u /\ forall_chars p u = true /\ u <> "".
Proof.
  intros H. inversion H as [| | | | | | | | | | r0 st0 st1 Hp]; subst.
  inversion Hp as [| | | p0 st2 u v Hr Hu Hn | | | | | | |]; subst.
  exists u. simpl. rewrite Hr.
  replace (pos st + length u - pos st) with (length u) by lia.
  now rewrite substring_0_app.
Qed.

Ltac split_seq :=
  repeat match goal with
         | H : steps (Seq _ _) _ _ |- _ => inversion H; subst; clear H
         end.

Lemma search_from_suffix r : forall s pv i m,
  search_from r pv s i = Some m ->
  exists st w, grp st = None /\ s = w ++ rest st /\ steps r st m.
Proof.
  induction s as [|c s IH]; simpl; intros pv i m H.
  - destruct (run r (MState pv "" i None) (@Some mstate)) eqn:Hr; [| discriminate].
    inversion H; subst. apply run_sound in Hr as (st' & Hs & Hk).
    inversion Hk; subst.
    exists (MState pv "" i None), "". now repeat split.
  - destruct (run r (MState pv (String c s) i None) (@Some mstate)) eqn:Hr.
    + inversion H; subst. apply run_sound in Hr as (st' & Hs & Hk).
      inversion Hk; subst.
      exists (MState pv (String c s) i None), "". now repeat split.
    + apply IH in H as (st & w & Hg & -> & Hs).
      exists st, (String c w). now repeat split.
Qed.

(** A group found by [search] inherits what holds of the subject. *)
Lemma search_group_chars (P : ascii -> bool) r s m g :
  search r s = Some m -> forall_chars P s = true ->
  group1 m = Some g -> forall_chars P g = true.
Proof.
  intros H Hs Hg. apply search_from_suffix in H as (st & w & Hn & -> & Hst).
  rewrite forall_chars_app in Hs. apply andb_true_iff in Hs as [_ Hs].
  destruct (steps_chars P _ _ _ Hst Hs) as [_ HG].
  - intros g' E. congruence.
  - now apply HG.
Qed.

Lemma lower_is_lowered (s : string) : forall_chars is_lowered (lower s) = true.
Proof.
  induction s as [|c s IH]; simpl; [reflexivity |].
  rewrite IH, andb_true_r. unfold is_lowered.
  rewrite lower_char_idem. apply Ascii.eqb_refl.
Qed.

Lemma lowered_value_char (c : ascii) :
  is_lowered c = true -> value_char c = true -> lower_value_char c = true.
Proof. destruct c as [[] [] [] [] [] [] [] []]; vm_compute; congruence. Qed.

Lemma forall_chars_and (p q r : ascii -> bool) (s : string) :
  (forall c, p c = true -> q c = true -> r c = true) ->
  forall_chars p s = true -> forall_chars q s = true -> forall_chars r s = true.
Proof.
  intros Hpq. induction s as [|x s IH]; simpl; [reflexivity |].
  intros H1 H2. apply andb_true_iff in H1 as [Hx1 Hs1].
  apply andb_true_iff in H2 as [Hx2 Hs2].
  now rewrite (Hpq _ Hx1 Hx2), (IH Hs1 Hs2).
Qed.

(** The three filter patterns end in the group of value characters, the
    pattern of rule 3 in a group of digits. *)
Lemma re_count_item_group s m :
  search re_count_item s = Some m ->
  exists u, group1 m = Some u /\ forall_chars value_char u = true.
Proof.
  intros H. apply search_sound in H as (st & _ & H). unfold re_count_item in H.
  split_seq.
  match goal with H : steps (Group _) _ _ |- _ =>
    apply steps_group_plus in H as (u & E & Hu & _) end.
  now exists u.
Qed.

Lemma re_customer_group s m :
  search re_customer s = Some m ->
  exists u, group1 m = Some u /\ forall_chars value_char u = true.
Proof.
  intros H. apply search_sound in H as (st & _ & H). unfold re_customer in H.
  split_seq.
  match goal with H : steps (Group _) _ _ |- _ =>
    apply steps_group_plus in H as (u & E & Hu & _) end.
  now exists u.
Qed.

Lemma re_item_group s m :
  search re_item s = Some m ->
  exists u, group1 m = Some u /\ forall_chars value_char u = true.
Proof.
  intros H. apply search_sound in H as (st & _ & H). unfold re_item in H.
  split_seq.
  match goal with H : steps (Group _) _ _ |- _ =>
    apply steps_group_plus in H as (u & E & Hu & _) end.
  now exists u.
Qed.

Lemma re_top_group s m :
  search re_top s = Some m ->
  exists u, group1 m = Some u /\ forall_chars is_digit u = true /\ u <> "".
Proof.
  intros H. apply search_sound in H as (st & _ & H). unfold re_top in H.
  split_seq.
  match goal with H : steps (Group _) _ _ |- _ =>
    apply steps_group_plus in H as (u & E & Hu & Hn) end.
  now exists u.
Qed.

(** The value a filter pattern yields on a lower-cased question. *)
Lemma filter_value_lowered q m u :
  search re_count_item (lower q) = Some m \/
  search re_customer (lower q) = Some m \/
  search re_item (lower q) = Some m ->
  group1 m = Some u -> forall_chars value_char u = true ->
  exists val, filter_value m = Ok val /\
              forall_chars lower_value_char val = true.
Proof.
  intros H Hg Hu. unfold filter_value. rewrite Hg.
  eexists. split; [reflexivity |].
  unfold strip. do 2 apply forall_chars_strip.
  apply forall_chars_and with (p := is_lowered) (q := value_char);
    [apply lowered_value_char | | exact Hu].
  destruct H as [H | [H | H]];
    exact (search_group_chars is_lowered _ _ _ _ H (lower_is_lowered q) Hg).
Qed.

(** ** Integers and their text *)

Lemma digit_value_range (c : ascii) :
  is_digit c = true -> (0 <= digit_value c <= 9)%Z.
Proof.
  intros H. destruct c as [[] [] [] [] [] [] [] []]; try discriminate H;
    vm_compute; split; discriminate.
Qed.

Lemma digits_value_bound : forall s acc,
  forall_chars is_digit s = true -> (0 <= acc)%Z ->
  (0 <= digits_value acc s < (acc + 1) * 10 ^ Z.of_nat (length s))%Z.
Proof.
  induction s as [|c s IH]; intros acc H Ha.
  - simpl. lia.
  - simpl in H. apply andb_true_iff in H as [Hc Hs].
    pose proof (digit_value_range c Hc) as Hd.
    change (digits_value acc (String c s))
      with (digits_value (10 * acc + digit_value c) s).
    specialize (IH (10 * acc + digit_value c)%Z Hs ltac:(lia)).
    change (length (String c s)) with (S (length s)).
    rewrite Nat2Z.inj_succ, Z.pow_succ_r by lia.
    assert (0 < 10 ^ Z.of_nat (length s))%Z by (apply Z.pow_pos_nonneg; lia).
    nia.
Qed.

Lemma int_of_str_ok (g : string) (k : Z) :
  int_of_str g = Ok k -> (0 <= k < int_str_bound)%Z.
Proof.
  unfold int_of_str.
  destruct (Nat.ltb_spec int_max_str_digits (length g)) as [|Hl]; [discriminate |].
  destruct (forall_chars is_digit g) eqn:Hd; [| discriminate].
  destruct (negb (g =? "")); [| discriminate].
  intros [= <-].
  pose proof (digits_value_bound g 0 Hd ltac:(lia)) as Hb.
  assert (10 ^ Z.of_nat (length g) <= int_str_bound)%Z.
  { unfold int_str_bound. apply Z.pow_le_mono_r; lia. }
  lia.
Qed.

Lemma int_of_str_digits (g : string) :
  forall_chars is_digit g = true -> g <> "" ->
  (length g <= int_max_str_digits)%nat ->
  exists k, int_of_str g = Ok k.
Proof.
  intros Hd Hn Hl. unfold int_of_str.
  destruct (Nat.ltb_spec int_max_str_digits (length g)); [lia |].
  rewrite Hd. destruct (String.eqb_spec g ""); [contradiction |].
  simpl. eauto.
Qed.

Lemma str_of_int_ok (k : Z) :
  (0 <= k < int_str_bound)%Z -> str_of_int k = Ok (decimal k).
Proof.
  intros H. unfold str_of_int.
  destruct (Z.leb_spec int_str_bound (Z.abs k)); [lia | reflexivity].
Qed.

Lemma str_of_int_ok_abs (k : Z) :
  (Z.abs k < int_str_bound)%Z -> str_of_int k = Ok (decimal k).
Proof.
  intros H. unfold str_of_int.
  destruct (Z.leb_spec int_str_bound (Z.abs k)); [lia | reflexivity].
Qed.

Lemma string_of_uint_digits (d : Decimal.uint) :
  forall_chars is_digit (NilEmpty.string_of_uint d) = true.
Proof. induction d; simpl; auto. Qed.

Lemma decimal_digits (k : Z) :
  (0 <= k)%Z -> forall_chars is_digit (decimal k) = true.
Proof.
  intros H. unfold decimal. destruct k as [|p|p]; [reflexivity | | lia].
  simpl. unfold NilZero.string_of_uint.
  destruct (Pos.to_uint p) eqn:E; try (rewrite <- E; apply string_of_uint_digits).
  reflexivity.
Qed.

(** ** The translator *)

Lemma top_branch_emitted (g t s : string) :
  rbind (int_of_str g) (fun k =>
    rbind (str_of_int k) (fun ks =>
      Ok ("SELECT item, SUM(quantity*price) AS revenue FROM " ++ t
          ++ " GROUP BY item ORDER BY revenue DESC LIMIT " ++ ks ++ ";"))) = Ok s ->
  emitted t s.
Proof.
  destruct (int_of_str g) as [k | |] eqn:Hk.
  - unfold rbind at 1. apply int_of_str_ok in Hk.
    rewrite (str_of_int_ok k Hk). unfold rbind.
    intros [= <-]. constructor. lia.
  - unfold rbind. intros H. inversion H.
  - unfold rbind. intros H. inversion H.
Qed.

Lemma offline_sql_emitted (q t s : string) :
  offline_sql q t = Ok s -> emitted t s.
Proof.
  unfold offline_sql.
  destruct (contains "how many" (lower q) || contains "count" (lower q)).
  { destruct (search re_count_item (lower q)) as [m|] eqn:Hm.
    - destruct (re_count_item_group _ _ Hm) as (u & Hg & Hu).
      destruct (filter_value_lowered q m u (or_introl Hm) Hg Hu) as (val & -> & Hl).
      cbn [rbind]. intros [= <-]. now constructor.
    - intros [= <-]. constructor. }
  destruct (contains "revenue" (lower q) || contains "total sales" (lower q)
            || contains "sum" (lower q)).
  { destruct (contains "by item" (lower q) || contains "per item" (lower q));
      [intros [= <-]; constructor |].
    destruct (contains "by date" (lower q) || contains "per day" (lower q)
              || contains "daily" (lower q)); intros [= <-]; constructor. }
  cbv zeta.
  destruct (match search re_top (lower q) with
            | Some m => if contains "item" (lower q) || contains "product" (lower q)
                        then Some m else None
            | None => None
            end) as [m|] eqn:Htop.
  { destruct (group1 m) as [g|]; [apply top_branch_emitted | discriminate]. }
  destruct (search re_customer (lower q)) as [m|] eqn:Hc.
  { destruct (re_customer_group _ _ Hc) as (u & Hg & Hu).
    destruct (filter_value_lowered q m u (or_intror (or_introl Hc)) Hg Hu)
      as (val & -> & Hl).
    cbn [rbind]. intros [= <-]. now constructor. }
  destruct (search re_item (lower q)) as [m|] eqn:Hi.
  { destruct (re_item_group _ _ Hi) as (u & Hg & Hu).
    destruct (filter_value_lowered q m u (or_intror (or_intror Hi)) Hg Hu)
      as (val & -> & Hl).
    cbn [rbind]. intros [= <-]. now constructor. }
  intros [= <-]. constructor.
Qed.

Lemma offline_sql_total (q t : string) :
  (top_digits q <= int_max_str_digits)%nat -> exists s, offline_sql q t = Ok s.
Proof.
  intros Hlim. unfold offline_sql.
  destruct (contains "how many" (lower q) || contains "count" (lower q)).
  { destruct (search re_count_item (lower q)) as [m|] eqn:Hm; [| eauto].
    destruct (re_count_item_group _ _ Hm) as (u & Hg & Hu).
    destruct (filter_value_lowered q m u (or_introl Hm) Hg Hu) as (val & -> & Hl).
    cbn [rbind]. eauto. }
  destruct (contains "revenue" (lower q) || contains "total sales" (lower q)
            || contains "sum" (lower q)).
  { destruct (contains "by item" (lower q) || contains "per item" (lower q));
      [eauto |].
    destruct (contains "by date" (lower q) || contains "per day" (lower q)
              || contains "daily" (lower q)); eauto. }
  cbv zeta. unfold top_digits in Hlim.
  destruct (search re_top (lower q)) as [m|] eqn:Htop.
  { destruct (re_top_group _ _ Htop) as (g & Hg & Hd & Hn). rewrite Hg in Hlim.
    destruct (contains "item" (lower q) || contains "product" (lower q)).
    - cbv beta iota. rewrite Hg.
      destruct (int_of_str_digits g Hd Hn Hlim) as [k Hk]. rewrite Hk.
      cbn [rbind]. rewrite (str_of_int_ok k (int_of_str_ok _ _ Hk)).
      cbn [rbind]. eauto.
    - destruct (search re_customer (lower q)) as [m'|] eqn:Hc.
      { destruct (re_customer_group _ _ Hc) as (u & Hg' & Hu).
        destruct (filter_value_lowered q m' u (or_intror (or_introl Hc)) Hg' Hu)
          as (val & -> & Hl). cbn [rbind]. eauto. }
      destruct (search re_item (lower q)) as [m'|] eqn:Hi; [| eauto].
      destruct (re_item_group _ _ Hi) as (u & Hg' & Hu).
      destruct (filter_value_lowered q m' u (or_intror (or_intror Hi)) Hg' Hu)
        as (val & -> & Hl). cbn [rbind]. eauto. }
  destruct (search re_customer (lower q)) as [m'|] eqn:Hc.
  { destruct (re_customer_group _ _ Hc) as (u & Hg' & Hu).
    destruct (filter_value_lowered q m' u (or_intror (or_introl Hc)) Hg' Hu)
      as (val & -> & Hl). cbn [rbind]. eauto. }
  destruct (search re_item (lower q)) as [m'|] eqn:Hi; [| eauto].
  destruct (re_item_group _ _ Hi) as (u & Hg' & Hu).
  destruct (filter_value_lowered q m' u (or_intror (or_intror Hi)) Hg' Hu)
    as (val & -> & Hl). cbn [rbind]. eauto.
Qed.

Lemma count_semicolon_value (val : string) :
  forall_chars lower_value_char val = true -> count_char ";"%char val = 0.
Proof. apply forall_chars_count. reflexivity. Qed.

Lemma count_semicolon_decimal (k : Z) :
  (0 <= k)%Z -> count_char ";"%char (decimal k) = 0.
Proof.
  intros H. apply forall_chars_count with (p := is_digit); [reflexivity |].
  now apply decimal_digits.
Qed.

Lemma append_nonempty_r (a b : string) : b <> "" -> a ++ b <> "".
Proof. intros Hb. destruct a; [exact Hb | discriminate]. Qed.

Lemma emitted_single_statement (t s : string) :
  count_char ";"%char t = 0 -> emitted t s -> single_statement s = true.
Proof.
  intros Ht H. unfold single_statement.
  destruct H;
    rewrite ?count_char_app, ?Ht;
    repeat match goal with
           | Hv : forall_chars lower_value_char ?v = true |- _ =>
               rewrite (count_semicolon_value v Hv)
           | Hk : (0 <= ?k)%Z |- _ => rewrite (count_semicolon_decimal k Hk)
           end;
    rewrite ?endswith_char_app_r;
    try reflexivity;
    repeat apply append_nonempty_r; discriminate.
Qed.

(** *** Rule order on the question of the chat prompt *)

(** C1 (the code breaks the claim).  On the question "top 3 items by
    revenue" and the table "sales" the translator returns the total
    revenue statement, not the top-3 statement: the question contains
    "revenue", so rule 2 applies before rule 3 is looked at.  Without the
    word "revenue" the same question reaches rule 3. *)
Theorem C1_top3_by_revenue_takes_revenue_rule :
  offline_sql "top 3 items by revenue" "sales"
  = Ok "SELECT SUM(quantity*price) AS revenue FROM sales;"
  /\ offline_sql "top 3 items by revenue" "sales"
     <> Ok "SELECT item, SUM(quantity*price) AS revenue FROM sales GROUP BY item ORDER BY revenue DESC LIMIT 3;"
  /\ offline_sql "top 3 items" "sales"
     = Ok "SELECT item, SUM(quantity*price) AS revenue FROM sales GROUP BY item ORDER BY revenue DESC LIMIT 3;".
Proof.
  split; [vm_compute; reflexivity |].
  split; [vm_compute; discriminate | vm_compute; reflexivity].
Qed.

(** *** Totality and the shape of the result *)

(** C7, as stated, fails twice.  A table name with a semicolon gives a
    text with two semicolons, and a question whose "top N" has more digits
    than [int] converts makes the translator raise. *)
Lemma C7_counterexample :
  (offline_sql "hello" "a;b" = Ok "SELECT * FROM a;b LIMIT 20;"
   /\ single_statement "SELECT * FROM a;b LIMIT 20;" = false)
  /\ offline_sql ("top " ++ repeat_char "9"%char 4301 ++ " items") "sales"
     = Raise (ValueError
                ("Exceeds the limit (4300 digits) for integer string conversion: "
                 ++ "value has 4301 digits; "
                 ++ "use sys.set_int_max_str_digits() to increase the limit")).
Proof. repeat split; vm_compute; reflexivity. Qed.

Lemma no_rule_default (q t : string) :
  no_rule_matches q = true ->
  offline_sql q t = Ok ("SELECT * FROM " ++ t ++ " LIMIT 20;").
Proof.
  unfold no_rule_matches, offline_sql. cbv zeta. intros H.
  repeat (apply andb_true_iff in H as [H ?]).
  repeat match goal with
         | E : negb ?b = true |- _ => apply negb_true_iff in E
         end.
  rewrite H.
  match goal with E : _ || _ || _ = false |- _ => rewrite E end.
  destruct (search re_top (lower q)) as [m|].
  - match goal with E : _ || _ = false |- _ => rewrite E end.
    destruct (search re_customer (lower q)); [discriminate |].
    destruct (search re_item (lower q)); [discriminate | reflexivity].
  - destruct (search re_customer (lower q)); [discriminate |].
    destruct (search re_item (lower q)); [discriminate | reflexivity].
Qed.

(** C7 (amended).  For a table name without a semicolon and a question
    whose "top N" has at most 4300 digits, the translator returns a text;
    the text is one of the statements of 4.4 and is one statement closed by
    its only semicolon.  A question to which no rule applies gets the
    default statement, whatever the table name. *)
Theorem C7_offline_sql_total_single_statement (q t : string) :
  count_char ";"%char t = 0 ->
  (top_digits q <= int_max_str_digits)%nat ->
  (exists s, offline_sql q t = Ok s /\ emitted t s /\ single_statement s = true)
  /\ (no_rule_matches q = true ->
      offline_sql q t = Ok ("SELECT * FROM " ++ t ++ " LIMIT 20;")).
Proof.
  intros Ht Hq. split; [| apply no_rule_default].
  destruct (offline_sql_total q t Hq) as [s Hs].
  exists s. split; [exact Hs |].
  pose proof (offline_sql_emitted q t s Hs) as He.
  split; [exact He | now apply emitted_single_statement with t].
Qed.

(** The table name sales and a question with a one-digit number meet the
    conditions of C7. *)
Lemma C7_witness :
  count_char ";"%char "sales" = 0
  /\ (top_digits "top 5 items" <= int_max_str_digits)%nat
  /\ ((exists s, offline_sql "top 5 items" "sales" = Ok s
                 /\ emitted "sales" s /\ single_statement s = true)
      /\ (no_rule_matches "top 5 items" = true ->
          offline_sql "top 5 items" "sales"
          = Ok ("SELECT * FROM " ++ "sales" ++ " LIMIT 20;"))).
Proof.
  assert (H1 : count_char ";"%char "sales" = 0) by reflexivity.
  assert (H2 : (top_digits "top 5 items" <= int_max_str_digits)%nat)
    by (vm_compute; lia).
  split; [exact H1 |]. split; [exact H2 |].
  exact (C7_offline_sql_total_single_statement "top 5 items" "sales" H1 H2).
Defined.

(** *** Case of the filter values *)


(** ** The summarizer *)

Section SummarizerFacts.

Variable F : Type.
Variable str_float : F -> string.
Variable str_bytes : string -> string.




End SummarizerFacts.

(** ** Plain patterns and the texts they stand for *)

Lemma last_of_app (u1 u2 : string) : forall pv,
  last_of (u1 ++ u2) pv = last_of u2 (last_of u1 pv).
Proof. induction u1 as [|c u1 IH]; simpl; intros pv; [reflexivity | apply IH]. Qed.

Lemma after_app (u1 u2 v : string) (st : mstate) :
  after (u1 ++ u2) v st = after u2 v (after u1 (u2 ++ v) st).
Proof.
  unfold after. simpl. rewrite last_of_app, length_append. f_equal. lia.
Qed.

Lemma after_empty (st : mstate) : after "" (rest st) st = st.
Proof. destruct st. unfold after. simpl. now rewrite Nat.add_0_r. Qed.

Lemma steps_denotes r st st' :
  steps r st st' -> plain r = true ->
  exists u, rest st = u ++ rest st' /\ denotes r u.
Proof.
  induction 1; simpl; intros Hp; try discriminate.
  - now exists l.
  - exists (String c ""). split; [exact H | eauto].
  - now exists u.
  - now exists u.
  - destruct (IHsteps Hp) as (u & E & D). exists u. auto.
  - exists "". auto.
  - apply andb_true_iff in Hp as [Hp _].
    destruct (IHsteps Hp) as (u & E & D). exists u. auto.
  - apply andb_true_iff in Hp as [_ Hp].
    destruct (IHsteps Hp) as (u & E & D). exists u. auto.
  - apply andb_true_iff in Hp as [Hp1 Hp2].
    destruct (IHsteps1 Hp1) as (u1 & E1 & D1).
    destruct (IHsteps2 Hp2) as (u2 & E2 & D2).
    exists (u1 ++ u2). rewrite append_assoc, <- E2, <- E1. eauto 6.
Qed.

Lemma denotes_steps r : forall u v st,
  plain r = true -> denotes r u -> rest st = u ++ v -> steps r st (after u v st).
Proof.
  induction r as [l | p | p | p | r IH | r1 IH1 r2 IH2 | r1 IH1 r2 IH2 | | r IH];
    simpl; intros u v st Hp D E; try discriminate.
  - subst u. now constructor.
  - destruct D as (c & -> & Hc). now constructor.
  - now constructor.
  - destruct D. now constructor.
  - destruct D as [-> | D].
    + simpl in E. rewrite <- E, after_empty. apply S_OptNone.
    + apply S_OptSome. now apply IH.
  - apply andb_true_iff in Hp as [Hp1 Hp2]. destruct D as [D | D].
    + apply S_AltL. now apply IH1.
    + apply S_AltR. now apply IH2.
  - apply andb_true_iff in Hp as [Hp1 Hp2].
    destruct D as (u1 & u2 & -> & D1 & D2).
    rewrite append_assoc in E. rewrite after_app.
    apply S_Seq with (after u1 (u2 ++ v) st).
    + now apply IH1.
    + now apply IH2.
Qed.

Lemma fullmatch_denotes r s :
  plain r = true -> (fullmatch r s = true <-> denotes r s).
Proof.
  intros Hp. rewrite fullmatch_iff. split.
  - intros (st' & Hs & He).
    destruct (steps_denotes _ _ _ Hs Hp) as (u & E & D).
    simpl in E. rewrite He, append_empty_r in E. now subst.
  - intros D. exists (after s "" (MState None s 0 None)). split; [| reflexivity].
    apply denotes_steps; [exact Hp | exact D |].
    simpl. now rewrite append_empty_r.
Qed.

(** ** The type inferencer *)

Lemma is_sign_iff (c : ascii) : is_sign c = true <-> c = "+"%char \/ c = "-"%char.
Proof.
  unfold is_sign. rewrite orb_true_iff, !Ascii.eqb_eq. tauto.
Qed.

Lemma is_e_iff (c : ascii) : is_e c = true <-> c = "e"%char \/ c = "E"%char.
Proof.
  unfold is_e. rewrite orb_true_iff, !Ascii.eqb_eq. tauto.
Qed.

Lemma opt_sign_denotes (u : string) :
  denotes (Opt (Class is_sign)) u <-> opt_sign u.
Proof.
  simpl. unfold opt_sign. split.
  - intros [-> | (c & -> & Hc)]; [auto |].
    apply is_sign_iff in Hc as [-> | ->]; auto.
  - intros [-> | [-> | ->]]; [auto | right | right]; eexists; split; eauto.
Qed.

Lemma re_int_denotes (s : string) : denotes re_int s <-> matches_int s.
Proof.
  unfold re_int, matches_int.
  change (denotes (Seq (Opt (Class is_sign)) (Plus is_digit)) s)
    with (exists u1 u2, s = u1 ++ u2 /\ denotes (Opt (Class is_sign)) u1
                        /\ (forall_chars is_digit u2 = true /\ u2 <> "")).
  split.
  - intros (u1 & u2 & -> & H1 & H2 & H3). apply opt_sign_denotes in H1.
    now exists u1, u2.
  - intros (sg & ds & -> & H1 & H2 & H3). apply opt_sign_denotes in H1.
    now exists sg, ds.
Qed.

Lemma mantissa_denotes (u : string) :
  denotes (Alt (Seq (Star is_digit) (Seq (Lit ".") (Plus is_digit)))
               (Seq (Plus is_digit) (Seq (Lit ".") (Star is_digit)))) u
  <-> mantissa u.
Proof.
  unfold mantissa. simpl. split.
  - intros [(a & r & -> & Ha & p & b & -> & -> & Hb & Hn)
           | (a & r & -> & (Ha & Hn) & p & b & -> & -> & Hb)];
      exists a, b; unfold digits; auto.
  - intros (a & b & -> & Ha & Hb & [Hn | Hn]).
    + left. exists a, ("." ++ b). repeat split; [exact Ha |].
      exists ".", b. now repeat split.
    + right. exists a, ("." ++ b). repeat split; [exact Ha | exact Hn |].
      exists ".", b. now repeat split.
Qed.

Lemma exponent_denotes (u : string) :
  denotes (Opt (Seq (Class is_e) (Seq (Opt (Class is_sign)) (Plus is_digit)))) u
  <-> exponent u.
Proof.
  unfold exponent.
  change (denotes (Opt (Seq (Class is_e) (Seq (Opt (Class is_sign)) (Plus is_digit)))) u)
    with (u = "" \/
          exists u1 u2, u = u1 ++ u2 /\ (exists c, u1 = String c "" /\ is_e c = true)
            /\ exists u3 u4, u2 = u3 ++ u4 /\ denotes (Opt (Class is_sign)) u3
                 /\ (forall_chars is_digit u4 = true /\ u4 <> "")).
  split.
  - intros [-> | (u1 & u2 & -> & (c & -> & Hc) & u3 & u4 & -> & Hs & Hd & Hn)];
      [auto | right].
    apply opt_sign_denotes in Hs. apply is_e_iff in Hc.
    exists c, u3, u4. now repeat split.
  - intros [-> | (c & sg & ds & -> & Hc & Hs & Hd & Hn)]; [auto | right].
    apply opt_sign_denotes in Hs. apply is_e_iff in Hc.
    exists (String c ""), (sg ++ ds). repeat split; [eauto |].
    exists sg, ds. now repeat split.
Qed.

Lemma re_real_denotes (s : string) : denotes re_real s <-> matches_real s.
Proof.
  unfold re_real, matches_real.
  match goal with
  | |- denotes (Seq ?a (Seq ?b ?c)) s <-> _ =>
      change (denotes (Seq a (Seq b c)) s)
        with (exists u1 u2, s = u1 ++ u2 /\ denotes a u1 /\
                exists u3 u4, u2 = u3 ++ u4 /\ denotes b u3 /\ denotes c u4)
  end.
  split.
  - intros (u1 & u2 & -> & H1 & u3 & u4 & -> & H3 & H4).
    apply opt_sign_denotes in H1. apply mantissa_denotes in H3.
    apply exponent_denotes in H4. now exists u1, u3, u4.
  - intros (sg & m & e & -> & H1 & H2 & H3).
    apply opt_sign_denotes in H1. apply mantissa_denotes in H2.
    apply exponent_denotes in H3.
    exists sg, (m ++ e). repeat split; [exact H1 |].
    now exists m, e.
Qed.

Lemma fullmatch_re_int (s : string) : fullmatch re_int s = true <-> matches_int s.
Proof. rewrite fullmatch_denotes by reflexivity. apply re_int_denotes. Qed.

Lemma fullmatch_re_real (s : string) : fullmatch re_real s = true <-> matches_real s.
Proof. rewrite fullmatch_denotes by reflexivity. apply re_real_denotes. Qed.

Lemma digits_count (c : ascii) (s : string) :
  is_digit c = false -> digits s -> count_char c s = 0.
Proof. intros Hc Hs. now apply forall_chars_count with (p := is_digit). Qed.

Lemma iso_date_not_int (s : string) : iso_date s -> ~ matches_int s.
Proof.
  intros (y & m & d & -> & Hy & Hm & Hd & _) (sg & ds & E & Hs & Hds & _).
  apply (f_equal (count_char "-"%char)) in E.
  rewrite !count_char_app in E.
  rewrite (digits_count "-"%char y), (digits_count "-"%char m),
    (digits_count "-"%char d), (digits_count "-"%char ds) in E
    by (assumption || reflexivity).
  destruct Hs as [-> | [-> | ->]]; simpl in E; lia.
Qed.

Lemma iso_date_not_real (s : string) : iso_date s -> ~ matches_real s.
Proof.
  intros (y & m & d & -> & Hy & Hm & Hd & _)
         (sg & mt & e & E & Hs & (a & b & -> & Ha & Hb & _) & _).
  apply (f_equal (count_char "."%char)) in E.
  rewrite !count_char_app in E.
  rewrite (digits_count "."%char y), (digits_count "."%char m),
    (digits_count "."%char d) in E by (assumption || reflexivity).
  simpl in E. lia.
Qed.

Section InferType.

Variable F : Type.
Variable str_float : F -> string.

Lemma infer_type_text (s : string) :
  _infer_type str_float (PStr s)
  = if fullmatch re_int s then Ok "INTEGER"
    else if fullmatch re_real s then Ok "REAL" else Ok "TEXT".
Proof.
  unfold _infer_type, str_cell, rbind.
  destruct (fullmatch re_int s); [reflexivity |].
  destruct (fullmatch re_real s); [reflexivity |].
  now destruct (fullmatch re_iso_date s).
Qed.

(** C5.  On a sample text the inferencer answers INTEGER exactly when the
    text is an optional sign and digits, otherwise REAL exactly when it is
    an optional sign, digits with a decimal point and an optional
    exponent, and TEXT in every other case; an ISO date is TEXT. *)
Theorem C5_infer_type_by_pattern (s : string) :
  (_infer_type str_float (PStr s) = Ok "INTEGER" <-> matches_int s)
  /\ (_infer_type str_float (PStr s) = Ok "REAL"
      <-> ~ matches_int s /\ matches_real s)
  /\ (_infer_type str_float (PStr s) = Ok "TEXT"
      <-> ~ matches_int s /\ ~ matches_real s)
  /\ (iso_date s -> _infer_type str_float (PStr s) = Ok "TEXT").
Proof.
  rewrite infer_type_text.
  pose proof (fullmatch_re_int s) as Hi.
  pose proof (fullmatch_re_real s) as Hr.
  assert (Hiso : iso_date s -> fullmatch re_int s = false /\ fullmatch re_real s = false).
  { intros D. split.
    - destruct (fullmatch re_int s); [| reflexivity].
      exfalso. apply (iso_date_not_int s D). now apply Hi.
    - destruct (fullmatch re_real s); [| reflexivity].
      exfalso. apply (iso_date_not_real s D). now apply Hr. }
  destruct (fullmatch re_int s), (fullmatch re_real s);
    (split; [| split; [| split]]);
    try (intros D; destruct (Hiso D); congruence);
    intuition (discriminate || congruence).
Qed.

End InferType.

(** ** The guard of [execute_safe_select] *)

Lemma lstrip_split (s : string) :
  exists ws, s = ws ++ lstrip_chars is_space s /\ forall_chars is_space ws = true.
Proof.
  induction s as [|c s (ws & E & H)]; simpl.
  - now exists "".
  - destruct (is_space c) eqn:Hc.
    + exists (String c ws). simpl. now rewrite Hc, H, <- E.
    + now exists "".
Qed.

Lemma rstrip_split (p : ascii -> bool) (s : string) :
  exists ws, s = rstrip_chars p s ++ ws.
Proof.
  induction s as [|c s (ws & E)]; simpl.
  - now exists "".
  - destruct (rstrip_chars p s) as [|d r] eqn:Hr.
    + destruct (p c).
      * now exists (String c s).
      * exists ws. simpl in *. now rewrite <- E.
    + exists ws. simpl in *. now rewrite <- E.
Qed.

Lemma lstrip_spaces (ws s : string) :
  forall_chars is_space ws = true ->
  lstrip_chars is_space (ws ++ s) = lstrip_chars is_space s.
Proof.
  induction ws as [|c ws IH]; simpl; [reflexivity |].
  intros H. apply andb_true_iff in H as [Hc H]. rewrite Hc. now apply IH.
Qed.

Lemma rstrip_non_space (w s : string) :
  forall_chars non_space w = true ->
  rstrip_chars is_space (w ++ s) = w ++ rstrip_chars is_space s.
Proof.
  induction w as [|c w IH]; simpl; [reflexivity |].
  intros H. apply andb_true_iff in H as [Hc H]. rewrite (IH H).
  unfold non_space in Hc. apply negb_true_iff in Hc. rewrite Hc.
  now destruct (w ++ rstrip_chars is_space s).
Qed.

Lemma lower_app (a b : string) : lower (a ++ b) = lower a ++ lower b.
Proof. induction a as [|c a IH]; simpl; [reflexivity | now rewrite IH]. Qed.

Lemma startswith_app (p s : string) : startswith p (p ++ s) = true.
Proof.
  induction p as [|c p IH]; simpl; [reflexivity |].
  now rewrite Ascii.eqb_refl, IH.
Qed.

Lemma startswith_lower_split (kw : string) : forall s,
  startswith kw (lower s) = true -> exists w tl, s = w ++ tl /\ lower w = kw.
Proof.
  induction kw as [|k kw IH]; simpl; intros s H.
  - now exists "", s.
  - destruct s as [|c s]; simpl in H; [discriminate |].
    apply andb_true_iff in H as [Hc H]. apply Ascii.eqb_eq in Hc.
    destruct (IH s H) as (w & tl & -> & <-).
    exists (String c w), tl. simpl. now rewrite Hc.
Qed.

Lemma space_lower_char (c : ascii) : is_space (lower_char c) = is_space c.
Proof. each_char c. Qed.

Lemma non_space_lower (w : string) :
  forall_chars non_space (lower w) = true -> forall_chars non_space w = true.
Proof.
  induction w as [|c w IH]; simpl; [reflexivity |].
  unfold non_space at 1 3. rewrite space_lower_char.
  intros H. apply andb_true_iff in H as [-> H]. now apply IH.
Qed.

Lemma lstrip_non_space (w s : string) :
  w <> "" -> forall_chars non_space w = true ->
  lstrip_chars is_space (w ++ s) = w ++ s.
Proof.
  destruct w as [|c w]; [contradiction |]. simpl. intros _ H.
  apply andb_true_iff in H as [Hc _].
  unfold non_space in Hc. apply negb_true_iff in Hc. now rewrite Hc.
Qed.

(** The test of the guard says that the text, after leading blanks, begins
    with the letters of the keyword in any case. *)
Lemma guard_begins_with (kw sql : string) :
  kw <> "" -> forall_chars non_space kw = true ->
  (startswith kw (lower (strip sql)) = true <-> begins_with kw sql).
Proof.
  intros Hne Hkw. unfold strip, strip_chars, begins_with. split.
  - intros H. apply startswith_lower_split in H as (w & tl & E & Hw).
    destruct (lstrip_split sql) as (ws & Es & Hws).
    destruct (rstrip_split is_space (lstrip_chars is_space sql)) as (ws' & E').
    exists ws, w, (tl ++ ws'). split; [| now split].
    rewrite Es at 1. f_equal. rewrite E' at 1. rewrite E. apply append_assoc.
  - intros (ws & w & tl & -> & Hws & Hw).
    assert (Hnw : forall_chars non_space w = true)
      by (apply non_space_lower; now rewrite Hw).
    assert (w <> "") by (intros ->; simpl in Hw; congruence).
    rewrite lstrip_spaces, lstrip_non_space, rstrip_non_space by assumption.
    rewrite lower_app, Hw. apply startswith_app.
Qed.

Lemma select_or_with_iff (sql : string) :
  select_or_with sql = true <->
  begins_with "select" sql \/ begins_with "with" sql.
Proof.
  unfold select_or_with. rewrite orb_true_iff.
  rewrite !guard_begins_with by (discriminate || reflexivity). tauto.
Qed.

(** ** Reading the statement texts back *)

Lemma strip_prefix_app (p r : string) : strip_prefix p (p ++ r) = Some r.
Proof.
  induction p as [|c p IH]; simpl; [reflexivity |].
  now rewrite Ascii.eqb_refl.
Qed.

Lemma until_dquote_app (n r : string) :
  forall_chars (fun c => not_nul c && negb (Ascii.eqb c dquote_char)) n = true ->
  until_dquote (n ++ String dquote_char r) = Some (n, r).
Proof.
  induction n as [|c n IH]; simpl; intros H; [reflexivity |].
  apply andb_true_iff in H as [Hc H]. apply andb_true_iff in Hc as [_ Hc].
  apply negb_true_iff in Hc. rewrite Hc, (IH H). reflexivity.
Qed.

Lemma read_quoted_app (n r : string) :
  quotable n = true -> startswith dq r = false ->
  read_quoted (dq ++ n ++ dq ++ r) = Some (n, r).
Proof.
  unfold quotable. intros H Hr. apply andb_true_iff in H as [Hn H].
  change (dq ++ n ++ dq ++ r) with (String dquote_char (n ++ String dquote_char r)).
  unfold read_quoted. rewrite Ascii.eqb_refl, (until_dquote_app n r H), Hr.
  apply negb_true_iff in Hn. rewrite Hn.
  assert (Hnul : forall_chars not_nul n = true).
  { revert H. apply forall_chars_impl. intros c Hc.
    now apply andb_true_iff in Hc as [-> _]. }
  now rewrite Hnul.
Qed.

Lemma ident_char_quotable (c : ascii) :
  ident_char c = true -> not_nul c && negb (Ascii.eqb c dquote_char) = true.
Proof. destruct c as [[] [] [] [] [] [] [] []]; vm_compute; congruence. Qed.

Lemma good_table_name_quotable (n : string) :
  good_table_name n = true -> quotable n = true.
Proof.
  unfold good_table_name, quotable. intros H.
  repeat (apply andb_true_iff in H as [H ?]).
  destruct n as [|c n]; [discriminate |].
  apply andb_true_iff. split; [reflexivity |].
  match goal with Hi : forall_chars ident_char _ = true |- _ =>
    revert Hi; apply forall_chars_impl, ident_char_quotable end.
Qed.

Lemma good_table_name_not_reserved (n : string) :
  good_table_name n = true -> reserved_name n = false.
Proof.
  unfold good_table_name. intros H.
  repeat (apply andb_true_iff in H as [H ?]).
  now apply negb_true_iff.
Qed.

Lemma parse_drop_sql (n : string) :
  quotable n = true -> parse (drop_sql n) = Some (DropTableIfExists n).
Proof.
  intros H. unfold parse, parse_drop, drop_sql.
  rewrite strip_prefix_app.
  replace (dq ++ n ++ dq) with (dq ++ n ++ dq ++ "") by now rewrite append_empty_r.
  now rewrite read_quoted_app.
Qed.


Lemma read_type_app (t r : string) :
  type_word t -> read_type (t ++ r) = Some (t, r).
Proof. intros [-> | [-> | ->]]; reflexivity. Qed.

Lemma parse_coldefs_render (cts : list (string * string)) :
  cts <> [] -> Forall good_coldef cts ->
  forall fuel, List.length cts <= fuel ->
  parse_coldefs fuel (join ", " (map col_def cts) ++ ")") = Some cts.
Proof.
  induction cts as [|[c t] cts IH]; [congruence |].
  intros _ H fuel Hf. inversion H as [|? ? [Hc Ht] Hrest]; subst.
  simpl in Hc, Ht.
  destruct fuel as [|fuel]; [simpl in Hf; lia |].
  destruct cts as [|ct2 cts].
  - change (join ", " (map col_def [(c, t)])) with (dq ++ c ++ dq ++ " " ++ t).
    rewrite !append_assoc.
    cbn [parse_coldefs].
    rewrite read_quoted_app by (assumption || reflexivity).
    rewrite strip_prefix_app, (read_type_app t ")" Ht).
    reflexivity.
  - change (join ", " (map col_def ((c, t) :: ct2 :: cts)))
      with ((dq ++ c ++ dq ++ " " ++ t) ++ ", "
            ++ join ", " (map col_def (ct2 :: cts))).
    rewrite !append_assoc.
    cbn [parse_coldefs].
    rewrite read_quoted_app by (assumption || reflexivity).
    rewrite strip_prefix_app, (read_type_app t _ Ht), strip_prefix_app.
    rewrite IH; [reflexivity | discriminate | exact Hrest |].
    simpl in Hf |- *. lia.
Qed.

Lemma parse_names_render (cols : list string) (r : string) :
  cols <> [] -> forallb quotable cols = true ->
  forall fuel, List.length cols <= fuel ->
  parse_names fuel (join ", " (map quoted cols) ++ ")" ++ r) = Some (cols, r).
Proof.
  induction cols as [|c cols IH]; [congruence |].
  intros _ H fuel Hf. simpl in H. apply andb_true_iff in H as [Hc H].
  destruct fuel as [|fuel]; [simpl in Hf; lia |].
  destruct cols as [|c2 cols].
  - change (join ", " (map quoted [c])) with (dq ++ c ++ dq).
    rewrite !append_assoc.
    cbn [parse_names].
    rewrite read_quoted_app by (assumption || reflexivity).
    reflexivity.
  - change (join ", " (map quoted (c :: c2 :: cols)))
      with ((dq ++ c ++ dq) ++ ", " ++ join ", " (map quoted (c2 :: cols))).
    rewrite !append_assoc.
    cbn [parse_names].
    rewrite read_quoted_app by (assumption || reflexivity).
    rewrite strip_prefix_app.
    rewrite IH; [reflexivity | discriminate | exact H |].
    simpl in Hf |- *. lia.
Qed.

Lemma parse_marks_render (A : Type) (cols : list A) :
  cols <> [] ->
  forall fuel, List.length cols <= fuel ->
  parse_marks fuel (join ", " (map (fun _ => "?") cols) ++ ")")
  = Some (List.length cols).
Proof.
  induction cols as [|c cols IH]; [congruence |].
  intros _ fuel Hf.
  destruct fuel as [|fuel]; [simpl in Hf; lia |].
  destruct cols as [|c2 cols].
  - reflexivity.
  - change (join ", " (map (fun _ : A => "?") (c :: c2 :: cols)))
      with ("?" ++ ", " ++ join ", " (map (fun _ : A => "?") (c2 :: cols))).
    rewrite !append_assoc.
    cbn [parse_marks].
    rewrite strip_prefix_app, strip_prefix_app.
    rewrite IH; [reflexivity | discriminate |].
    simpl in Hf |- *. lia.
Qed.

Lemma length_join_ge (sep : string) (l : list string) :
  Forall (fun x => 1 <= length x) l -> List.length l <= length (join sep l).
Proof.
  induction l as [|x l IH]; intros H; [simpl; lia |].
  inversion H as [|? ? Hx Hl]; subst. specialize (IH Hl).
  destruct l as [|y l]; [simpl; lia |].
  change (join sep (x :: y :: l)) with (x ++ sep ++ join sep (y :: l)).
  rewrite !length_append. simpl List.length in *. lia.
Qed.

Lemma length_col_defs (cts : list (string * string)) :
  List.length cts <= length (join ", " (map col_def cts) ++ ")").
Proof.
  rewrite length_append.
  pose proof (length_join_ge ", " (map col_def cts)) as H.
  rewrite length_map in H. etransitivity; [apply H | lia].
  apply Forall_forall. intros x Hx. apply in_map_iff in Hx as (ct & <- & _).
  unfold col_def. simpl. lia.
Qed.

Lemma length_quoted_names (cols : list string) (r : string) :
  List.length cols <= length (join ", " (map quoted cols) ++ r).
Proof.
  rewrite length_append.
  pose proof (length_join_ge ", " (map quoted cols)) as H.
  rewrite length_map in H. etransitivity; [apply H | lia].
  apply Forall_forall. intros x Hx. apply in_map_iff in Hx as (c & <- & _).
  unfold quoted. simpl. lia.
Qed.

Lemma length_marks (A : Type) (cols : list A) (r : string) :
  List.length cols <= length (join ", " (map (fun _ => "?") cols) ++ r).
Proof.
  rewrite length_append.
  pose proof (length_join_ge ", " (map (fun _ : A => "?") cols)) as H.
  rewrite length_map in H. etransitivity; [apply H | lia].
  apply Forall_forall. intros x Hx. apply in_map_iff in Hx as (c & <- & _).
  simpl. lia.
Qed.

Lemma parse_create_sql (n : string) (cts : list (string * string)) :
  quotable n = true -> cts <> [] -> Forall good_coldef cts ->
  parse (create_sql n (join ", " (map col_def cts))) = Some (CreateTable n cts).
Proof.
  intros Hn Hne Hc. unfold parse.
  assert (E1 : parse_drop (create_sql n (join ", " (map col_def cts))) = None)
    by reflexivity.
  rewrite E1. unfold or_else at 1.
  unfold parse_create, create_sql.
  rewrite strip_prefix_app, read_quoted_app by (assumption || reflexivity).
  rewrite strip_prefix_app.
  rewrite parse_coldefs_render by (assumption || apply length_col_defs).
  destruct cts as [|[c t] cts]; [congruence |].
  assert (E2 : (join ", " (map col_def ((c, t) :: cts)) ++ ")" =? ")") = false).
  { destruct cts; reflexivity. }
  now rewrite E2.
Qed.

Lemma parse_insert_sql (n : string) (cols : list string) :
  quotable n = true -> cols <> [] -> forallb quotable cols = true ->
  parse (insert_sql n cols) = Some (InsertValues n cols (List.length cols)).
Proof.
  intros Hn Hne Hc. unfold parse.
  assert (E1 : parse_drop (insert_sql n cols) = None) by reflexivity.
  assert (E2 : parse_create (insert_sql n cols) = None) by reflexivity.
  rewrite E1, E2. unfold or_else at 1 2.
  unfold parse_insert, insert_sql.
  rewrite strip_prefix_app, read_quoted_app by (assumption || reflexivity).
  rewrite strip_prefix_app.
  change (") VALUES (" ++ join ", " (map (fun _ : string => "?") cols) ++ ")")
    with (")" ++ " VALUES (" ++ join ", " (map (fun _ : string => "?") cols) ++ ")").
  rewrite parse_names_render by (assumption || apply length_quoted_names).
  rewrite strip_prefix_app.
  rewrite parse_marks_render by (assumption || apply length_marks).
  reflexivity.
Qed.



Lemma substring_last_char (u : string) (c : ascii) :
  substring (length u) 1 (u ++ String c "") = String c "".
Proof. induction u as [|d u IH]; simpl; [reflexivity | exact IH]. Qed.

Lemma read_bare_name (n : string) :
  good_table_name n = true -> read_bare (n ++ ";") = Some n.
Proof.
  unfold good_table_name. intros H.
  repeat (apply andb_true_iff in H as [H ?]).
  destruct n as [|c n]; [discriminate |].
  unfold read_bare.
  change (String c n ++ ";") with (String c (n ++ ";")).
  cbv beta iota. rewrite H.
  change (String c (n ++ ";")) with (String c n ++ ";").
  rewrite length_append.
  replace (length (String c n) + length ";" - 1) with (length (String c n))
    by (simpl; lia).
  rewrite substring_0_app.
  rewrite (substring_last_char (String c n) ";"%char).
  match goal with Hi : forall_chars ident_char _ = true |- _ => rewrite Hi end.
  match goal with Hk : negb (mem_string _ keywords) = true |- _ => rewrite Hk end.
  reflexivity.
Qed.

Lemma parse_count_sql (n : string) :
  good_table_name n = true ->
  parse ("SELECT COUNT(*) AS count FROM " ++ n ++ ";") = Some (SelectCount n).
Proof.
  intros Hn. unfold parse.
  set (sql := "SELECT COUNT(*) AS count FROM " ++ n ++ ";").
  assert (E1 : parse_drop sql = None) by reflexivity.
  assert (E2 : parse_create sql = None) by reflexivity.
  assert (E3 : parse_insert sql = None) by reflexivity.
  assert (E4 : parse_pragma sql = None) by reflexivity.
  assert (E5 : parse_select_star sql = None) by reflexivity.
  rewrite E1, E2, E3, E4, E5. unfold or_else.
  unfold parse_count, sql.
  now rewrite strip_prefix_app, read_bare_name.
Qed.

(** ** The tables *)

Section StorageFacts.

Variable F : Type.
Variable stored_as : string -> pyvalue F -> sqlvalue F.

Lemma name_eqb_refl (n : string) : name_eqb n n = true.
Proof. unfold name_eqb. apply String.eqb_refl. Qed.

Lemma find_table_drop (n : string) (d : db F) :
  find_table n (drop_table n d) = None.
Proof.
  unfold find_table, drop_table. induction d as [|t d IH]; [reflexivity |].
  simpl. destruct (name_eqb n (tname t)) eqn:E; simpl; [exact IH |].
  now rewrite E.
Qed.

Lemma find_table_app_none (n : string) (d1 d2 : db F) :
  find_table n d1 = None -> find_table n (d1 ++ d2)%list = find_table n d2.
Proof.
  unfold find_table. induction d1 as [|t d IH]; [reflexivity |].
  simpl. destruct (name_eqb n (tname t)); [discriminate | exact IH].
Qed.

Lemma find_table_new (n : string) (d : db F) (t : table F) :
  tname t = n -> find_table n (drop_table n d ++ [t])%list = Some t.
Proof.
  intros E. rewrite find_table_app_none by apply find_table_drop.
  unfold find_table. simpl. now rewrite E, name_eqb_refl.
Qed.

Lemma drop_table_idem (n : string) (d : db F) :
  drop_table n (drop_table n d) = drop_table n d.
Proof.
  unfold drop_table. induction d as [|t d IH]; [reflexivity |].
  simpl. destruct (name_eqb n (tname t)) eqn:E; simpl; [exact IH |].
  now rewrite E, IH.
Qed.

Lemma drop_table_app (n : string) (d1 d2 : db F) :
  drop_table n (d1 ++ d2)%list = (drop_table n d1 ++ drop_table n d2)%list.
Proof. apply filter_app. Qed.

Lemma drop_table_new (n : string) (d : db F) (t : table F) :
  tname t = n -> drop_table n (drop_table n d ++ [t])%list = drop_table n d.
Proof.
  intros E. rewrite drop_table_app, drop_table_idem.
  unfold drop_table at 2. simpl. rewrite E, name_eqb_refl. simpl.
  apply app_nil_r.
Qed.

Lemma update_table_none (n : string) (f : table F -> table F) (d : db F) :
  find_table n d = None -> update_table n f d = d.
Proof.
  unfold find_table, update_table. induction d as [|t d IH]; [reflexivity |].
  simpl. destruct (name_eqb n (tname t)); [discriminate |].
  intros H. now rewrite IH.
Qed.

Lemma update_table_new (n : string) (f : table F -> table F) (d : db F)
  (t : table F) :
  tname t = n ->
  update_table n f (drop_table n d ++ [t])%list = (drop_table n d ++ [f t])%list.
Proof.
  intros E. unfold update_table at 1. rewrite map_app.
  fold (update_table n f (drop_table n d)).
  rewrite update_table_none by apply find_table_drop.
  simpl. now rewrite E, name_eqb_refl.
Qed.

Lemma list_eqb_refl (l : list string) : list_eqb l l = true.
Proof.
  induction l as [|x l IH]; [reflexivity |].
  simpl. now rewrite String.eqb_refl.
Qed.

(** *** The statements of the loader on the tables *)

Lemma exec_drop (n : string) (d : db F) :
  quotable n = true -> reserved_name n = false ->
  exec stored_as (drop_sql n) [] d = (Ok (no_rows F), drop_table n d).
Proof.
  intros Hq Hr. unfold exec. rewrite parse_drop_sql by assumption.
  simpl. now rewrite Hr.
Qed.

Lemma map_fst_combine (A B : Type) (l : list A) (l' : list B) :
  List.length l = List.length l' -> map fst (combine l l') = l.
Proof.
  revert l'. induction l as [|x l IH]; intros [|y l'] H; try discriminate;
    [reflexivity |].
  simpl. f_equal. apply IH. now inversion H.
Qed.

Lemma map_snd_combine (A B : Type) (l : list A) (l' : list B) :
  List.length l = List.length l' -> map snd (combine l l') = l'.
Proof.
  revert l'. induction l as [|x l IH]; intros [|y l'] H; try discriminate;
    [reflexivity |].
  simpl. f_equal. apply IH. now inversion H.
Qed.

Lemma exec_create (n : string) (cts : list (string * string)) (d : db F) :
  quotable n = true -> reserved_name n = false ->
  cts <> [] -> Forall good_coldef cts ->
  List.length cts <= max_columns ->
  first_dup [] (map fst cts) = None ->
  find_table n d = None ->
  exec stored_as (create_sql n (join ", " (map col_def cts))) [] d
  = (Ok (no_rows F), (d ++ [Table n cts []])%list).
Proof.
  intros Hq Hr Hne Hc Hlen Hdup Hfind. unfold exec.
  rewrite parse_create_sql by assumption.
  cbn [stmt_table]. rewrite Hr. unfold exec_stmt.
  destruct cts as [|ct cts]; [congruence |].
  destruct (Nat.ltb_spec max_columns (List.length (ct :: cts))); [lia |].
  now rewrite Hfind, Hdup.
Qed.

Lemma exec_insert (n : string) (cols : list string) (ps : list (pyvalue F))
  (t : table F) (d : db F) :
  quotable n = true -> reserved_name n = false ->
  cols <> [] -> forallb quotable cols = true ->
  find_table n d = Some t -> map fst (tcols t) = cols ->
  List.length ps = List.length cols ->
  exec stored_as (insert_sql n cols) ps d
  = if forallb (@bindable F) ps
    then (Ok (no_rows F),
          update_table n (add_row (store_row stored_as (map snd (tcols t)) ps)) d)
    else (Raise (OverflowError
                   "Python int too large to convert to SQLite INTEGER"), d).
Proof.
  intros Hq Hr Hne Hc Hfind Hcols Hlen. unfold exec.
  rewrite parse_insert_sql by assumption.
  cbn [stmt_table]. rewrite Hr. unfold exec_stmt. rewrite Hfind.
  replace (map (fun ct => ascii_lower (fst ct)) (tcols t))
    with (map ascii_lower cols)
    by (rewrite <- Hcols, map_map; reflexivity).
  rewrite list_eqb_refl, Nat.eqb_refl, Hlen, Nat.eqb_refl.
  reflexivity.
Qed.

Lemma exec_count (n : string) (d : db F) :
  good_table_name n = true ->
  exec stored_as ("SELECT COUNT(*) AS count FROM " ++ n ++ ";") [] d
  = match find_table n d with
    | None => (Raise (no_such_table n), d)
    | Some t =>
        (Ok (Cursor ["count"] [[SInt (Z.of_nat (List.length (trows t)))]]), d)
    end.
Proof.
  intros Hn. unfold exec. rewrite parse_count_sql by assumption.
  cbn [stmt_table]. now rewrite good_table_name_not_reserved.
Qed.



End StorageFacts.

(** ** The engine *)

Lemma int64_within_limit (z : Z) :
  in_int64 z = true -> (Z.abs z < int_str_bound)%Z.
Proof.
  unfold in_int64. intros H. apply andb_true_iff in H as [H1 H2].
  apply Z.leb_le in H1. apply Z.ltb_lt in H2.
  assert (Hb : (2 ^ 63 < int_str_bound)%Z).
  { unfold int_str_bound.
    apply Z.lt_le_trans with (10 ^ 63)%Z; [reflexivity |].
    apply Z.pow_le_mono_r; [lia |]. unfold int_max_str_digits. lia. }
  generalize dependent int_str_bound. intros b Hb. lia.
Qed.

Section EngineFacts.

Variable F : Type.
Variable str_float : F -> string.
Variable str_bytes : string -> string.
Variable stored_as : string -> pyvalue F -> sqlvalue F.
Variable str_dict : dict (sqlvalue F) -> string.

Lemma infer_text_word (s : string) :
  exists t, (if fullmatch re_int s then Ok "INTEGER"
             else if fullmatch re_real s then Ok "REAL"
             else if fullmatch re_iso_date s then Ok "TEXT" else Ok "TEXT")
            = Ok t /\ type_word t.
Proof.
  unfold type_word.
  destruct (fullmatch re_int s); [eauto |].
  destruct (fullmatch re_real s); [eauto |].
  destruct (fullmatch re_iso_date s); eauto.
Qed.

Lemma infer_type_ok (v : pyvalue F) :
  bindable v = true ->
  exists t, _infer_type str_float v = Ok t /\ type_word t.
Proof.
  intros Hb. destruct v as [| s | z | f]; unfold _infer_type, str_cell.
  - exists "TEXT". unfold type_word. auto.
  - unfold rbind. apply infer_text_word.
  - rewrite str_of_int_ok_abs by now apply int64_within_limit.
    unfold rbind. apply infer_text_word.
  - unfold rbind. apply infer_text_word.
Qed.

Lemma first_sample_bindable (c : string) (rows : list (record F)) :
  Forall (fun r => bindable (cell r c) = true) rows ->
  bindable (first_sample c rows) = true.
Proof.
  induction 1 as [|r rows Hr _ IH]; simpl; [reflexivity |].
  now destruct (is_blank (cell r c)).
Qed.

Lemma storable_forall (cols : list string) (rows : list (record F)) :
  storable cols rows = true ->
  Forall (fun c => Forall (fun r => bindable (cell r c) = true) rows) cols.
Proof.
  unfold storable. intros H. apply Forall_forall. intros c Hc.
  apply Forall_forall. intros r Hr.
  rewrite forallb_forall in H. specialize (H r Hr).
  rewrite forallb_forall in H. now apply H.
Qed.

Lemma infer_types_ok (cols : list string) (rows : list (record F)) :
  Forall (fun c => Forall (fun r => bindable (cell r c) = true) rows) cols ->
  exists types, infer_types str_float cols rows = Ok types
                /\ List.length types = List.length cols
                /\ Forall type_word types.
Proof.
  induction 1 as [|c cols Hc _ (types & E & Hl & Hw)]; simpl.
  - exists []. auto.
  - pose proof (first_sample_bindable c rows Hc) as Hb.
    destruct (infer_type_ok (first_sample c rows) Hb) as (t & Et & Ht).
    assert (E1 : match first_sample c rows with
                 | PNone => Ok "TEXT"
                 | _ => _infer_type str_float (first_sample c rows)
                 end = Ok t).
    { destruct (first_sample c rows); exact Et. }
    rewrite E1, E. simpl. exists (t :: types). simpl. auto.
Qed.

Lemma good_coldefs (cols types : list string) :
  forallb quotable cols = true -> Forall type_word types ->
  Forall good_coldef (combine cols types).
Proof.
  revert types. induction cols as [|c cols IH]; intros types Hq Ht; simpl;
    [constructor |].
  simpl in Hq. apply andb_true_iff in Hq as [Hc Hq].
  destruct types as [|t types]; [constructor |].
  inversion Ht; subst. constructor; [now split | now apply IH].
Qed.

Lemma execute_exec (sql : string) (ps : list (pyvalue F)) (c : connection F)
  (r : result (cursor F)) (d : db F) :
  exec stored_as sql ps (tables c) = (r, d) ->
  execute stored_as sql ps c = (r, Connection d (calls c ++ [sql])).
Proof. intros E. unfold execute. now rewrite E. Qed.

Lemma insert_loop (n : string) (cols types : list string) (d : db F) :
  quotable n = true -> reserved_name n = false ->
  cols <> [] -> forallb quotable cols = true ->
  List.length types = List.length cols ->
  forall (rows : list (record F)) (acc : list (list (sqlvalue F)))
         (c : connection F),
    storable cols rows = true ->
    tables c = (drop_table n d ++ [Table n (combine cols types) acc])%list ->
    exists c',
      for_each rows
        (fun r => bind (execute stored_as (insert_sql n cols) (map (cell r) cols))
                       (fun _ => ret tt)) c
      = (Ok tt, c')
      /\ tables c'
         = (drop_table n d
            ++ [Table n (combine cols types)
                      (acc ++ map (stored_row stored_as cols types) rows)])%list.
Proof.
  intros Hq Hr Hne Hc Hl.
  induction rows as [|r rows IH]; intros acc c Hs Ht.
  - exists c. simpl. rewrite app_nil_r. auto.
  - simpl in Hs. apply andb_true_iff in Hs as [Hb Hs].
    cbn [for_each]. unfold bind at 1 2.
    assert (Hb' : forallb (@bindable F) (map (cell r) cols) = true).
    { rewrite forallb_forall in *. intros v Hv.
      apply in_map_iff in Hv as (x & <- & Hx). now apply Hb. }
    rewrite (execute_exec _ _ _ (Ok (no_rows F))
               (drop_table n d
                ++ [Table n (combine cols types)
                          (acc ++ [stored_row stored_as cols types r])])%list).
    + unfold ret at 1.
      destruct (IH (acc ++ [stored_row stored_as cols types r])%list
                   (Connection
                      (drop_table n d
                       ++ [Table n (combine cols types)
                                 (acc ++ [stored_row stored_as cols types r])])%list
                      (calls c ++ [insert_sql n cols])%list) Hs eq_refl)
        as (c' & E & Et).
      exists c'. split; [exact E |].
      rewrite Et. simpl. now rewrite <- app_assoc.
    + rewrite Ht.
      rewrite (exec_insert F stored_as n cols (map (cell r) cols)
                 (Table n (combine cols types) acc)); try assumption.
      * rewrite Hb'. rewrite update_table_new by reflexivity.
        unfold add_row, stored_row. simpl.
        now rewrite map_snd_combine by (symmetry; exact Hl).
      * now apply find_table_new.
      * simpl. apply map_fst_combine. now symmetry.
      * apply length_map.
Qed.

End EngineFacts.

Section LoaderFacts.

Variable F : Type.
Variable str_float : F -> string.
Variable str_bytes : string -> string.
Variable stored_as : string -> pyvalue F -> sqlvalue F.
Variable str_dict : dict (sqlvalue F) -> string.

(** The tables after a load that the model answers for: the old table of
    the name is gone and the new one holds one stored row per record. *)
Lemma load_rows_ok (self : SimpleSQLite F) (rows : list (record F)) :
  loadable (table_name self) rows = true ->
  exists r0 rest types self',
    rows = r0 :: rest
    /\ infer_types str_float (dict_keys r0) rows = Ok types
    /\ List.length types = List.length (dict_keys r0)
    /\ load_rows str_float stored_as self rows = (Ok tt, self')
    /\ table_name self' = table_name self
    /\ tables (conn self')
       = (drop_table (table_name self) (tables (conn self))
          ++ [Table (table_name self) (combine (dict_keys r0) types)
                    (map (stored_row stored_as (dict_keys r0) types) rows)])%list.
Proof.
  unfold loadable. intros H. apply andb_true_iff in H as [Hn H].
  destruct rows as [|r0 rest]; [discriminate |].
  apply andb_true_iff in H as [Hh Hs].
  unfold good_header in Hh.
  repeat (apply andb_true_iff in Hh as [Hh ?]).
  apply Nat.leb_le in Hh.
  match goal with H : Nat.leb _ max_columns = true |- _ => apply Nat.leb_le in H end.
  assert (Hne : dict_keys r0 <> [])
    by (intros E; rewrite E in Hh; simpl in Hh; lia).
  assert (Hdup : first_dup [] (dict_keys r0) = None)
    by (destruct (first_dup [] (dict_keys r0)); [discriminate | reflexivity]).
  pose proof (good_table_name_quotable _ Hn) as Hq.
  pose proof (good_table_name_not_reserved _ Hn) as Hr.
  destruct (infer_types_ok F str_float (dict_keys r0) (r0 :: rest)
              (storable_forall F _ _ Hs))
    as (types & Et & Hl & Hw).
  exists r0, rest, types.
  unfold load_rows. rewrite Et.
  unfold on_conn, load_body. unfold bind at 1.
  rewrite (execute_exec F stored_as _ _ _ _ _
             (exec_drop F stored_as _ (tables (conn self)) Hq Hr)).
  cbv beta iota. unfold bind at 1.
  rewrite (execute_exec F stored_as _ _ _ (Ok (no_rows F))
             (drop_table (table_name self) (tables (conn self))
              ++ [Table (table_name self) (combine (dict_keys r0) types) []])%list).
  2:{ cbn [tables]. apply exec_create; try assumption.
      - intros E. apply Hne. apply (f_equal (map fst)) in E.
        rewrite map_fst_combine in E by (symmetry; exact Hl). exact E.
      - now apply good_coldefs.
      - rewrite length_combine, Hl, Nat.min_id. assumption.
      - rewrite map_fst_combine by (symmetry; exact Hl). exact Hdup.
      - apply find_table_drop. }
  cbv beta iota. unfold bind at 1.
  match goal with
  | |- context [for_each (r0 :: rest) ?body ?c] =>
      destruct (insert_loop F stored_as (table_name self) (dict_keys r0) types
                  (tables (conn self)) Hq Hr Hne
                  ltac:(assumption) Hl (r0 :: rest) [] c Hs eq_refl)
        as (c' & E & Etab)
  end.
  rewrite E. cbv beta iota. unfold commit, ret.
  eexists. repeat split; try reflexivity; try assumption.
Qed.

Lemma select_or_with_count (n : string) :
  select_or_with ("SELECT COUNT(*) AS count FROM " ++ n ++ ";") = true.
Proof.
  apply select_or_with_iff. left.
  exists "", "SELECT", (" COUNT(*) AS count FROM " ++ n ++ ";").
  now repeat split.
Qed.

(** C3 (amended).  When the table name is a plain identifier, the first
    record has between one and 999 quotable column names that differ up to
    ASCII case, and every integer cell fits 64 bits, the load succeeds and
    the count statement then returns one row whose count is the number of
    records. *)
Theorem C3_load_then_count (self : SimpleSQLite F) (rows : list (record F)) :
  loadable (table_name self) rows = true ->
  exists self1 self2,
    load_rows str_float stored_as self rows = (Ok tt, self1)
    /\ execute_safe_select stored_as self1
         ("SELECT COUNT(*) AS count FROM " ++ table_name self ++ ";")
       = (Ok (["count"], [[("count", SInt (Z.of_nat (List.length rows)))]]),
          self2).
Proof.
  intros H.
  destruct (load_rows_ok self rows H)
    as (r0 & rest & types & self1 & -> & _ & _ & El & En & Et).
  exists self1. eexists. split; [exact El |].
  unfold execute_safe_select. rewrite select_or_with_count.
  cbn [negb]. unfold on_conn, bind.
  unfold loadable in H. apply andb_true_iff in H as [Hn _].
  unfold execute. rewrite exec_count by exact Hn.
  rewrite Et, find_table_new by reflexivity.
  cbv beta iota. unfold ret. cbn [description fetched trows].
  rewrite length_map. reflexivity.
Qed.




End LoaderFacts.

(** ** Every outcome of the loader's statements *)

Lemma until_dquote_last (n : string) : forall m,
  until_dquote (n ++ String dquote_char "") = Some (m, "") ->
  m = n /\ forall_chars (fun c => negb (Ascii.eqb c dquote_char)) n = true.
Proof.
  induction n as [|c n IH]; simpl; intros m H.
  - inversion H. auto.
  - destruct (Ascii.eqb c dquote_char) eqn:E.
    + inversion H as [[Hm Hr]]. destruct n; discriminate.
    + destruct (until_dquote (n ++ String dquote_char "")) as [[m' r]|];
        [| discriminate].
      inversion H; subst. destruct (IH m' eq_refl) as [-> Hn].
      simpl. now rewrite Hn.
Qed.

Lemma read_quoted_last (n m : string) :
  read_quoted (dq ++ n ++ dq) = Some (m, "") -> m = n /\ quotable n = true.
Proof.
  change (dq ++ n ++ dq) with (String dquote_char (n ++ String dquote_char "")).
  unfold read_quoted. rewrite Ascii.eqb_refl.
  destruct (until_dquote (n ++ String dquote_char "")) as [[m' r]|] eqn:E;
    [| discriminate].
  destruct (m' =? "") eqn:Em; [discriminate |].
  destruct (forall_chars not_nul m') eqn:En; [| discriminate].
  destruct (startswith dq r); [discriminate |]. simpl.
  intros [= <- ->]. apply until_dquote_last in E as [-> Hd].
  split; [reflexivity |]. unfold quotable. rewrite Em. simpl.
  clear Em. induction n as [|c n IH]; [reflexivity |].
  simpl in *. apply andb_true_iff in En as [-> En].
  apply andb_true_iff in Hd as [-> Hd]. simpl. now apply IH.
Qed.

Lemma parse_drop_cases (n : string) :
  parse (drop_sql n) = None
  \/ (parse (drop_sql n) = Some (DropTableIfExists n) /\ quotable n = true).
Proof.
  assert (Hrest : forall s, s = drop_sql n ->
            parse s = or_else (parse_drop s) None).
  { intros s ->. unfold parse. f_equal. }
  rewrite (Hrest _ eq_refl).
  unfold parse_drop, drop_sql. rewrite strip_prefix_app.
  destruct (read_quoted (dq ++ n ++ dq)) as [[m r]|] eqn:E; [| now left].
  destruct r; [| now left].
  apply read_quoted_last in E as [-> Hq]. right. now split.
Qed.

Lemma parse_create_cases (n cd : string) :
  quotable n = true ->
  parse (create_sql n cd) = None
  \/ exists cts, parse (create_sql n cd) = Some (CreateTable n cts).
Proof.
  intros Hq.
  assert (Hrest : forall s, s = create_sql n cd ->
            parse s = or_else (parse_create s) None).
  { intros s ->. unfold parse.
    change (parse_drop (create_sql n cd)) with (@None stmt).
    unfold or_else at 1. f_equal. }
  rewrite (Hrest _ eq_refl).
  unfold parse_create, create_sql.
  rewrite strip_prefix_app, read_quoted_app by (assumption || reflexivity).
  rewrite strip_prefix_app.
  destruct (cd ++ ")" =? ")"); [right; now eexists |].
  destruct (parse_coldefs _ _) as [cts|]; [right; now eexists | now left].
Qed.

Lemma parse_insert_cases (n : string) (cols : list string) :
  quotable n = true ->
  parse (insert_sql n cols) = None
  \/ exists cs k, parse (insert_sql n cols) = Some (InsertValues n cs k).
Proof.
  intros Hq.
  assert (Hrest : forall s, s = insert_sql n cols ->
            parse s = or_else (parse_insert s) None).
  { intros s ->. unfold parse.
    change (parse_drop (insert_sql n cols)) with (@None stmt).
    change (parse_create (insert_sql n cols)) with (@None stmt).
    unfold or_else at 1 2. f_equal. }
  rewrite (Hrest _ eq_refl).
  unfold parse_insert, insert_sql.
  rewrite strip_prefix_app, read_quoted_app by (assumption || reflexivity).
  rewrite strip_prefix_app.
  destruct (parse_names _ _) as [[cs r]|]; [| now left].
  destruct (strip_prefix " VALUES (" r) as [r'|]; [| now left].
  destruct (parse_marks _ _) as [k|]; [right; now do 2 eexists | now left].
Qed.

Section Outcomes.

Variable F : Type.
Variable stored_as : string -> pyvalue F -> sqlvalue F.

Lemma exec_drop_cases (n : string) (d : db F) :
  (exec stored_as (drop_sql n) [] d = (Ok (no_rows F), drop_table n d)
   /\ quotable n = true /\ reserved_name n = false)
  \/ exec stored_as (drop_sql n) [] d = (Unmodelled, d).
Proof.
  unfold exec.
  destruct (parse_drop_cases n) as [-> | [-> Hq]]; [now right |].
  cbn [stmt_table]. destruct (reserved_name n) eqn:Hr; [now right |].
  left. now repeat split.
Qed.

Lemma exec_create_cases (n cd : string) (d : db F) :
  quotable n = true ->
  (exists cts, exec stored_as (create_sql n cd) [] d
               = (Ok (no_rows F), (d ++ [Table n cts []])%list))
  \/ (exists r, exec stored_as (create_sql n cd) [] d = (r, d) /\ is_ok r = false).
Proof.
  intros Hq. unfold exec.
  destruct (parse_create_cases n cd Hq) as [-> | [cts ->]];
    [right; now eexists |].
  cbn [stmt_table]. destruct (reserved_name n); [right; now eexists |].
  unfold exec_stmt. destruct cts as [|ct cts]; [right; now eexists |].
  destruct (max_columns <? _)%nat; [right; now eexists |].
  destruct (find_table n d); [right; now eexists |].
  destruct (first_dup _ _); [right; now eexists |].
  left. now eexists.
Qed.

Lemma exec_insert_cases (n : string) (cols : list string)
  (ps : list (pyvalue F)) (d : db F) :
  quotable n = true ->
  (exists row, exec stored_as (insert_sql n cols) ps d
               = (Ok (no_rows F), update_table n (add_row row) d))
  \/ (exists r, exec stored_as (insert_sql n cols) ps d = (r, d) /\ is_ok r = false).
Proof.
  intros Hq. unfold exec.
  destruct (parse_insert_cases n cols Hq) as [-> | (cs & k & ->)];
    [right; now eexists |].
  cbn [stmt_table]. destruct (reserved_name n); [right; now eexists |].
  unfold exec_stmt. destruct (find_table n d) as [t|]; [| right; now eexists].
  destruct (_ && _ && _); [| right; now eexists].
  destruct (forallb _ ps); [left; now eexists | right; now eexists].
Qed.

Lemma load_body_tail (n : string) (cols types : list string)
  (rows : list (record F)) :
  load_body stored_as n cols types rows
  = bind (execute stored_as (drop_sql n) []) (fun _ => load_tail stored_as n cols types rows).
Proof. reflexivity. Qed.

Lemma insert_loop_cases (n : string) (cols : list string) (d : db F)
  (cts : list (string * string)) :
  quotable n = true ->
  forall (rows : list (record F)) (acc : list (list (sqlvalue F)))
         (c : connection F),
    tables c = (drop_table n d ++ [Table n cts acc])%list ->
    exists r c' acc',
      for_each rows (insert_one stored_as n cols) c = (r, c')
      /\ tables c' = (drop_table n d ++ [Table n cts (acc ++ acc')])%list
      /\ (if is_ok r then List.length acc' = List.length rows
          else List.length acc' < List.length rows).
Proof.
  intros Hq. induction rows as [|r0 rows IH]; intros acc c Ht.
  - exists (Ok tt), c, []. simpl. now rewrite app_nil_r.
  - cbn [for_each]. unfold bind at 1. unfold insert_one at 1.
    unfold bind at 1. unfold execute at 1.
    destruct (exec_insert_cases n cols
                (map (cell r0) cols) (tables c) Hq)
      as [[row E] | (r & E & Hr)].
    + rewrite E. cbv beta iota. unfold ret at 1. cbv beta iota.
      rewrite Ht, update_table_new by reflexivity.
      match goal with
      | |- context [for_each rows _ ?c1] =>
          destruct (IH (acc ++ [row])%list c1 eq_refl)
            as (r & c' & acc' & E' & Et & Hlen)
      end.
      exists r, c', (row :: acc'). rewrite E'.
      split; [reflexivity |]. split.
      * rewrite Et. unfold add_row. simpl. now rewrite <- app_assoc.
      * destruct (is_ok r); simpl; lia.
    + rewrite E. destruct r as [x | e |]; [discriminate | |].
      * eexists (Raise e), _, []. split; [reflexivity |].
        cbn [tables]. rewrite app_nil_r. split; [exact Ht | simpl; lia].
      * eexists Unmodelled, _, []. split; [reflexivity |].
        cbn [tables]. rewrite app_nil_r. split; [exact Ht | simpl; lia].
Qed.

Lemma load_tail_cases (n : string) (cols types : list string)
  (rows : list (record F)) (d : db F) (c : connection F) :
  quotable n = true -> tables c = drop_table n d ->
  exists r c',
    load_tail stored_as n cols types rows c = (r, c')
    /\ ((tables c' = drop_table n d /\ is_ok r = false)
        \/ exists cts acc,
             tables c' = (drop_table n d ++ [Table n cts acc])%list
             /\ (if is_ok r then List.length acc = List.length rows
                 else List.length acc < List.length rows)).
Proof.
  intros Hq Ht. unfold load_tail. unfold bind at 1. unfold execute at 1.
  destruct (exec_create_cases n (join ", " (map col_def (combine cols types)))
              (tables c) Hq) as [[cts E] | (r & E & Hr)].
  - rewrite E. cbv beta iota. unfold bind at 1.
    match goal with
    | |- context [for_each rows _ ?c1] =>
        destruct (insert_loop_cases n cols d cts Hq rows [] c1) as
          (r & c' & acc & El & Et & Hlen);
          [cbn [tables]; now rewrite Ht |]
    end.
    rewrite El. destruct r as [[] | e |]; cbv beta iota;
      (eexists _, _; split; [reflexivity |]; right; exists cts, acc;
       split; [exact Et | exact Hlen]).
  - rewrite E. destruct r as [x | e |]; [discriminate | |];
      (eexists _, _; split; [reflexivity |]; left; now split).
Qed.

Lemma blind_execute (sql : string) (ps : list (pyvalue F)) :
  blind (execute stored_as sql ps).
Proof.
  intros c1 c2 E. unfold execute. rewrite E.
  now destruct (exec stored_as sql ps (tables c2)).
Qed.

Lemma blind_ret (A : Type) (a : A) : blind (ret (F:=F) a).
Proof. intros c1 c2 E. now split. Qed.

Lemma blind_bind (A B : Type) (m : M F A) (f : A -> M F B) :
  blind m -> (forall a, blind (f a)) -> blind (bind m f).
Proof.
  intros Hm Hf c1 c2 E. unfold bind.
  destruct (Hm c1 c2 E) as [Hr Ht].
  destruct (m c1) as [r1 c1'], (m c2) as [r2 c2']. simpl in Hr, Ht. subst r2.
  destruct r1 as [a | e |]; [now apply Hf | now split | now split].
Qed.

Lemma blind_for_each (A : Type) (l : list A) (body : A -> M F unit) :
  (forall a, blind (body a)) -> blind (for_each l body).
Proof.
  intros Hb. induction l as [|x l IH]; [apply blind_ret |].
  apply blind_bind; [apply Hb | intros _; exact IH].
Qed.

Lemma blind_load_tail (n : string) (cols types : list string)
  (rows : list (record F)) : blind (load_tail stored_as n cols types rows).
Proof.
  apply blind_bind; [apply blind_execute | intros _].
  apply blind_bind; [| intros _; apply blind_ret].
  apply blind_for_each. intros r.
  apply blind_bind; [apply blind_execute | intros _; apply blind_ret].
Qed.

Lemma blind_load_body (n : string) (cols types : list string)
  (rows : list (record F)) : blind (load_body stored_as n cols types rows).
Proof.
  rewrite load_body_tail.
  apply blind_bind; [apply blind_execute | intros _; apply blind_load_tail].
Qed.

(** Every run of the part of [load_rows] under the lock: the DROP is
    either not answered by the model, or it removes the table and what
    follows installs nothing, or a table with a row per record on success
    and with fewer rows on failure. *)
Lemma load_body_cases (n : string) (cols types : list string)
  (rows : list (record F)) (c : connection F) :
  (fst (load_body stored_as n cols types rows c) = Unmodelled
   /\ tables (snd (load_body stored_as n cols types rows c)) = tables c)
  \/ (quotable n = true /\ reserved_name n = false /\
      exists r c',
        load_body stored_as n cols types rows c = (r, c')
        /\ ((tables c' = drop_table n (tables c) /\ is_ok r = false)
            \/ exists cts acc,
                 tables c' = (drop_table n (tables c) ++ [Table n cts acc])%list
                 /\ (if is_ok r then List.length acc = List.length rows
                     else List.length acc < List.length rows))).
Proof.
  rewrite load_body_tail. unfold bind at 1 2 3. unfold execute at 1 2 3.
  destruct (exec_drop_cases n (tables c)) as [(E & Hq & Hr) | E]; rewrite E.
  - right. split; [exact Hq |]. split; [exact Hr |]. cbv beta iota.
    match goal with
    | |- context [load_tail _ _ _ _ _ ?c1] =>
        destruct (load_tail_cases n cols types rows (tables c) c1 Hq eq_refl)
          as (r & c' & El & Hcases)
    end.
    exists r, c'. split; [exact El | exact Hcases].
  - left. now split.
Qed.

End Outcomes.

Section ClaimsOnTheEngine.

Variable F : Type.
Variable str_float : F -> string.
Variable stored_as : string -> pyvalue F -> sqlvalue F.

(** *** The guard *)

Lemma exec_raise_not_unsafe (sql : string) (ps : list (pyvalue F)) (d : db F) :
  fst (exec stored_as sql ps d) <> Raise UnsafeQueryError.
Proof.
  unfold exec. destruct (parse sql) as [st|]; [| discriminate].
  destruct (reserved_name (stmt_table st)); [discriminate |].
  assert (H : fst (exec_stmt stored_as st ps d) <> Raise UnsafeQueryError).
  { unfold exec_stmt. destruct st as [n | n cols | n cols k | n | n lim | n].
    - discriminate.
    - destruct cols; [discriminate |].
      destruct (_ <? _)%nat; [discriminate |].
      destruct (find_table n d); [discriminate |].
      destruct (first_dup _ _); discriminate.
    - destruct (find_table n d); [| discriminate].
      destruct (_ && _ && _); [| discriminate].
      destruct (forallb _ ps); discriminate.
    - destruct (find_table n d); discriminate.
    - destruct (find_table n d); [| discriminate].
      destruct (in_int64 lim); discriminate.
    - destruct (find_table n d); discriminate. }
  destruct st, ps; (exact H || discriminate).
Qed.

(** C2 (amended).  The guard is a test on the first characters: a
    statement passes exactly when, after its leading blanks, it begins with
    the letters s-e-l-e-c-t or w-i-t-h in any case.  A statement that does
    not pass is refused with the guard's error and the engine is left as
    it was, no statement having reached the storage; a statement that
    passes is handed to the storage.  The three statements of the
    specification are refused. *)
Theorem C2_guard_is_a_prefix_test (self : SimpleSQLite F) (sql : string) :
  (select_or_with sql = true
   <-> begins_with "select" sql \/ begins_with "with" sql)
  /\ (select_or_with sql = false ->
      execute_safe_select stored_as self sql = (Raise UnsafeQueryError, self))
  /\ (select_or_with sql = true ->
      calls (conn (snd (execute_safe_select stored_as self sql)))
      = (calls (conn self) ++ [sql])%list
      /\ fst (execute_safe_select stored_as self sql) <> Raise UnsafeQueryError)
  /\ execute_safe_select stored_as self "DROP TABLE sales;"
     = (Raise UnsafeQueryError, self)
  /\ execute_safe_select stored_as self "DELETE FROM sales;"
     = (Raise UnsafeQueryError, self)
  /\ execute_safe_select stored_as self "; SELECT 1;"
     = (Raise UnsafeQueryError, self).
Proof.
  split; [apply select_or_with_iff |].
  split; [intros H; unfold execute_safe_select; now rewrite H |].
  split; [| repeat split].
  intros H. unfold execute_safe_select. rewrite H. cbn [negb].
  unfold on_conn, bind, execute.
  pose proof (exec_raise_not_unsafe sql [] (tables (conn self))) as Hne.
  destruct (exec stored_as sql [] (tables (conn self))) as [[cur | e |] d];
    cbn [fst snd conn calls] in *; split; try reflexivity; try discriminate.
  intros [= He]. apply Hne. now rewrite He.
Qed.

(** *** Loads that fail *)

(** C4 (amended).  A load of no records raises the empty-input error and
    leaves the engine as it was, so a prior table stays intact.  A load
    that raises later has left the engine unchanged (the failure came
    before the first statement), or without a table of its name, or with a
    table of that name that holds fewer rows than there were records. *)
Theorem C4_empty_load_and_failed_loads
  (self : SimpleSQLite F) (rows : list (record F)) :
  load_rows str_float stored_as self [] = (Raise EmptyInputError, self)
  /\ (forall e self',
        load_rows str_float stored_as self rows = (Raise e, self') ->
        self' = self \/ no_table self' \/ partly_filled self' rows).
Proof.
  split; [reflexivity |].
  intros e self'. unfold load_rows.
  destruct rows as [|r0 rest]; [intros [= _ <-]; now left |].
  destruct (infer_types str_float (dict_keys r0) (r0 :: rest)) as [types | e' |];
    [| intros [= _ <-]; now left | discriminate].
  unfold on_conn.
  destruct (load_body_cases F stored_as (table_name self) (dict_keys r0) types
              (r0 :: rest) (conn self))
    as [[Hu _] | (Hq & Hr & r & c' & E & Hc)].
  - destruct (load_body _ _ _ _ _ _) as [r c']. simpl in Hu. subst r.
    discriminate.
  - rewrite E. intros [= -> <-]. right.
    destruct Hc as [[Ht _] | (cts & acc & Ht & Hlen)].
    + left. unfold no_table. cbn [table_name conn]. rewrite Ht.
      apply find_table_drop.
    + right. exists (Table (table_name self) cts acc). cbn [table_name conn].
      rewrite Ht. split; [now apply find_table_new | exact Hlen].
Qed.

(** *** Loading twice *)

Lemma load_body_twice (n : string) (cols types : list string)
  (rows : list (record F)) (c : connection F) :
  fst (load_body stored_as n cols types rows
         (snd (load_body stored_as n cols types rows c)))
  = fst (load_body stored_as n cols types rows c)
  /\ tables (snd (load_body stored_as n cols types rows
                    (snd (load_body stored_as n cols types rows c))))
     = tables (snd (load_body stored_as n cols types rows c)).
Proof.
  destruct (load_body_cases F stored_as n cols types rows c)
    as [[Hu Ht] | (Hq & Hr & r & c' & E & Hc)].
  - destruct (blind_load_body F stored_as n cols types rows _ _ Ht) as [H1 H2].
    split; [exact H1 | now rewrite H2].
  - rewrite E. cbn [fst snd].
    assert (Hd : drop_table n (tables c') = drop_table n (tables c)).
    { destruct Hc as [[-> _] | (cts & acc & -> & _)].
      - apply drop_table_idem.
      - now apply drop_table_new. }
    rewrite load_body_tail in E |- *.
    unfold bind at 1 in E. unfold bind at 1 2.
    rewrite (execute_exec F stored_as _ _ _ _ _
               (exec_drop F stored_as n (tables c) Hq Hr)) in E.
    rewrite (execute_exec F stored_as _ _ _ _ _
               (exec_drop F stored_as n (tables c') Hq Hr)).
    cbv beta iota in E |- *.
    match type of E with
    | load_tail _ _ _ _ _ ?c0 = _ =>
        match goal with
        | |- context [load_tail _ _ _ _ _ ?c1] =>
            destruct (blind_load_tail F stored_as n cols types rows c1 c0)
              as [H1 H2]; [cbn [tables]; exact Hd |]
        end
    end.
    rewrite E in H1, H2. cbn [fst snd] in H1, H2. now split.
Qed.

(** C8.  Loading the same records a second time, right after the first,
    gives the result of the first load and leaves the tables the first
    load left: the table of the engine has the same columns in the same
    order with the same types, and the same number of rows; after a load
    that succeeded that number is the number of records. *)
Theorem C8_load_is_idempotent (self : SimpleSQLite F) (rows : list (record F)) :
  fst (load_rows str_float stored_as
         (snd (load_rows str_float stored_as self rows)) rows)
  = fst (load_rows str_float stored_as self rows)
  /\ schema_of (snd (load_rows str_float stored_as
                       (snd (load_rows str_float stored_as self rows)) rows))
     = schema_of (snd (load_rows str_float stored_as self rows))
  /\ row_count (snd (load_rows str_float stored_as
                       (snd (load_rows str_float stored_as self rows)) rows))
     = row_count (snd (load_rows str_float stored_as self rows))
  /\ (fst (load_rows str_float stored_as self rows) = Ok tt ->
      row_count (snd (load_rows str_float stored_as self rows))
      = Some (List.length rows)).
Proof.
  unfold load_rows.
  destruct rows as [|r0 rest]; [repeat split; discriminate |].
  destruct (infer_types str_float (dict_keys r0) (r0 :: rest)) as [types | e' |];
    [| rewrite ?E; repeat split; discriminate
     | rewrite ?E; repeat split; discriminate].
  unfold on_conn.
  pose proof (load_body_twice (table_name self) (dict_keys r0) types
                (r0 :: rest) (conn self)) as [H1 H2].
  pose proof (load_body_cases F stored_as (table_name self) (dict_keys r0) types
                (r0 :: rest) (conn self)) as Hc.
  destruct (load_body stored_as (table_name self) (dict_keys r0) types
              (r0 :: rest) (conn self)) as [r c1].
  cbn [fst snd table_name conn] in *.
  destruct (load_body stored_as (table_name self) (dict_keys r0) types
              (r0 :: rest) c1) as [r' c2].
  cbn [fst snd] in *. unfold schema_of, row_count. cbn [table_name conn].
  rewrite H2. repeat split; try assumption.
  intros ->. destruct Hc as [[Hu _] | (Hq & Hr & r & c' & [= <- <-] & Hc)];
    [discriminate |].
  destruct Hc as [[_ Hf] | (cts & acc & -> & Hlen)]; [discriminate |].
  rewrite find_table_new by reflexivity. simpl in *. now rewrite Hlen.
Qed.

End ClaimsOnTheEngine.

(** ** The claims on concrete inputs *)

(** C2, as stated, fails on a statement whose first keyword is WITHOUT: it
    is neither SELECT nor WITH, yet the statement passes the guard and
    reaches the storage. *)
Lemma C2_counterexample :
  first_keyword_select_or_with "WITHOUT x" = false
  /\ fst (Sample.select Sample.sales "WITHOUT x") <> Raise UnsafeQueryError
  /\ calls (conn (snd (Sample.select Sample.sales "WITHOUT x"))) = ["WITHOUT x"].
Proof.
  split; [reflexivity |]. split; [vm_compute; discriminate | reflexivity].
Qed.

(** C3, as stated, fails on records whose column names differ only in
    case, and on a record without columns: CREATE TABLE is refused, the
    load raises, and the count statement finds no table. *)
Lemma C3_counterexample :
  (fst (Sample.load Sample.sales Sample.case_clash)
   = Raise (OperationalError "duplicate column name: a")
   /\ fst (Sample.select (snd (Sample.load Sample.sales Sample.case_clash))
                         "SELECT COUNT(*) AS count FROM sales;")
      = Raise (OperationalError "no such table: sales"))
  /\ (fst (Sample.load Sample.sales Sample.no_columns)
      = Raise (syntax_error ")")
      /\ fst (Sample.select (snd (Sample.load Sample.sales Sample.no_columns))
                            "SELECT COUNT(*) AS count FROM sales;")
         = Raise (OperationalError "no such table: sales")).
Proof. repeat split; vm_compute; reflexivity. Qed.

(** The sample table and two of its records meet the conditions of C3. *)
Lemma C3_witness :
  loadable (table_name Sample.sales) Sample.two_rows = true
  /\ exists self1 self2,
       load_rows Sample.str_float Sample.stored_as Sample.sales Sample.two_rows
       = (Ok tt, self1)
       /\ execute_safe_select Sample.stored_as self1
            ("SELECT COUNT(*) AS count FROM " ++ table_name Sample.sales ++ ";")
          = (Ok (["count"],
                 [[("count", SInt (Z.of_nat (List.length Sample.two_rows)))]]),
             self2).
Proof.
  assert (H : loadable (table_name Sample.sales) Sample.two_rows = true)
    by (vm_compute; reflexivity).
  split; [exact H |].
  exact (C3_load_then_count Sample.float Sample.str_float Sample.stored_as
           Sample.sales Sample.two_rows H).
Defined.

(** C4, as stated, fails on both kinds of late failure.  With a table of
    one row installed, a load of records whose columns differ only in case
    raises at CREATE TABLE and leaves no table; a load whose second record
    cannot be bound raises at the second INSERT and leaves a table with one
    row.  In neither case is the prior table intact or the new one
    complete. *)
Lemma C4_counterexample :
  (fst (Sample.load Sample.loaded_sales Sample.case_clash)
   = Raise (OperationalError "duplicate column name: a")
   /\ ~ prior_intact Sample.loaded_sales
          (snd (Sample.load Sample.loaded_sales Sample.case_clash))
   /\ ~ fully_replaced (snd (Sample.load Sample.loaded_sales Sample.case_clash))
          Sample.case_clash)
  /\ (fst (Sample.load Sample.loaded_sales Sample.big_int)
      = Raise (OverflowError "Python int too large to convert to SQLite INTEGER")
      /\ ~ prior_intact Sample.loaded_sales
             (snd (Sample.load Sample.loaded_sales Sample.big_int))
      /\ ~ fully_replaced (snd (Sample.load Sample.loaded_sales Sample.big_int))
             Sample.big_int).
Proof.
  split; (split; [vm_compute; reflexivity |]); split.
  - unfold prior_intact. vm_compute. discriminate.
  - intros (t & Ht & _). vm_compute in Ht. discriminate.
  - unfold prior_intact. vm_compute. discriminate.
  - intros (t & Ht & Hl). vm_compute in Ht. inversion Ht; subst.
    vm_compute in Hl. discriminate.
Qed.


(** ** Further properties: the answer of the model made into a statement *)

(** *** Stripping and splitting *)

Lemma rstrip_cons_keep (p : ascii -> bool) (c : ascii) (x : string) :
  p c = false -> rstrip_chars p (String c x) = String c (rstrip_chars p x).
Proof.
  intros Hc. simpl. destruct (rstrip_chars p x); [now rewrite Hc | reflexivity].
Qed.

Lemma rstrip_app_keep (p : ascii -> bool) (a b : string) :
  rstrip_chars p b <> "" -> rstrip_chars p (a ++ b) = a ++ rstrip_chars p b.
Proof.
  intros Hb. induction a as [|c a IH]; [reflexivity |].
  simpl. rewrite IH.
  destruct (a ++ rstrip_chars p b) eqn:E; [| reflexivity].
  destruct a; simpl in E; [contradiction | discriminate].
Qed.

Lemma rstrip_app_stop (p : ascii -> bool) (a : string) (c : ascii) (r : string) :
  p c = false ->
  rstrip_chars p (a ++ String c r) = a ++ String c (rstrip_chars p r).
Proof.
  intros Hc. rewrite rstrip_app_keep; rewrite rstrip_cons_keep by exact Hc;
    [reflexivity | discriminate].
Qed.

Lemma lstrip_app_stop (p : ascii -> bool) (a : string) (c : ascii) (r : string) :
  p c = false ->
  lstrip_chars p (a ++ String c r) = lstrip_chars p a ++ String c r.
Proof.
  intros Hc. induction a as [|x a IH]; simpl.
  - now rewrite Hc.
  - destruct (p x); [exact IH | reflexivity].
Qed.

Lemma lstrip_idem (p : ascii -> bool) (s : string) :
  lstrip_chars p (lstrip_chars p s) = lstrip_chars p s.
Proof.
  induction s as [|c s IH]; [reflexivity |].
  simpl. destruct (p c) eqn:E; [exact IH |]. simpl. now rewrite E.
Qed.

Lemma rstrip_idem (p : ascii -> bool) (s : string) :
  rstrip_chars p (rstrip_chars p s) = rstrip_chars p s.
Proof.
  induction s as [|c s IH]; [reflexivity |].
  simpl. destruct (rstrip_chars p s) as [|d r] eqn:E.
  - destruct (p c) eqn:Hc; [reflexivity |]. simpl. now rewrite Hc.
  - change (rstrip_chars p (String c (String d r)) = String c (String d r)).
    cbn [rstrip_chars] in IH |- *. now rewrite IH.
Qed.

(** A text that does not begin with a stripped character keeps its
    beginning when stripped on the right. *)
Lemma lstrip_rstrip (p : ascii -> bool) (s : string) :
  lstrip_chars p s = s -> lstrip_chars p (rstrip_chars p s) = rstrip_chars p s.
Proof.
  destruct s as [|c s]; [reflexivity |].
  intros H. destruct (p c) eqn:Hc.
  - exfalso. simpl in H. rewrite Hc in H.
    assert (L : length (lstrip_chars p s) <= length s).
    { clear. induction s as [|x s IH]; simpl; [lia |].
      destruct (p x); simpl; lia. }
    rewrite H in L. simpl in L. lia.
  - rewrite rstrip_cons_keep by exact Hc. simpl. now rewrite Hc.
Qed.

Lemma strip_chars_idem (p : ascii -> bool) (s : string) :
  strip_chars p (strip_chars p s) = strip_chars p s.
Proof.
  unfold strip_chars.
  rewrite (lstrip_rstrip p (lstrip_chars p s)) by apply lstrip_idem.
  apply rstrip_idem.
Qed.

Lemma strip_chars_none (p : ascii -> bool) (s : string) :
  forall_chars (fun c => negb (p c)) s = true -> strip_chars p s = s.
Proof.
  intros H. unfold strip_chars.
  assert (L : lstrip_chars p s = s).
  { destruct s as [|c s]; [reflexivity |]. simpl in *.
    apply andb_true_iff in H as [Hc _]. apply negb_true_iff in Hc.
    now rewrite Hc. }
  rewrite L. clear L.
  induction s as [|c s IH]; [reflexivity |].
  simpl in H. apply andb_true_iff in H as [Hc Hs]. apply negb_true_iff in Hc.
  rewrite rstrip_cons_keep by exact Hc. now rewrite IH.
Qed.

Lemma count_zero_forall (a : ascii) (s : string) :
  count_char a s = 0 <-> forall_chars (is_not a) s = true.
Proof.
  unfold is_not. induction s as [|c s IH]; simpl; [tauto |].
  destruct (Ascii.eqb a c); simpl; [split; [lia | discriminate] |].
  exact IH.
Qed.

Lemma count_zero_strip (a : ascii) (p : ascii -> bool) (s : string) :
  count_char a s = 0 -> count_char a (strip_chars p s) = 0.
Proof.
  rewrite !count_zero_forall. apply forall_chars_strip.
Qed.

Lemma count_zero_lstrip (a : ascii) (p : ascii -> bool) (s : string) :
  count_char a s = 0 -> count_char a (lstrip_chars p s) = 0.
Proof.
  rewrite !count_zero_forall. apply forall_chars_lstrip.
Qed.

Lemma count_zero_rstrip (a : ascii) (p : ascii -> bool) (s : string) :
  count_char a s = 0 -> count_char a (rstrip_chars p s) = 0.
Proof.
  rewrite !count_zero_forall. apply forall_chars_rstrip.
Qed.

Lemma contains_count (c : ascii) (p s : string) :
  contains (String c p) s = true -> count_char c s <> 0.
Proof.
  induction s as [|x s IH]; simpl.
  - discriminate.
  - intros H. apply orb_true_iff in H as [H | H].
    + apply andb_true_iff in H as [H _]. rewrite H. lia.
    + specialize (IH H). lia.
Qed.

(** The first piece of a split on one character holds none of it. *)
Lemma split_go_first (a : ascii) (s : string) :
  count_char a (fst (split_go (String a "") 0 s)) = 0.
Proof.
  induction s as [|c s IH]; [reflexivity |].
  cbn [split_go startswith].
  destruct (Ascii.eqb a c) eqn:E; cbn [andb].
  - destruct (split_go (String a "") (length (String a "") - 1) s). reflexivity.
  - destruct (split_go (String a "") 0 s) as [p ps]. simpl in *. now rewrite E.
Qed.

Lemma split_go_first_app (a : ascii) (u r : string) :
  count_char a u = 0 ->
  fst (split_go (String a "") 0 (u ++ String a r)) = u.
Proof.
  induction u as [|c u IH]; intros H.
  - cbn [append split_go startswith]. rewrite Ascii.eqb_refl. cbn [andb].
    destruct (split_go (String a "") (length (String a "") - 1) r). reflexivity.
  - simpl in H. cbn [append split_go startswith].
    destruct (Ascii.eqb a c) eqn:E; [lia |]. cbn [andb].
    specialize (IH H).
    destruct (split_go (String a "") 0 (u ++ String a r)) as [p ps].
    simpl in *. now rewrite IH.
Qed.

Lemma split_go_first_whole (a : ascii) (u : string) :
  count_char a u = 0 -> fst (split_go (String a "") 0 u) = u.
Proof.
  induction u as [|c u IH]; intros H; [reflexivity |].
  simpl in H. cbn [split_go startswith].
  destruct (Ascii.eqb a c) eqn:E; [lia |]. cbn [andb].
  specialize (IH H). destruct (split_go (String a "") 0 u) as [p ps].
  simpl in *. now rewrite IH.
Qed.

Lemma hd_split_on (sep s : string) :
  hd "" (split_on sep s) = fst (split_go sep 0 s).
Proof.
  unfold split_on. now destruct (split_go sep 0 s).
Qed.

(** *** The cleaning of an answer *)

Lemma sanitize_shape (t : string) :
  exists x, sanitize t = Ok (first_statement x).
Proof.
  unfold sanitize.
  set (y := strip_chars is_backtick (strip t)).
  destruct (contains "```" y).
  - cbn [split String.eqb Ascii.eqb Bool.eqb rbind].
    destruct (2 <=? List.length (split_on "```" y))%nat; cbn [rbind];
      eexists; reflexivity.
  - cbn [split String.eqb Ascii.eqb Bool.eqb rbind]. eexists; reflexivity.
Qed.

Lemma first_statement_body (x : string) :
  exists body, first_statement x = body ++ ";"
               /\ count_char ";"%char body = 0 /\ strip body = body.
Proof.
  exists (strip (hd "" (split_on ";" x))). split; [reflexivity |]. split.
  - apply count_zero_strip. rewrite hd_split_on. apply split_go_first.
  - apply strip_chars_idem.
Qed.

Lemma sanitize_plain (t : string) :
  count_char "`"%char t = 0 -> sanitize t = Ok (first_statement (strip t)).
Proof.
  intros H. unfold sanitize.
  assert (Hs : count_char "`"%char (strip t) = 0) by now apply count_zero_strip.
  assert (E : strip_chars is_backtick (strip t) = strip t).
  { apply strip_chars_none. apply count_zero_forall in Hs.
    revert Hs. apply forall_chars_impl. intros c. unfold is_not, is_backtick.
    now rewrite Ascii.eqb_sym. }
  rewrite E.
  destruct (contains "```" (strip t)) eqn:C.
  - apply contains_count in C. contradiction.
  - reflexivity.
Qed.

Section OnlineFacts.

Variable F : Type.
Variable llm : Type.
Variable invoke :
  llm -> list (string * string) -> list (string * prompt_value F) -> result string.

Lemma synthesize_sql_online (env : process F llm) (cfg : ai_cfg F)
  (q schema details cand t : string) (l : llm) :
  offline_demo_mode cfg = false ->
  _maybe_llm env (model cfg) (temperature cfg) = Some l ->
  synthesize_sql invoke env cfg q schema details cand t
  = rbind (sql_chain invoke l cfg q schema details cand t) sanitize.
Proof.
  intros Ho Hl. unfold synthesize_sql. now rewrite Ho, Hl.
Qed.

(** X1.  Whatever the model answers, [synthesize_sql] returns what the
    offline translator returns, or fails as the chain failed, or returns
    one statement: a text without semicolon and without blanks around it,
    followed by a semicolon. *)
Theorem synthesize_sql_returns_one_statement (env : process F llm)
  (cfg : ai_cfg F) (q schema details cand t : string) :
  synthesize_sql invoke env cfg q schema details cand t = offline_sql q t
  \/ (exists l,
        _maybe_llm env (model cfg) (temperature cfg) = Some l
        /\ synthesize_sql invoke env cfg q schema details cand t
           = sql_chain invoke l cfg q schema details cand t
        /\ is_ok (sql_chain invoke l cfg q schema details cand t) = false)
  \/ (exists l answer body,
        _maybe_llm env (model cfg) (temperature cfg) = Some l
        /\ sql_chain invoke l cfg q schema details cand t = Ok answer
        /\ synthesize_sql invoke env cfg q schema details cand t
           = Ok (body ++ ";")
        /\ count_char ";"%char body = 0
        /\ strip body = body
        /\ single_statement (body ++ ";") = true).
Proof.
  destruct (offline_demo_mode cfg) eqn:Ho.
  { left. unfold synthesize_sql. now rewrite Ho. }
  destruct (_maybe_llm env (model cfg) (temperature cfg)) as [l|] eqn:Hl.
  2:{ left. unfold synthesize_sql. now rewrite Ho, Hl. }
  right. rewrite (synthesize_sql_online env cfg q schema details cand t l Ho Hl).
  destruct (sql_chain invoke l cfg q schema details cand t) as [answer| e |] eqn:Hc.
  - right. exists l, answer.
    destruct (sanitize_shape answer) as [x Hx].
    destruct (first_statement_body x) as (body & Hb & Hn & Hs).
    exists body. cbn [rbind]. rewrite Hx, Hb.
    repeat split; try assumption; try reflexivity.
    unfold single_statement.
    rewrite endswith_char_app_r by discriminate.
    rewrite count_char_app, Hn. reflexivity.
  - left. exists l. rewrite Hc. repeat split; reflexivity.
  - left. exists l. rewrite Hc. repeat split; reflexivity.
Qed.

(** X2.  When the answer of the model holds no backtick, the statement is
    the answer up to its first semicolon, stripped of the blanks around
    it and closed by a semicolon: what follows the first semicolon is
    dropped. *)
Theorem synthesize_sql_keeps_first_statement (env : process F llm)
  (cfg : ai_cfg F) (q schema details cand t : string) (l : llm)
  (a tail : string) :
  offline_demo_mode cfg = false ->
  _maybe_llm env (model cfg) (temperature cfg) = Some l ->
  sql_chain invoke l cfg q schema details cand t = Ok (a ++ ";" ++ tail) ->
  count_char ";"%char a = 0 ->
  count_char "`"%char a = 0 ->
  count_char "`"%char tail = 0 ->
  synthesize_sql invoke env cfg q schema details cand t = Ok (strip a ++ ";").
Proof.
  intros Ho Hl Hc Ha Hb Ht.
  rewrite (synthesize_sql_online env cfg q schema details cand t l Ho Hl), Hc.
  cbn [rbind]. rewrite sanitize_plain.
  2:{ rewrite !count_char_app, Hb, Ht. reflexivity. }
  unfold first_statement. do 2 f_equal.
  rewrite hd_split_on. unfold strip at 2, strip_chars.
  change (a ++ ";" ++ tail) with (a ++ String ";"%char tail).
  rewrite lstrip_app_stop by reflexivity.
  rewrite rstrip_app_stop by reflexivity.
  rewrite split_go_first_app by now apply count_zero_lstrip.
  unfold strip, strip_chars. now rewrite lstrip_idem.
Qed.

End OnlineFacts.

(** A witness of X2: the answer holds two statements. *)
Lemma synthesize_sql_keeps_first_statement_witness :
  offline_demo_mode Sample.online_cfg = false
  /\ _maybe_llm (Sample.online " SELECT 1 ; DROP TABLE sales;")
       (model Sample.online_cfg) (temperature Sample.online_cfg)
     = Some " SELECT 1 ; DROP TABLE sales;"
  /\ synthesize_sql Sample.invoke (Sample.online " SELECT 1 ; DROP TABLE sales;")
       Sample.online_cfg "how many rows" "" "" "" "sales"
     = Ok "SELECT 1;".
Proof.
  split; [reflexivity |]. split; [reflexivity |].
  exact (synthesize_sql_keeps_first_statement Sample.ratio Sample.canned
           Sample.invoke (Sample.online " SELECT 1 ; DROP TABLE sales;")
           Sample.online_cfg "how many rows" "" "" "" "sales"
           " SELECT 1 ; DROP TABLE sales;" " SELECT 1 " " DROP TABLE sales;"
           eq_refl eq_refl eq_refl eq_refl eq_refl eq_refl).
Defined.

(** ** Further properties: the statement in front of the guard *)

Lemma split_go_first_cons (a c : ascii) (x : string) :
  Ascii.eqb a c = false ->
  fst (split_go (String a "") 0 (String c x))
  = String c (fst (split_go (String a "") 0 x)).
Proof.
  intros E. cbn [split_go startswith]. rewrite E. cbn [andb].
  now destruct (split_go (String a "") 0 x).
Qed.

Lemma strip_sql_prefix (z : string) :
  strip ("sql" ++ z) = "sql" ++ rstrip_chars is_space z.
Proof.
  unfold strip, strip_chars.
  change ("sql" ++ z) with (String "s" (String "q" (String "l" z))).
  change (lstrip_chars is_space (String "s" (String "q" (String "l" z))))
    with (String "s" (String "q" (String "l" z))).
  now rewrite !rstrip_cons_keep by reflexivity.
Qed.

(** A text that begins with the letters s-q-l does not pass the guard. *)
Lemma guard_refuses_sql (z : string) : select_or_with ("sql" ++ z) = false.
Proof.
  unfold select_or_with. rewrite strip_sql_prefix. reflexivity.
Qed.

(** The answer between code fences that carry the language tag. *)
Lemma sanitize_fenced (b : string) :
  count_char "`"%char b = 0 ->
  exists z, sanitize ("```sql" ++ nl ++ b ++ nl ++ "```") = Ok ("sql" ++ z).
Proof.
  intros Hb. unfold sanitize.
  assert (E1 : strip ("```sql" ++ nl ++ b ++ nl ++ "```")
               = "```sql" ++ nl ++ b ++ nl ++ "```").
  { unfold strip, strip_chars.
    change (lstrip_chars is_space ("```sql" ++ nl ++ b ++ nl ++ "```"))
      with ("```sql" ++ nl ++ b ++ nl ++ "```").
    replace ("```sql" ++ nl ++ b ++ nl ++ "```")
      with (("```sql" ++ nl ++ b) ++ nl ++ "```")
      by now rewrite !append_assoc.
    rewrite rstrip_app_keep; [reflexivity | discriminate]. }
  rewrite E1.
  assert (E2 : strip_chars is_backtick ("```sql" ++ nl ++ b ++ nl ++ "```")
               = "sql" ++ nl ++ b ++ nl).
  { unfold strip_chars.
    change (lstrip_chars is_backtick ("```sql" ++ nl ++ b ++ nl ++ "```"))
      with ("sql" ++ nl ++ b ++ nl ++ "```").
    replace ("sql" ++ nl ++ b ++ nl ++ "```")
      with (("sql" ++ nl ++ b) ++ nl ++ "```")
      by now rewrite !append_assoc.
    rewrite rstrip_app_keep by discriminate.
    change (rstrip_chars is_backtick (nl ++ "```")) with nl.
    now rewrite !append_assoc. }
  rewrite E2.
  destruct (contains "```" ("sql" ++ nl ++ b ++ nl)) eqn:C.
  { apply contains_count in C. exfalso. apply C.
    rewrite !count_char_app, Hb. reflexivity. }
  cbn [split String.eqb Ascii.eqb Bool.eqb rbind].
  rewrite hd_split_on.
  change ("sql" ++ nl ++ b ++ nl)
    with (String "s" (String "q" (String "l" (nl ++ b ++ nl)))).
  rewrite !split_go_first_cons by reflexivity.
  change (String "s" (String "q" (String "l" ?x))) with ("sql" ++ x).
  set (p := fst (split_go ";" 0 (nl ++ b ++ nl))).
  change (String "s" (String "q" (String "l" p))) with ("sql" ++ p).
  rewrite strip_sql_prefix. rewrite append_assoc. eexists; reflexivity.
Qed.

(** The statements of the translator all begin with the word SELECT. *)
Lemma emitted_begins_with_select (t s : string) :
  emitted t s -> begins_with "select" s.
Proof.
  intros H. destruct H;
    match goal with
    | |- begins_with _ (String "S" (String "E" (String "L" (String "E"
           (String "C" (String "T" ?r)))))) =>
        exists "", "SELECT", r; repeat split; reflexivity
    | |- begins_with _ (?a ++ ?r) =>
        exists "", "SELECT", (substring 6 (length a - 6) a ++ r);
        repeat split; reflexivity
    end.
Qed.

Section GuardFacts.

Variable F : Type.
Variable llm : Type.
Variable invoke :
  llm -> list (string * string) -> list (string * prompt_value F) -> result string.
Variable stored_as : string -> pyvalue F -> sqlvalue F.

(** A statement that passes the test of the guard reaches the storage. *)
Lemma guard_passes (self : SimpleSQLite F) (sql : string) :
  select_or_with sql = true ->
  calls (conn (snd (execute_safe_select stored_as self sql)))
  = (calls (conn self) ++ [sql])%list
  /\ fst (execute_safe_select stored_as self sql) <> Raise UnsafeQueryError.
Proof.
  intros H. unfold execute_safe_select. rewrite H. cbn [negb].
  unfold on_conn, bind, execute.
  pose proof (exec_raise_not_unsafe F stored_as sql [] (tables (conn self))) as Hne.
  destruct (exec stored_as sql [] (tables (conn self))) as [[cur | e |] d];
    cbn [fst snd conn calls] in *; split; try reflexivity; try discriminate.
  intros [= He]. apply Hne. now rewrite He.
Qed.

(** X3.  Every statement the offline translator returns passes the guard
    of [execute_safe_select], whatever the question and the table name: it
    is handed to the storage and is never refused as unsafe. *)
Theorem offline_statements_pass_the_guard (q t : string)
  (self : SimpleSQLite F) :
  forall s, offline_sql q t = Ok s ->
    select_or_with s = true
    /\ calls (conn (snd (execute_safe_select stored_as self s)))
       = (calls (conn self) ++ [s])%list
    /\ fst (execute_safe_select stored_as self s) <> Raise UnsafeQueryError.
Proof.
  intros s H.
  assert (G : select_or_with s = true).
  { apply select_or_with_iff. left.
    apply emitted_begins_with_select with t. now apply offline_sql_emitted with q. }
  split; [exact G |]. now apply guard_passes.
Qed.

(** X4.  When the model answers with a statement between code fences that
    carry the language tag sql, the tag stays in front of the statement:
    [synthesize_sql] returns a text that begins with the letters s-q-l,
    and [execute_safe_select] refuses it, leaving the engine as it was. *)
Theorem fenced_answer_is_refused (env : process F llm) (cfg : ai_cfg F)
  (q schema details cand t : string) (l : llm) (b : string)
  (self : SimpleSQLite F) :
  offline_demo_mode cfg = false ->
  _maybe_llm env (model cfg) (temperature cfg) = Some l ->
  sql_chain invoke l cfg q schema details cand t
  = Ok ("```sql" ++ nl ++ b ++ nl ++ "```") ->
  count_char "`"%char b = 0 ->
  exists z,
    synthesize_sql invoke env cfg q schema details cand t = Ok ("sql" ++ z)
    /\ execute_safe_select stored_as self ("sql" ++ z)
       = (Raise UnsafeQueryError, self).
Proof.
  intros Ho Hl Hc Hb.
  destruct (sanitize_fenced b Hb) as [z Hz].
  exists z. split.
  - rewrite (synthesize_sql_online F llm invoke env cfg q schema details cand t l Ho Hl).
    rewrite Hc. exact Hz.
  - unfold execute_safe_select. now rewrite guard_refuses_sql.
Qed.

End GuardFacts.

(** A witness of X4: a fenced count of the rows. *)
Lemma fenced_answer_is_refused_witness :
  offline_demo_mode Sample.online_cfg = false
  /\ count_char "`"%char "SELECT COUNT(*) FROM sales;" = 0
  /\ exists z,
       synthesize_sql Sample.invoke
         (Sample.online ("```sql" ++ nl ++ "SELECT COUNT(*) FROM sales;" ++ nl ++ "```"))
         Sample.online_cfg "how many rows" "" "" "" "sales"
       = Ok ("sql" ++ z)
       /\ execute_safe_select (F:=Sample.ratio) (fun _ _ => SNull)
            (new_engine Sample.ratio "sales") ("sql" ++ z)
          = (Raise UnsafeQueryError, new_engine Sample.ratio "sales").
Proof.
  split; [reflexivity |]. split; [reflexivity |].
  exact (fenced_answer_is_refused Sample.ratio Sample.canned Sample.invoke
           (fun _ _ => SNull)
           (Sample.online ("```sql" ++ nl ++ "SELECT COUNT(*) FROM sales;" ++ nl ++ "```"))
           Sample.online_cfg "how many rows" "" "" "" "sales"
           ("```sql" ++ nl ++ "SELECT COUNT(*) FROM sales;" ++ nl ++ "```")
           "SELECT COUNT(*) FROM sales;"
           (new_engine Sample.ratio "sales")
           eq_refl eq_refl eq_refl eq_refl).
Defined.

(** ** Further properties: the ranking of the snippets *)

(** *** The loop of [findall] ends within its rounds *)

Lemma steps_consumes r st st' :
  steps r st st' ->
  exists u, rest st = u ++ rest st' /\ pos st' = pos st + length u.
Proof.
  induction 1; simpl.
  - now exists l.
  - now exists (String c "").
  - now exists u.
  - now exists u.
  - exact IHsteps.
  - exists "". now rewrite Nat.add_0_r.
  - exact IHsteps.
  - exact IHsteps.
  - destruct IHsteps1 as (u1 & E1 & P1), IHsteps2 as (u2 & E2 & P2).
    exists (u1 ++ u2). rewrite append_assoc, <- E2, <- E1, length_append.
    split; [reflexivity | lia].
  - exists "". now rewrite Nat.add_0_r.
  - exact IHsteps.
Qed.

(** A match of [Group r] from a position: its text is what was read. *)
Lemma run_group_text r (st m : mstate) (k : mstate -> option mstate) :
  run (Group r) st k = Some m ->
  exists st', k st' = Some m
              /\ rest st = match_text st' ++ rest st'
              /\ pos st' = pos st + length (match_text st').
Proof.
  intros H. apply run_sound in H as (st' & Hs & Hk).
  exists st'. split; [exact Hk |].
  inversion Hs; subst.
  match goal with
  | H : steps r st ?x |- _ => apply steps_consumes in H as (u & E & P)
  end.
  unfold match_text, set_grp. cbn [grp rest pos].
  rewrite P, E.
  replace (pos st + length u - pos st) with (length u) by lia.
  rewrite substring_0_app. split; [reflexivity | reflexivity].
Qed.

Lemma search_adv_measure r (start : nat) (adv : bool) : forall s pv i m,
  search_adv (Group r) start adv pv s i = Some m ->
  length (rest m) + length (match_text m) <= length s
  /\ (adv = true -> i = start -> length (rest m) < length s).
Proof.
  induction s as [|c s IH]; intros pv i m H; cbn [search_adv] in H.
  - destruct (run (Group r) (MState pv "" i None) _) as [x|] eqn:R;
      [| discriminate].
    injection H as ->.
    apply run_group_text in R as (st' & Hk & E & P). cbn [rest pos] in E, P.
    destruct (adv && (pos st' =? i + 0)%nat) eqn:T.
    + destruct (adv && (pos st' =? start)%nat) eqn:T'; [discriminate |].
      injection Hk as <-.
      apply (f_equal length) in E. rewrite length_append in E. simpl in E.
      split; [lia |]. intros -> ->. rewrite Nat.add_0_r in T.
      rewrite T in T'. discriminate.
    + destruct (adv && (pos st' =? start)%nat) eqn:T'; [discriminate |].
      injection Hk as <-.
      apply (f_equal length) in E. rewrite length_append in E. simpl in E.
      split; [lia |]. intros -> ->.
      cbn [andb] in T'. apply Nat.eqb_neq in T'. lia.
  - destruct (run (Group r) (MState pv (String c s) i None) _) as [x|] eqn:R.
    + injection H as ->.
      apply run_group_text in R as (st' & Hk & E & P). cbn [rest pos] in E, P.
      destruct (adv && (pos st' =? start)%nat) eqn:T'; [discriminate |].
      injection Hk as <-.
      apply (f_equal length) in E. rewrite length_append in E.
      split; [lia |]. intros -> ->.
      cbn [andb] in T'. apply Nat.eqb_neq in T'. lia.
    + apply IH in H as [H1 _]. simpl. split; [lia |]. intros _ _. lia.
Qed.

(** More rounds than two for each position and two for the end change
    nothing: the loop of [findall] has ended by then. *)
Lemma findall_loop_rounds r : forall n1 n2 s adv pv i,
  2 * length s + (if adv : bool then 1 else 2) <= n1 ->
  2 * length s + (if adv : bool then 1 else 2) <= n2 ->
  findall_loop n1 r adv pv s i = findall_loop n2 r adv pv s i.
Proof.
  induction n1 as [|n1 IH]; intros n2 s adv pv i H1 H2.
  - destruct adv; lia.
  - destruct n2 as [|n2]; [destruct adv; lia |].
    cbn [findall_loop].
    destruct (search_adv (Group r) i adv pv s i) as [m|] eqn:S; [| reflexivity].
    f_equal.
    apply search_adv_measure in S as [L1 L2].
    destruct (match_text m =? "") eqn:T.
    + apply String.eqb_eq in T.
      destruct adv.
      * specialize (L2 eq_refl eq_refl). apply IH; lia.
      * apply IH; lia.
    + assert (length (match_text m) <> 0).
      { destruct (match_text m); [discriminate | simpl; lia]. }
      apply IH; destruct adv; lia.
Qed.

Lemma findall_rounds r (s : string) (extra : nat) :
  findall_loop (2 * length s + 2 + extra) r false None s 0 = findall r s.
Proof.
  unfold findall. apply findall_loop_rounds; lia.
Qed.

(** *** Sets of words *)

Lemma set_mem_In (x : string) (l : list string) :
  set_mem x l = true <-> In x l.
Proof.
  unfold set_mem. rewrite existsb_exists. split.
  - intros (y & Hy & E). apply String.eqb_eq in E. now subst.
  - intros H. exists x. split; [exact H | apply String.eqb_refl].
Qed.

Lemma set_of_In (l : list string) : forall x, In x (set_of l) <-> In x l.
Proof.
  induction l as [|y l IH]; intros x; [tauto |].
  cbn [set_of]. destruct (set_mem y (set_of l)) eqn:E.
  - apply set_mem_In, IH in E. rewrite IH. simpl. split; [tauto |].
    intros [<- | H]; assumption.
  - simpl. now rewrite IH.
Qed.

Lemma set_of_NoDup (l : list string) : NoDup (set_of l).
Proof.
  induction l as [|y l IH]; [constructor |].
  cbn [set_of]. destruct (set_mem y (set_of l)) eqn:E; [exact IH |].
  constructor; [| exact IH].
  intros H. apply set_mem_In in H. congruence.
Qed.

Lemma tokens_NoDup (a : string) : NoDup (tokens a).
Proof. apply set_of_NoDup. Qed.

Lemma filter_split_length (A : Type) (f : A -> bool) (l : list A) :
  List.length (filter f l) + List.length (filter (fun x => negb (f x)) l)
  = List.length l.
Proof.
  induction l as [|x l IH]; [reflexivity |].
  simpl. destruct (f x); simpl; lia.
Qed.

Lemma filter_none_length (A : Type) (f : A -> bool) (l : list A) :
  List.length (filter f l) = 0 <-> forall x, In x l -> f x = false.
Proof.
  induction l as [|x l IH]; simpl.
  - split; [intros _ y [] | reflexivity].
  - destruct (f x) eqn:E; simpl.
    + split; [lia |]. intros H. specialize (H x (or_introl eq_refl)). congruence.
    + rewrite IH. split.
      * intros H y [<- | Hy]; [exact E | now apply H].
      * intros H y Hy. apply H. now right.
Qed.

Lemma set_inter_length_sym (a b : list string) :
  NoDup a -> NoDup b ->
  List.length (set_inter a b) = List.length (set_inter b a).
Proof.
  intros Ha Hb. unfold set_inter.
  apply Nat.le_antisymm; apply NoDup_incl_length;
    try (apply NoDup_filter; assumption);
    intros x Hx; apply filter_In in Hx as [H1 H2]; apply filter_In;
    apply set_mem_In in H2; (split; [exact H2 | now apply set_mem_In]).
Qed.

Lemma set_union_length (a b : list string) :
  List.length (set_union a b)
  = List.length a + List.length (filter (fun x => negb (set_mem x a)) b).
Proof. unfold set_union. apply length_app. Qed.

Lemma set_union_length_sym (a b : list string) :
  NoDup a -> NoDup b ->
  List.length (set_union a b) = List.length (set_union b a).
Proof.
  intros Ha Hb. rewrite !set_union_length.
  pose proof (filter_split_length string (fun x => set_mem x b) a) as Pa.
  pose proof (filter_split_length string (fun x => set_mem x a) b) as Pb.
  cbv beta in Pa, Pb.
  pose proof (set_inter_length_sym a b Ha Hb) as Hi. unfold set_inter in Hi.
  lia.
Qed.

Lemma set_inter_le_union (a b : list string) :
  List.length (set_inter a b) <= List.length (set_union a b).
Proof.
  rewrite set_union_length.
  pose proof (filter_split_length string (fun x => set_mem x b) a) as Pa.
  cbv beta in Pa. unfold set_inter. lia.
Qed.

Lemma set_inter_eq_union (a b : list string) :
  NoDup a -> NoDup b ->
  (List.length (set_inter a b) = List.length (set_union a b)
   <-> forall x, set_mem x a = set_mem x b).
Proof.
  intros Ha Hb. rewrite set_union_length.
  pose proof (filter_split_length string (fun x => set_mem x b) a) as Pa.
  cbv beta in Pa. unfold set_inter. split.
  - intros H.
    assert (Z1 : List.length (filter (fun x => negb (set_mem x b)) a) = 0) by lia.
    assert (Z2 : List.length (filter (fun x => negb (set_mem x a)) b) = 0) by lia.
    rewrite filter_none_length in Z1, Z2.
    intros x. destruct (set_mem x a) eqn:Ea, (set_mem x b) eqn:Eb;
      try reflexivity.
    + apply set_mem_In in Ea. specialize (Z1 x Ea). rewrite Eb in Z1. discriminate.
    + apply set_mem_In in Eb. specialize (Z2 x Eb). rewrite Ea in Z2. discriminate.
  - intros H.
    assert (Z1 : List.length (filter (fun x => negb (set_mem x b)) a) = 0).
    { apply filter_none_length. intros x Hx. apply set_mem_In in Hx.
      rewrite <- H, Hx. reflexivity. }
    assert (Z2 : List.length (filter (fun x => negb (set_mem x a)) b) = 0).
    { apply filter_none_length. intros x Hx. apply set_mem_In in Hx.
      rewrite H, Hx. reflexivity. }
    lia.
Qed.

(** *** Texts without words *)

Lemma alnum_lower_char (c : ascii) : alnum_char (lower_char c) = alnum_char c.
Proof. each_char c. Qed.

Lemma wordless_lower (a : string) : wordless a = true -> wordless (lower a) = true.
Proof.
  unfold wordless. induction a as [|c a IH]; [reflexivity |].
  simpl. rewrite alnum_lower_char. intros H.
  apply andb_true_iff in H as [H1 H2]. now rewrite H1, IH.
Qed.

Lemma search_adv_wordless (start : nat) (adv : bool) : forall s pv i,
  wordless s = true -> search_adv (Group re_token) start adv pv s i = None.
Proof.
  unfold wordless. induction s as [|c s IH]; intros pv i H; [reflexivity |].
  simpl in H. apply andb_true_iff in H as [H1 H2]. apply negb_true_iff in H1.
  cbn [search_adv run re_token rest]. rewrite H1. now apply IH.
Qed.

Lemma tokens_wordless (a : string) : wordless a = true -> tokens a = [].
Proof.
  intros H. apply wordless_lower in H.
  unfold tokens, findall.
  replace (2 * length (lower a) + 2) with (S (2 * length (lower a) + 1)) by lia.
  cbn [findall_loop]. now rewrite search_adv_wordless.
Qed.

Section RankingFacts.

Variable float : Type.
Variable zero : float.
Variable truediv : nat -> nat -> float.
Variable gt : float -> float -> bool.

(** X5.  The similarity of two texts does not depend on their order, nor
    on the case of their letters. *)
Theorem naive_similarity_symmetric (a b : string) :
  naive_similarity zero truediv a b = naive_similarity zero truediv b a
  /\ naive_similarity zero truediv a b
     = naive_similarity zero truediv (lower a) (lower b).
Proof.
  split.
  - unfold naive_similarity. rewrite orb_comm.
    destruct (is_empty (tokens b) || is_empty (tokens a)); [reflexivity |].
    rewrite (set_inter_length_sym (tokens a) (tokens b)),
            (set_union_length_sym (tokens a) (tokens b))
      by apply tokens_NoDup.
    reflexivity.
  - unfold naive_similarity, tokens. now rewrite !lower_idem.
Qed.

(** X6.  For two texts that both hold a word, the similarity is the
    quotient of the number of shared words by the number of all words;
    the first number never exceeds the second, which is not zero, and the
    two are equal exactly when the texts use the same words. *)
Theorem naive_similarity_quotient (a b : string) :
  tokens a <> [] -> tokens b <> [] ->
  naive_similarity zero truediv a b = truediv (shared_words a b) (all_words a b)
  /\ shared_words a b <= all_words a b
  /\ 0 < all_words a b
  /\ (shared_words a b = all_words a b <-> same_tokens a b).
Proof.
  intros Ha Hb. unfold shared_words, all_words.
  split; [| split; [| split]].
  - unfold naive_similarity.
    destruct (tokens a); [contradiction |]. destruct (tokens b); [contradiction |].
    reflexivity.
  - apply set_inter_le_union.
  - rewrite set_union_length. destruct (tokens a); [contradiction | simpl; lia].
  - unfold same_tokens. apply set_inter_eq_union; apply tokens_NoDup.
Qed.

(** X7.  A text without any ASCII letter or digit has the similarity 0.0
    with every text, on either side. *)
Theorem naive_similarity_wordless (a b : string) :
  wordless a = true ->
  naive_similarity zero truediv a b = zero
  /\ naive_similarity zero truediv b a = zero.
Proof.
  intros H. unfold naive_similarity. rewrite (tokens_wordless a H).
  cbn [is_empty orb]. now rewrite orb_true_r.
Qed.

Lemma max_scan_best (A : Type) (key : A -> float) :
  (forall x, gt x x = false) ->
  (forall x y z, gt x y = true -> gt y z = true -> gt x z = true) ->
  forall (l : list A) (best : A) (seen : list A),
    In best seen ->
    (forall s, In s seen -> gt (key s) (key best) = false) ->
    In (max_scan gt key best (key best) l) (seen ++ l)
    /\ forall s, In s (seen ++ l) ->
         gt (key s) (key (max_scan gt key best (key best) l)) = false.
Proof.
  intros Hirr Htr. induction l as [|x l IH]; intros best seen Hb Hs.
  - rewrite app_nil_r. cbn [max_scan]. split; assumption.
  - cbn [max_scan].
    replace (seen ++ x :: l)%list with ((seen ++ [x]) ++ l)%list
      by now rewrite <- app_assoc.
    destruct (gt (key x) (key best)) eqn:G.
    + apply IH.
      * apply in_or_app. right. now left.
      * intros s Hin. apply in_app_or in Hin as [Hin | [<- | []]].
        -- destruct (gt (key s) (key x)) eqn:G'; [| reflexivity].
           specialize (Hs s Hin). rewrite (Htr _ _ _ G' G) in Hs. discriminate.
        -- apply Hirr.
    + apply IH.
      * apply in_or_app. now left.
      * intros s Hin. apply in_app_or in Hin as [Hin | [<- | []]].
        -- now apply Hs.
        -- exact G.
Qed.

(** X8.  With no snippet the hint is the empty text.  Otherwise, the
    order on the floats being strict and transitive, the hint is the
    statement of one of the snippets, the empty text when that snippet
    has none, and no snippet has a statement whose similarity with the
    question is greater. *)
Theorem pick_most_related_is_a_best_match (q : string)
  (snippets : list (dict string)) :
  (forall x, gt x x = false) ->
  (forall x y z, gt x y = true -> gt y z = true -> gt x z = true) ->
  pick_most_related zero truediv gt q [] = ""
  /\ (snippets <> [] ->
      exists s,
        In s snippets
        /\ pick_most_related zero truediv gt q snippets = dict_get_or s "sql" ""
        /\ forall s', In s' snippets ->
             gt (naive_similarity zero truediv q (dict_get_or s' "sql" ""))
                (naive_similarity zero truediv q (dict_get_or s "sql" ""))
             = false).
Proof.
  intros Hirr Htr. split; [reflexivity |].
  intros Hne. destruct snippets as [|s0 others]; [contradiction |].
  cbn [pick_most_related].
  set (key := fun s : dict string =>
                naive_similarity zero truediv q (dict_get_or s "sql" "")).
  destruct (max_scan_best (dict string) key Hirr Htr others s0 [s0]) as [H1 H2].
  - now left.
  - intros s [<- | []]. apply Hirr.
  - exists (max_scan gt key s0 (key s0) others). repeat split.
    + exact H1.
    + exact H2.
Qed.

End RankingFacts.

(** The stand-in floats are ordered strictly and transitively. *)
Lemma ratio_gt_irrefl (x : Sample.ratio) : Sample.ratio_gt x x = false.
Proof. unfold Sample.ratio_gt. apply Nat.ltb_irrefl. Qed.

Lemma ratio_gt_trans (x y z : Sample.ratio) :
  Sample.ratio_gt x y = true -> Sample.ratio_gt y z = true ->
  Sample.ratio_gt x z = true.
Proof.
  unfold Sample.ratio_gt. destruct x as [a b], y as [c d], z as [e f].
  cbn [fst snd]. rewrite !Nat.ltb_lt. intros H1 H2.
  assert (Hd : 0 < d) by (destruct d; [lia | lia]).
  assert (Hc : 0 < c) by (destruct c; [lia | lia]).
  apply (Nat.mul_lt_mono_pos_r (c * d)); [nia |].
  assert (K1 : (e * d) * (c * b) <= (c * f) * (c * b)) by (apply Nat.mul_le_mono_r; lia).
  assert (K2 : (c * f) * (c * b) <= (c * f) * (a * d)) by (apply Nat.mul_le_mono_l; lia).
  assert (K3 : 0 < c * b \/ c * b = 0) by lia.
  destruct K3 as [K3 | K3].
  - assert (K4 : (e * d) * (c * b) < (c * f) * (c * b))
      by (apply Nat.mul_lt_mono_pos_r; lia).
    nia.
  - nia.
Qed.

(** A witness of X6: two questions that share one word of four. *)
Lemma naive_similarity_quotient_witness :
  tokens "Total sales" <> [] /\ tokens "sales by item" <> []
  /\ naive_similarity Sample.ratio_zero Sample.ratio_div
       "Total sales" "sales by item"
     = Sample.ratio_div 1 4.
Proof.
  split; [vm_compute; discriminate |]. split; [vm_compute; discriminate |].
  destruct (naive_similarity_quotient Sample.ratio Sample.ratio_zero
              Sample.ratio_div "Total sales" "sales by item") as [E _].
  - vm_compute; discriminate.
  - vm_compute; discriminate.
  - rewrite E. reflexivity.
Defined.

(** A witness of X7: a question made of punctuation. *)
Lemma naive_similarity_wordless_witness :
  wordless "?!" = true
  /\ naive_similarity Sample.ratio_zero Sample.ratio_div "?!" "SELECT 1"
     = Sample.ratio_zero.
Proof.
  split; [reflexivity |].
  apply (naive_similarity_wordless Sample.ratio Sample.ratio_zero
           Sample.ratio_div "?!" "SELECT 1").
  reflexivity.
Defined.

(** A witness of X8: the sample snippets and a question on the revenue. *)
Lemma pick_most_related_is_a_best_match_witness :
  Sample.snippets <> []
  /\ exists s,
       In s Sample.snippets
       /\ pick_most_related Sample.ratio_zero Sample.ratio_div Sample.ratio_gt
            "sum of the revenue" Sample.snippets
          = dict_get_or s "sql" "".
Proof.
  split; [discriminate |].
  destruct (pick_most_related_is_a_best_match Sample.ratio Sample.ratio_zero
              Sample.ratio_div Sample.ratio_gt "sum of the revenue"
              Sample.snippets ratio_gt_irrefl ratio_gt_trans) as [_ H].
  destruct (H ltac:(discriminate)) as (s & H1 & H2 & _).
  exists s. split; assumption.
Defined.
